(** * SpinoCare federated-learning server: aggregation and distribution

    A shallow embedding of
      - [backend-deploy/python-ml-server/server_aggregate.py]
        ([load_npz], [aggregate_npz_files], [keras_federated_averaging],
        [convert_keras_to_tflite], [hybrid_fl_aggregation]),
      - [backend-deploy/python-ml-server/main.py]
        (the start-up of the module, [stats], [predict], [get_model_info],
        [get_global_model], [status], [root], [health_check]),
      - [backend-deploy/python-ml-server/setup_production_models.py]
        ([initialize_global_tflite], [sync_client_model]),
      - [backend/test_client.py]
        ([save_weights_to_npz], [load_weights_from_npz]),
    followed by their properties.

    Modelling conventions.
      - The file system is a flat finite map from paths to files; a file
        carries its content and the stamp of its last write ([st_mtime]).
        Directories are not modelled.
      - A Python function that may raise is a computation in [io]: it maps
        a file system to a result ([inl] an exception, [inr] a value) and the
        file system it leaves behind.  Writes made before a [raise] stay.
      - Whether a write goes through is the disk's matter ([disk]).
        Statements that name no disk are about the reliable one, on which
        every write completes; a statement about failing writes names its
        disk.
      - An insertion-ordered Python [dict] with string keys is an
        association list without repeated keys ([dict_set] keeps it so).
      - The elements of weight tensors are binary64 floats, with the
        arithmetic of IEEE 754 (rounding to nearest even, infinities, NaN);
        every float16 and float32 value is one of them, so [astype] keeps
        the values and the element type is carried as a tag.  That
        [np.add.reduce] adds up the values of a column in binary64 is
        assumed ([float_sum]); in which order and grouping is numpy's
        matter ([numpy_sum]).
      - The tensors of the prediction endpoint (pixels and scores) are finite
        and only compared and scaled; they are kept as exact rationals. *)

From Stdlib Require Import QArith Qcanon.
From Stdlib Require Import Floats.
From Stdlib.Strings Require Import Byte.
From stdpp Require Import base option list list_monad strings gmap numbers pretty.

Local Open Scope string_scope.
Local Open Scope list_scope.

(** ** Exceptions *)

Inductive exn : Type :=
  | ValueError (msg : string)
  | TypeError (msg : string)
  | AttributeError (msg : string)
  | FileNotFoundError (msg : string)
  | KeyError (key : string)
  | IndexError
  | AxisError
  | OSError (path : string)          (* a write that the disk fails; Python raises a subclass *)
  | NpLoadError (path : string)      (* np.load on a file that is no archive *)
  | KerasLoadError (path : string)   (* tf.keras.models.load_model on a bad file *)
  | ConverterError.                  (* TFLiteConverter.convert() failed *)

#[global] Instance exn_eq_dec : EqDecision exn.
Proof. solve_decision. Defined.

(** The two failures the specification names, as the source raises them. *)
Definition EmptyInput : exn := ValueError "No input files provided".
Definition KeyMismatch : exn := ValueError "Mismatch in keys across uploaded files".
Definition StackShapeError : exn := ValueError "all input arrays must have the same shape".

(** Pure code that may raise. *)
#[global] Instance result_ret : MRet (sum exn) := λ A x, inr x.
#[global] Instance result_bind : MBind (sum exn) := λ A B f m,
  match m with inl e => inl e | inr x => f x end.

(** ** Floats *)

#[global] Instance spec_float_eq_dec : EqDecision spec_float.
Proof. solve_decision. Defined.

(** Two floats are the same float when their IEEE 754 descriptions are. *)
#[global] Instance float_eq_dec : EqDecision float.
Proof.
  intros x y. destruct (decide (Prim2SF x = Prim2SF y)) as [H|H].
  - left. rewrite <-(SF2Prim_Prim2SF x), <-(SF2Prim_Prim2SF y). by f_equal.
  - right. by intros ->.
Defined.

(** [float(n)] of a count; exact below 2^53. *)
Definition float_of_nat (n : nat) : float :=
  PrimFloat.of_uint63 (Uint63.of_Z (Z.of_nat n)).

Definition float_of_Z (z : Z) : float :=
  match z with
  | Zneg p => (- PrimFloat.of_uint63 (Uint63.of_Z (Zpos p)))%float
  | _ => PrimFloat.of_uint63 (Uint63.of_Z z)
  end.

(** Equal as numbers: the same float, or two zeros of either sign. *)
Definition numerically_equal (x y : float) : Prop :=
  x = y ∨ (PrimFloat.eqb x 0 = true ∧ PrimFloat.eqb y 0 = true).

#[global] Instance numerically_equal_dec x y : Decision (numerically_equal x y).
Proof. unfold numerically_equal. apply _. Defined.

(** The float64 values that adding up the values of a list can give: the
    values are added two at a time in binary64, in any order and grouping,
    and a zero may be added in. *)
Inductive float_sum : list float → float → Prop :=
  | float_sum_zero z : PrimFloat.eqb z 0 = true → float_sum [] z
  | float_sum_one x : float_sum [x] x
  | float_sum_add l1 l2 x y :
      float_sum l1 x → float_sum l2 y → float_sum (l1 ++ l2) (x + y)%float
  | float_sum_perm l l' x : l ≡ₚ l' → float_sum l x → float_sum l' x.

(** What [np.add.reduce] returns for one column of a float64 stack: the
    values under one index, in the order of the rows, for rows of the given
    shape.  numpy adds them up in binary64; whether from left to right or in
    pairs and blocks, and from which zero, depends on the layout and on the
    release, and is left to the instance. *)
Class numpy_sum := {
  add_reduce : list nat → list float → float;
  add_reduce_sums s column : float_sum column (add_reduce s column)
}.

(** The sum from left to right, starting from [0.0]: numpy's for rows of
    more than one element, and for fewer than eight rows. *)
Definition sum_in_order (column : list float) : float :=
  foldl PrimFloat.add 0%float column.

Definition add_reduce_in_order : numpy_sum.
Proof.
  refine {| add_reduce := λ s column, sum_in_order column |}.
  intros _ column. unfold sum_in_order.
  induction column as [|x column IH] using rev_ind.
  - by constructor.
  - rewrite foldl_app. simpl. apply float_sum_add; [done|constructor].
Defined.

(** ** Arrays *)

Inductive dtype : Type := float16 | float32 | float64.

#[global] Instance dtype_eq_dec : EqDecision dtype.
Proof. solve_decision. Defined.

Record ndarray_of (E : Type) : Type := mk_ndarray {
  arr_dtype : dtype;
  arr_shape : list nat;
  arr_data : list E   (* row-major *)
}.
Arguments mk_ndarray {E} _ _ _.
Arguments arr_dtype {E} _.
Arguments arr_shape {E} _.
Arguments arr_data {E} _.

(** A tensor of weights. *)
Abbreviation ndarray := (ndarray_of float).
(** A tensor of the prediction endpoint. *)
Abbreviation qarray := (ndarray_of Qc).

#[global] Instance ndarray_eq_dec `{EqDecision E} : EqDecision (ndarray_of E).
Proof. solve_decision. Defined.

Definition shape_size (s : list nat) : nat := foldr Nat.mul 1 s.

(** An array holds exactly as many elements as its shape says. *)
Definition wf_array {E} (a : ndarray_of E) : Prop :=
  length (arr_data a) = shape_size (arr_shape a).

#[global] Instance wf_array_dec {E} (a : ndarray_of E) : Decision (wf_array a).
Proof. unfold wf_array. apply _. Defined.

(** [a.astype(t)] for a type [t] at least as wide as that of [a], as in the
    source, which casts to [np.float64]: the values are kept. *)
Definition astype {E} (a : ndarray_of E) (t : dtype) : ndarray_of E :=
  {| arr_dtype := t; arr_shape := arr_shape a; arr_data := arr_data a |}.

Definition dtype_rank (t : dtype) : nat :=
  match t with float16 => 0 | float32 => 1 | float64 => 2 end.

Definition promote_types (t1 t2 : dtype) : dtype :=
  if decide (dtype_rank t1 ≤ dtype_rank t2)%nat then t2 else t1.

(** [np.stack(arrays, axis=0)] *)
Definition np_stack {E} (arrays : list (ndarray_of E)) : exn + ndarray_of E :=
  match arrays with
  | [] => inl (ValueError "need at least one array to stack")
  | a :: rest =>
      if decide (Forall (λ b, arr_shape b = arr_shape a) rest)
      then inr {| arr_dtype := foldr promote_types (arr_dtype a) (arr_dtype <$> rest);
                  arr_shape := length arrays :: arr_shape a;
                  arr_data := concat (arr_data <$> arrays) |}
      else inl StackShapeError
  end.

(** The first [n] rows of [size] elements each of a row-major buffer. *)
Fixpoint chunks {E} (n size : nat) (l : list E) : list (list E) :=
  match n with
  | 0 => []
  | S n' => take size l :: chunks n' size (drop size l)
  end.

(** The float64 mean of one column of [n] rows of shape [s]: numpy's sum of
    the column, divided by the number of rows. *)
Definition float64_mean `{numpy_sum} (s : list nat) (n : nat) (column : list float) : float :=
  (add_reduce s column / float_of_nat n)%float.

(** [np.mean(a, axis=0)] of a float64 array: [np.add.reduce] along the first
    axis, then a true division by the number of rows. *)
Definition np_mean_axis0 `{numpy_sum} (a : ndarray) : exn + ndarray :=
  match arr_shape a with
  | [] => inl AxisError
  | n :: s =>
      let rows := chunks n (shape_size s) (arr_data a) in
      inr {| arr_dtype := arr_dtype a;
             arr_shape := s;
             arr_data := (λ j, float64_mean s n (omap (.!! j) rows)) <$>
                         seq 0 (shape_size s) |}
  end.

(** ** Python dictionaries with string keys *)

Abbreviation pydict V := (list (string * V)).

Fixpoint dict_set {V} (k : string) (v : V) (d : pydict V) : pydict V :=
  match d with
  | [] => [(k, v)]
  | (k', v') :: d' =>
      if decide (k' = k) then (k', v) :: d' else (k', v') :: dict_set k v d'
  end.

Fixpoint dict_get {V} (k : string) (d : pydict V) : option V :=
  match d with
  | [] => None
  | (k', v') :: d' => if decide (k' = k) then Some v' else dict_get k d'
  end.

(** [d[k]] *)
Definition dict_getitem {V} (d : pydict V) (k : string) : exn + V :=
  match dict_get k d with
  | Some v => inr v
  | None => inl (KeyError k)
  end.

(** [list(d.keys())] *)
Definition dict_keys {V} (d : pydict V) : list string := d.*1.

(** A dictionary of tensors, as [np.savez_compressed] takes it. *)
Abbreviation weights := (pydict ndarray).

(** What [data[k]] is for a member of an opened archive: the array of a
    [.npy] member, or the raw bytes of any other member, which the code
    never looks into. *)
Inductive npz_value : Type :=
  | NpArray (a : ndarray)
  | NpBytes.

#[global] Instance npz_value_eq_dec : EqDecision npz_value.
Proof. solve_decision. Defined.

(** A dictionary as [load_npz] returns it. *)
Abbreviation npz_dict := (pydict npz_value).

(** A dictionary of tensors, as it comes out of [load_npz]. *)
Definition as_loaded (d : weights) : npz_dict := prod_map id NpArray <$> d.

(** ** Files *)

(** [model.get_weights()] is all the code reads of a Keras model. *)
Record keras_model : Type := mk_keras_model {
  get_weights : list ndarray
}.

#[global] Instance keras_model_eq_dec : EqDecision keras_model.
Proof. solve_decision. Defined.

#[global] Instance byte_eq_dec' : EqDecision byte := Byte.byte_eq_dec.

Inductive file_data : Type :=
  | NpzData (members : list (string * ndarray))   (* a .npz archive of arrays: the member of key k is named k.npy *)
  | KerasData (model : keras_model)               (* a saved .keras model *)
  | RawData (content : list byte).                (* anything else that is no archive, e.g. a .tflite flatbuffer *)

#[global] Instance file_data_eq_dec : EqDecision file_data.
Proof. solve_decision. Defined.

Record file : Type := mk_file {
  f_data : file_data;
  f_mtime : nat
}.

#[global] Instance file_eq_dec : EqDecision file.
Proof. solve_decision. Defined.

Record fsys : Type := mk_fsys {
  fs_files : gmap string file;
  fs_clock : nat
}.

#[global] Instance fsys_eq_dec : EqDecision fsys.
Proof. solve_decision. Defined.

(** Code that reads and writes files and may raise. *)
Definition io (A : Type) : Type := fsys → (exn + A) * fsys.

#[global] Instance io_ret : MRet io := λ A x fs, (inr x, fs).
#[global] Instance io_bind : MBind io := λ A B f m fs,
  match m fs with
  | (inl e, fs') => (inl e, fs')
  | (inr x, fs') => f x fs'
  end.

Definition raise {A} (e : exn) : io A := λ fs, (inl e, fs).

Definition lift {A} (r : exn + A) : io A := λ fs, (r, fs).

(** [Path(p).exists()] *)
Definition path_exists (p : string) : io bool :=
  λ fs, (inr (bool_decide (is_Some (fs_files fs !! p))), fs).

(** Writing a file stamps it with the clock, which then advances. *)
Definition write_fs (p : string) (d : file_data) (fs : fsys) : fsys :=
  {| fs_files := <[p := {| f_data := d; f_mtime := fs_clock fs |}]> (fs_files fs);
     fs_clock := S (fs_clock fs) |}.

(** How a write ends: it completes; or the file cannot be opened for
    writing, and stays as it was; or the file is opened (and so truncated)
    and the write breaks off, leaving what had reached the disk. *)
Inductive write_result : Type :=
  | Completes
  | CannotOpen
  | Breaks (remains : file_data).

(** What the disk does with a write of this content to this path. *)
Class disk := write_outcome : string → file_data → write_result.

(** The disk on which every write completes. *)
#[global] Instance reliable_disk : disk := λ _ _, Completes.

(** [with open(p, "wb") as f: f.write(...)], and the writes inside
    [model.save] and [np.savez_compressed].  The source writes in place: it
    neither writes to a temporary file first nor rolls anything back. *)
Definition write_file {D : disk} (p : string) (d : file_data) : io () := λ fs,
  match write_outcome p d with
  | Completes => (inr (), write_fs p d fs)
  | CannotOpen => (inl (OSError p), fs)
  | Breaks remains => (inl (OSError p), write_fs p remains fs)
  end.

(** ** numpy's archive reader and writer *)

Definition ends_with (suffix s : string) : bool :=
  bool_decide ((String.length suffix ≤ String.length s)%nat ∧
    String.substring (String.length s - String.length suffix) (String.length suffix) s = suffix).

(** [name.removesuffix(".npy")] *)
Definition strip_npy (name : string) : string :=
  if ends_with ".npy" name
  then String.substring 0 (String.length name - 4) name
  else name.

(** The members of a zip archive that [np.load] has opened, by name. *)
Abbreviation npz_file := (list (string * npz_value)).

(** [data.files]: the member names without their [.npy]. *)
Definition npz_files (data : npz_file) : list string := strip_npy <$> data.*1.

(** [data[key]]: [key] is looked up among the member names first, and only
    then as a name without its [.npy]; the archive's name table keeps the
    last member of a name; an array is read from its member, which fails
    when the data do not fill the recorded shape. *)
Definition npz_getitem (data : npz_file) (key : string) : exn + npz_value :=
  name ← (if decide (key ∈ data.*1) then inr key
          else if decide (key ∈ npz_files data) then inr (key +:+ ".npy")
          else inl (KeyError (key +:+ " is not a file in the archive")));
  v ← dict_getitem (reverse data) name;
  match v with
  | NpArray a =>
      if decide (wf_array a) then inr v
      else inl (ValueError "cannot reshape array")
  | NpBytes => inr v
  end.

(** The members of a [.keras] file, which is a zip archive. *)
Definition keras_members : list string :=
  ["metadata.json"; "config.json"; "model.weights.h5"].

(** [np.load(path, allow_pickle=False)]: any zip archive is opened, a saved
    Keras model included; what is no archive would have to be unpickled,
    which is refused. *)
Definition np_load (path : string) : io npz_file := λ fs,
  match fs_files fs !! path with
  | None => (inl (FileNotFoundError path), fs)
  | Some f =>
      match f_data f with
      | NpzData members =>
          (inr ((λ m, (m.1 +:+ ".npy", NpArray m.2)) <$> members), fs)
      | KerasData model => (inr ((λ name, (name, NpBytes)) <$> keras_members), fs)
      | RawData content => (inl (NpLoadError path), fs)
      end
  end.

(** [np.savez_compressed] appends [.npz] to a name that lacks it. *)
Definition savez_path (file : string) : string :=
  if ends_with ".npz" file then file else file +:+ ".npz".

(** The keyword parameters of [np.savez_compressed(file, *args,
    allow_pickle=True, **kwds)].  (Older releases of numpy have none, and
    store a member of that name.) *)
Definition savez_keywords : list string := ["allow_pickle"].

(** The names a key must not have to be stored as it is. *)
Definition savez_parameters : list string := "file" :: savez_keywords.

(** What is stored of [kwds]: a key named like a keyword parameter is
    taken for that parameter. *)
Definition savez_stored (kwds : weights) : weights :=
  filter (λ kv, kv.1 ∉ savez_keywords) kwds.

Definition savez_clash : exn :=
  TypeError "savez_compressed() got multiple values for argument 'file'".

(** [np.savez_compressed(file, **kwds)]: a key named [file] clashes with
    the first parameter. *)
Definition np_savez_compressed {D : disk} (file : string) (kwds : weights) : io () :=
  if decide ("file" ∈ dict_keys kwds)
  then raise savez_clash
  else write_file (savez_path file) (NpzData (savez_stored kwds)).

(** ** server_aggregate.py *)

Definition GLOBAL_MODEL_KERAS : string := "final_model.keras".
Definition GLOBAL_MODEL_TFLITE : string := "global_model.tflite".

(** [{k: data[k] for k in data.files}] *)
Fixpoint dict_comprehension (data : npz_file) (ks : list string)
    (acc : npz_dict) : exn + npz_dict :=
  match ks with
  | [] => inr acc
  | k :: ks' => v ← npz_getitem data k; dict_comprehension data ks' (dict_set k v acc)
  end.

Definition load_npz (path : string) : io npz_dict :=
  data ← np_load path;
  lift (dict_comprehension data (npz_files data) []).

(** [for d in loaded[1:]: if list(d.keys()) != keys: raise ValueError(...)] *)
Fixpoint check_keys (keys : list string) (rest : list npz_dict) : exn + () :=
  match rest with
  | [] => inr ()
  | d :: rest' =>
      if decide (dict_keys d ≠ keys) then inl KeyMismatch else check_keys keys rest'
  end.

(** [v.astype(np.float64)] *)
Definition npz_astype (v : npz_value) (t : dtype) : exn + ndarray :=
  match v with
  | NpArray a => inr (astype a t)
  | NpBytes => inl (AttributeError "'bytes' object has no attribute 'astype'")
  end.

(** The body of [for k in keys]. *)
Definition average_key `{numpy_sum} (loaded : list npz_dict) (k : string) : exn + ndarray :=
  arrays ← mapM (λ d, v ← dict_getitem d k; npz_astype v float64) loaded;
  stacked ← np_stack arrays;
  np_mean_axis0 stacked.

Fixpoint average_loop `{numpy_sum} (loaded : list npz_dict) (keys : list string)
    (averaged : weights) : exn + weights :=
  match keys with
  | [] => inr averaged
  | k :: keys' =>
      m ← average_key loaded k;
      average_loop loaded keys' (dict_set k m averaged)
  end.

Definition aggregate_npz_files `{numpy_sum} {D : disk}
    (input_paths : list string) (output_path : string) : io string :=
  if decide (input_paths = []) then raise EmptyInput else
  loaded ← mapM load_npz input_paths;
  match loaded with
  | [] => raise IndexError
  | d0 :: rest =>
      let keys := dict_keys d0 in
      _ ← lift (check_keys keys rest);
      averaged ← lift (average_loop loaded keys []);
      _ ← np_savez_compressed output_path averaged;
      mret output_path
  end.

Section conversion.
Context {D : disk}.
(** [TFLiteConverter.from_keras_model(model)] with the default
    optimisations and float16 target, then [convert()]: the serialised
    flatbuffer, or [None] when the converter raises. *)
Variable tflite_convert : keras_model → option (list byte).

(** [tf.keras.models.load_model(path)] *)
Definition load_model (path : string) : io keras_model := λ fs,
  match fs_files fs !! path with
  | None => (inl (KerasLoadError path), fs)
  | Some f =>
      match f_data f with
      | KerasData model => (inr model, fs)
      | _ => (inl (KerasLoadError path), fs)
      end
  end.

(** [model.save(path)] *)
Definition model_save (model : keras_model) (path : string) : io () :=
  write_file path (KerasData model).

Definition keras_federated_averaging (client_weights_list : list npz_dict)
    (global_model_path : string) : io keras_model :=
  if decide (client_weights_list = []) then raise (ValueError "No client weights provided") else
  found ← path_exists global_model_path;
  if negb found
  then raise (FileNotFoundError ("Global model not found: " +:+ global_model_path))
  else
    model ← load_model global_model_path;
    let current_weights := get_weights model in
    (* [if len(client_weights_list) > 0:] only prints; the source keeps
       the model as it is and saves it again *)
    _ ← model_save model global_model_path;
    mret model.

Definition convert_keras_to_tflite (keras_model_path tflite_output_path : string)
    : io string :=
  found ← path_exists keras_model_path;
  if negb found
  then raise (FileNotFoundError ("Keras model not found: " +:+ keras_model_path))
  else
    model ← load_model keras_model_path;
    match tflite_convert model with
    | None => raise ConverterError
    | Some tflite_model =>
        _ ← write_file tflite_output_path (RawData tflite_model);
        mret tflite_output_path
    end.

Definition hybrid_fl_aggregation (input_paths : list string)
    (keras_output_path tflite_output_path : string) : io (string * string) :=
  if decide (input_paths = []) then raise EmptyInput else
  client_weights ← mapM load_npz input_paths;
  model ← keras_federated_averaging client_weights keras_output_path;
  tflite_path ← convert_keras_to_tflite keras_output_path tflite_output_path;
  mret (keras_output_path, tflite_path).
End conversion.

(** ** main.py *)

Inductive pyval : Type :=
  | PyInt (n : Z)
  | PyFloat (x : Qc).

Record http_exception : Type := mk_http_exception {
  status_code : nat;
  detail : string
}.

(** The JSON body of [/model_info]; [model_size_mb] and [server_time] are
    floats of no concern here. *)
Record model_info : Type := mk_model_info {
  model_hash : string;
  model_version : string;
  model_size_bytes : nat;
  last_modified : nat;
  download_url : string
}.

Record file_response : Type := mk_file_response {
  fr_body : list byte;
  fr_media_type : string;
  fr_filename : string;
  fr_headers : pydict string
}.

(** The process state of the server: the module-level [stats] dictionary and
    the file system it runs on. *)
Record server : Type := mk_server {
  stats : gmap string pyval;
  srv_fs : fsys
}.

Section main.
(** [Path(__file__).parent] *)
Variable ROOT : string.
(** [hashlib.sha256(b).hexdigest()] *)
Variable sha256_hexdigest : list byte → string.
(** What [f.read()] returns for a stored archive or Keras model. *)
Variable npz_bytes : list (string * ndarray) → list byte.
Variable keras_bytes : keras_model → list byte.
(** [str(x)] of a float. *)
Variable float_str : Qc → string.

Definition TFLITE_MODEL : string := ROOT +:+ "/modic_model.tflite".

Definition file_bytes (d : file_data) : list byte :=
  match d with
  | NpzData members => npz_bytes members
  | KerasData model => keras_bytes model
  | RawData content => content
  end.

Definition py_str (v : pyval) : string :=
  match v with
  | PyInt n => pretty n
  | PyFloat x => float_str x
  end.

(** [stats = {"total_clients": 0, "server_start_time": time.time()}] *)
Definition initial_stats (now : Qc) : gmap string pyval :=
  {[ "total_clients" := PyInt 0; "server_start_time" := PyFloat now ]}.

Definition get_model_info (s : server) : http_exception + model_info :=
  match fs_files (srv_fs s) !! TFLITE_MODEL with
  | None => inl {| status_code := 404; detail := "No .tflite model available yet." |}
  | Some f =>
      let content := file_bytes (f_data f) in
      let file_hash := sha256_hexdigest content in
      inr {| model_hash := file_hash;
             model_version := py_str (default (PyInt 0) (stats s !! "total_aggregations"));
             model_size_bytes := length content;
             last_modified := f_mtime f;
             download_url := "/get_global_model" |}
  end.

Definition get_global_model (s : server) : http_exception + file_response :=
  match fs_files (srv_fs s) !! TFLITE_MODEL with
  | None =>
      inl {| status_code := 404;
             detail := "No global .tflite model available yet. Run aggregation first." |}
  | Some f =>
      let content := file_bytes (f_data f) in
      let file_hash := sha256_hexdigest content in
      inr {| fr_body := content;
             fr_media_type := "application/octet-stream";
             fr_filename := "modic_model.tflite";
             fr_headers := [("Model-Version", "0");
                            ("Model-Hash", file_hash);
                            ("Model-Size", pretty (length content))] |}
  end.
End main.

(** An aggregation round run beside the server: [hybrid_fl_aggregation] on
    the server's file system.  The function has no access to [stats]. *)
Record round : Type := mk_round {
  round_inputs : list string;
  round_keras_path : string;
  round_tflite_path : string
}.

Definition run_round {D : disk} (tflite_convert : keras_model → option (list byte))
    (r : round) (s : server) : (exn + (string * string)) * server :=
  let '(res, fs') :=
    hybrid_fl_aggregation tflite_convert (round_inputs r) (round_keras_path r)
      (round_tflite_path r) (srv_fs s) in
  (res, {| stats := stats s; srv_fs := fs' |}).

(** Runs the rounds in turn; returns how many succeeded and the last state. *)
Fixpoint run_rounds {D : disk} (tflite_convert : keras_model → option (list byte))
    (rs : list round) (s : server) : nat * server :=
  match rs with
  | [] => (0, s)
  | r :: rs' =>
      let '(res, s') := run_round tflite_convert r s in
      let '(k, s'') := run_rounds tflite_convert rs' s' in
      ((if res is inr _ then S k else k), s'')
  end.

(** ** test_client.py *)

(** [np.savez_compressed(filepath, **weights)] *)
Definition save_weights_to_npz {D : disk} (weights : weights) (filepath : string) : io () :=
  np_savez_compressed filepath weights.

(** [with np.load(filepath) as data: return {k: data[k] for k in data.files}] *)
Definition load_weights_from_npz (filepath : string) : io npz_dict :=
  data ← np_load filepath;
  lift (dict_comprehension data (npz_files data) []).

(** ** Rounds with the default output paths *)

(** [hybrid_fl_aggregation(input_paths)]: the output paths default to
    [GLOBAL_MODEL_KERAS] and [GLOBAL_MODEL_TFLITE]. *)
Definition default_round (input_paths : list string) : round :=
  {| round_inputs := input_paths;
     round_keras_path := GLOBAL_MODEL_KERAS;
     round_tflite_path := GLOBAL_MODEL_TFLITE |}.

(** ** setup_production_models.py *)

(** [try: body except Exception as e: handler(e)] *)
Definition try_except {A} (body : io A) (handler : exn → io A) : io A := λ fs,
  match body fs with
  | (inl e, fs') => handler e fs'
  | (inr x, fs') => (inr x, fs')
  end.

(** The file system after [f] has been copied to [dst]: the copy keeps the
    modification time of [f], and nothing is written through [write_fs]. *)
Definition copy_fs (dst : string) (f : file) (fs : fsys) : fsys :=
  {| fs_files := <[dst := f]> (fs_files fs); fs_clock := fs_clock fs |}.

(** [shutil.copy2(src, dst)]: the content and the modification time of
    [src] go to [dst].  Copying a file onto itself raises
    [shutil.SameFileError], for which [exn] has no constructor of its own;
    the callers here catch every exception, so it is raised as a
    [ValueError] with shutil's message. *)
Definition copy2 (src dst : string) : io () := λ fs,
  match fs_files fs !! src with
  | None => (inl (FileNotFoundError src), fs)
  | Some f =>
      if decide (src = dst)
      then (inl (ValueError (src +:+ " and " +:+ dst +:+ " are the same file")), fs)
      else (inr (), copy_fs dst f fs)
  end.

(** [d.mkdir(parents=True, exist_ok=True)]: the file system of the model
    has no directories to create. *)
Definition mkdir (dir : string) : io () := mret ().

Section setup.
Context {D : disk}.
(** [Path(__file__).parent.parent] and the name of the script's directory. *)
Variable BACKEND_PARENT : string.
Variable BACKEND_NAME : string.
Variable tflite_convert : keras_model → option (list byte).

Definition BACKEND_DIR : string := BACKEND_PARENT +:+ "/" +:+ BACKEND_NAME.
Definition APP_ASSETS_DIR : string := BACKEND_PARENT +:+ "/app/src/main/assets".
Definition KERAS_MODEL_PATH : string := BACKEND_DIR +:+ "/final_model.keras".
Definition TFLITE_MODEL_PATH : string := BACKEND_DIR +:+ "/global_model.tflite".
Definition CLIENT_MODEL_PATH : string := APP_ASSETS_DIR +:+ "/modic_model.tflite".

(** [CLIENT_MODEL_PATH.with_suffix('.tflite.backup')] *)
Definition backup_path : string := APP_ASSETS_DIR +:+ "/modic_model.tflite.backup".

Definition initialize_global_tflite : io bool :=
  try_except
    (tflite_path ← convert_keras_to_tflite tflite_convert KERAS_MODEL_PATH TFLITE_MODEL_PATH;
     mret true)
    (λ e, mret false).

Definition sync_client_model : io bool :=
  found ← path_exists TFLITE_MODEL_PATH;
  if negb found then mret false else
  try_except
    (client_found ← path_exists CLIENT_MODEL_PATH;
     backup_found ← path_exists backup_path;
     _ ← (if client_found && negb backup_found
          then copy2 CLIENT_MODEL_PATH backup_path
          else mret ());
     _ ← mkdir APP_ASSETS_DIR;
     _ ← copy2 TFLITE_MODEL_PATH CLIENT_MODEL_PATH;
     mret true)
    (λ e, mret false).
End setup.

(** ** main.py: start-up, [/predict], [/status], [/] and [/health] *)

(** What the code uses of a [tf.lite.Interpreter]: the tensor indices of
    its input and output details, and what [get_tensor] returns after the
    given [set_tensor] calls and [invoke()] ([inl]: one of them raised). *)
Record tflite_interpreter : Type := mk_tflite_interpreter {
  input_details : list nat;
  output_details : list nat;
  invoke : list (nat * qarray) → string + (nat → string + qarray)
}.

(** The module-level state: [tf_available], [prediction_interpreter], and
    [stats] with the file system. *)
Record app_state : Type := mk_app_state {
  tf_available : bool;
  prediction_interpreter : option tflite_interpreter;
  app_server : server
}.

(** A FastAPI [UploadFile]. *)
Record upload_file : Type := mk_upload_file {
  content_type : option string;
  filename : option string;
  upload_content : list byte
}.

(** Whatever is raised inside the [try] of [predict]. *)
Inductive raised : Type :=
  | RaisedHTTP (e : http_exception)
  | RaisedExn (e : exn)
  | RaisedOther (description : string).

#[global] Instance raised_ret : MRet (sum raised) := λ A x, inr x.
#[global] Instance raised_bind : MBind (sum raised) := λ A B f m,
  match m with inl e => inl e | inr x => f x end.

(** The JSON body of a prediction; [processing_time_ms] is wall-clock time. *)
Record prediction_result : Type := mk_prediction_result {
  prediction : Qc;
  label : string;
  confidence : Qc;
  detailed_no_modic : Qc;
  detailed_modic : Qc;
  prediction_model_version : string;
  input_file_t1 : option string;
  input_file_t2 : option string
}.

(** The JSON body of [/status]; [uptime_hours] and [tflite_model_size_mb]
    are rounded floats. *)
Record status_body : Type := mk_status_body {
  status_status : string;
  status_architecture : string;
  status_version : string;
  status_tflite_model_exists : bool;
  status_total_clients : pyval;
  status_models_ready : bool
}.

(** The JSON body of [/health]; [timestamp] is wall-clock time and the
    shapes of [model_info] are printed numpy arrays. *)
Record health_body : Type := mk_health_body {
  health_status : string;
  health_tensorflow_available : bool;
  health_tflite_model_file : bool;
  health_prediction_model_loaded : bool;
  health_storage_dirs : bool;
  health_input_count : option nat
}.

(** [np.expand_dims(a, axis=0)] *)
Definition np_expand_dims0 (a : qarray) : qarray :=
  {| arr_dtype := arr_dtype a; arr_shape := 1 :: arr_shape a; arr_data := arr_data a |}.

(** [a / 255.0] *)
Definition np_divide_scalar (a : qarray) (c : Qc) : qarray :=
  {| arr_dtype := arr_dtype a; arr_shape := arr_shape a;
     arr_data := (λ x, x / c)%Qc <$> arr_data a |}.

(** [a[i]] along the first axis. *)
Definition np_index0 (a : qarray) (i : nat) : raised + qarray :=
  match arr_shape a with
  | [] => inl (RaisedOther "too many indices for array")
  | n :: s =>
      if decide (i < n)%nat
      then inr {| arr_dtype := arr_dtype a; arr_shape := s;
                  arr_data := take (shape_size s) (drop (i * shape_size s) (arr_data a)) |}
      else inl (RaisedOther "index out of bounds")
  end.

(** [float(a)]: only an array of one element converts. *)
Definition np_float (a : qarray) : raised + Qc :=
  match arr_data a with
  | [x] => inr x
  | _ => inl (RaisedOther "only size-1 arrays can be converted to Python scalars")
  end.

(** [l[i]] of a Python list. *)
Definition list_getitem {A} (l : list A) (i : nat) : raised + A :=
  match l !! i with
  | Some x => inr x
  | None => inl (RaisedOther "list index out of range")
  end.

Definition lift_string {A} (r : string + A) : raised + A :=
  match r with inl d => inl (RaisedOther d) | inr x => inr x end.

Definition lift_exn {A} (r : exn + A) : raised + A :=
  match r with inl e => inl (RaisedExn e) | inr x => inr x end.

Section app.
Variable ROOT : string.
Variable float_str : Qc → string.
(** [tf.lite.Interpreter(model_path=...)] with [allocate_tensors()], on the
    bytes of the model file; [None] when it raises. *)
Variable load_interpreter : list byte → option tflite_interpreter.
Variable npz_bytes : list (string * ndarray) → list byte.
Variable keras_bytes : keras_model → list byte.
(** PIL: [Image.open(io.BytesIO(b)).convert('RGB')], [img.resize((224, 224))]
    and [np.array(img, dtype=np.float32)]. *)
Variable image : Type.
Variable image_open_rgb : list byte → string + image.
Variable image_resize : image → string + image.
Variable image_array : image → qarray.
(** [str(e)] of what was raised. *)
Variable exception_str : raised → string.

(** The import of the module: [tf_import_ok] tells whether
    [import tensorflow] succeeded. *)
Definition startup (tf_import_ok : bool) (now : Qc) (fs : fsys) : exn + app_state :=
  match fs_files fs !! TFLITE_MODEL ROOT with
  | None =>
      inl (FileNotFoundError ("Required TFLite model not found: " +:+ TFLITE_MODEL ROOT))
  | Some f =>
      inr {| tf_available := tf_import_ok;
             prediction_interpreter :=
               if tf_import_ok
               then load_interpreter (file_bytes npz_bytes keras_bytes (f_data f))
               else None;
             app_server := {| stats := initial_stats now; srv_fs := fs |} |}
  end.

(** [s.startswith('image/')] on a content type that may be [None]. *)
Definition check_image (content_type : option string) (detail : string) : raised + () :=
  match content_type with
  | None => inl (RaisedOther "'NoneType' object has no attribute 'startswith'")
  | Some t =>
      if negb (String.prefix "image/" t)
      then inl (RaisedHTTP {| status_code := 400; detail := detail |})
      else inr ()
  end.

(** The body of the [try] of [predict]. *)
Definition predict_body (file_t1 file_t2 : upload_file)
    (interpreter : tflite_interpreter) (s : server) : raised + prediction_result :=
  _ ← check_image (content_type file_t1) "T1 file must be an image";
  _ ← check_image (content_type file_t2) "T2 file must be an image";
  let t1_bytes := upload_content file_t1 in
  let t2_bytes := upload_content file_t2 in
  t1_image ← lift_string (image_open_rgb t1_bytes);
  t2_image ← lift_string (image_open_rgb t2_bytes);
  t1_resized ← lift_string (image_resize t1_image);
  t2_resized ← lift_string (image_resize t2_image);
  let t1_array := np_divide_scalar (image_array t1_resized) (Qc_of_Z 255) in
  let t2_array := np_divide_scalar (image_array t2_resized) (Qc_of_Z 255) in
  let input_details := input_details interpreter in
  let output_details := output_details interpreter in
  tensors ←
    (if decide (length input_details = 2)
     then
       let t1_batch := np_expand_dims0 t1_array in
       let t2_batch := np_expand_dims0 t2_array in
       i0 ← list_getitem input_details 0;
       i1 ← list_getitem input_details 1;
       mret [(i0, t1_batch); (i1, t2_batch)]
     else
       stacked ← lift_exn (np_stack [t1_array; t2_array]);
       let input_batch := np_expand_dims0 stacked in
       i0 ← list_getitem input_details 0;
       mret [(i0, input_batch)]);
  get_tensor ← lift_string (invoke interpreter tensors);
  o0 ← list_getitem output_details 0;
  out ← lift_string (get_tensor o0);
  output ← np_index0 out 0;
  no_modic_score ← np_index0 output 0 ≫= np_float;
  modic_score ← np_index0 output 1 ≫= np_float;
  let '(label, confidence) :=
    if decide (no_modic_score < modic_score)%Qc
    then ("Modic", modic_score)
    else ("No Modic", no_modic_score) in
  mret {| prediction := confidence;
          label := label;
          confidence := confidence;
          detailed_no_modic := no_modic_score;
          detailed_modic := modic_score;
          prediction_model_version :=
            py_str float_str (default (PyInt 0) (stats s !! "total_aggregations"));
          input_file_t1 := filename file_t1;
          input_file_t2 := filename file_t2 |}.

Definition predict (file_t1 file_t2 : upload_file) (app : app_state)
    : http_exception + prediction_result :=
  if negb (tf_available app)
  then inl {| status_code := 503; detail := "TensorFlow not available on server" |}
  else
    match prediction_interpreter app with
    | None =>
        inl {| status_code := 503; detail := "Prediction model not loaded on server" |}
    | Some interpreter =>
        match predict_body file_t1 file_t2 interpreter (app_server app) with
        | inr result => inr result
        | inl e =>
            inl {| status_code := 500;
                   detail := "Prediction failed: " +:+ exception_str e |}
        end
    end.

Definition status (app : app_state) : exn + status_body :=
  let exists_ := bool_decide (is_Some (fs_files (srv_fs (app_server app)) !! TFLITE_MODEL ROOT)) in
  match stats (app_server app) !! "total_clients" with
  | None => inl (KeyError "total_clients")
  | Some total_clients =>
      inr {| status_status := "operational";
             status_architecture := "tflite_only";
             status_version := "2.3";
             status_tflite_model_exists := exists_;
             status_total_clients := total_clients;
             status_models_ready := exists_ |}
  end.

Definition health_check (app : app_state) : health_body :=
  let tflite_ok := bool_decide (is_Some (fs_files (srv_fs (app_server app)) !! TFLITE_MODEL ROOT)) in
  let storage_ok := true in
  let model_loaded := bool_decide (is_Some (prediction_interpreter app)) in
  {| health_status :=
       if tflite_ok && storage_ok && tf_available app && model_loaded
       then "healthy" else "unhealthy";
     health_tensorflow_available := tf_available app;
     health_tflite_model_file := tflite_ok;
     health_prediction_model_loaded := model_loaded;
     health_storage_dirs := storage_ok;
     health_input_count :=
       if tf_available app
       then (λ i, length (input_details i)) <$> prediction_interpreter app
       else None |}.

(** [root()["features"]["online_inference"]]; the rest of the body is
    constant. *)
Definition root_online_inference (app : app_state) : bool :=
  tf_available app && bool_decide (is_Some (prediction_interpreter app)).
End app.

(** ** The specification's reading of the aggregate *)

(** Element [i] of the tensor under key [k] in each of the loaded files. *)
Definition column (loaded : list weights) (k : string) (i : nat) : list float :=
  omap (λ d, a ← dict_get k d; arr_data a !! i) loaded.

(** What [load_npz] returns on a file system, which it leaves as it is. *)
Definition read_npz (fs : fsys) (path : string) : exn + npz_dict :=
  (load_npz path fs).1.

(** The files at [paths] are all readable archives of arrays, with these
    contents. *)
Definition readable (fs : fsys) (paths : list string) (loaded : list weights) : Prop :=
  Forall2 (λ p d, read_npz fs p = inr (as_loaded d)) paths loaded.

(** Every file lists the same keys in the same order. *)
Definition same_keys (loaded : list weights) : Prop :=
  ∀ d1 d2, d1 ∈ loaded → d2 ∈ loaded → dict_keys d1 = dict_keys d2.

(** Under every key, the tensors of all files have one shape. *)
Definition same_shapes (loaded : list weights) : Prop :=
  ∀ k d1 d2 a1 a2, d1 ∈ loaded → d2 ∈ loaded →
    dict_get k d1 = Some a1 → dict_get k d2 = Some a2 → arr_shape a1 = arr_shape a2.

(** Two files whose tensors under one key differ in shape. *)
Definition shapes_differ (loaded : list weights) : Prop :=
  ∃ k d1 d2 a1 a2, d1 ∈ loaded ∧ d2 ∈ loaded ∧
    dict_get k d1 = Some a1 ∧ dict_get k d2 = Some a2 ∧ arr_shape a1 ≠ arr_shape a2.

(** No key of a file is the name of a parameter of [np.savez_compressed]. *)
Definition storable_keys (loaded : list weights) : Prop :=
  ∀ d k, d ∈ loaded → k ∈ dict_keys d → k ∉ savez_parameters.

(** No key is another key followed by [.npy]. *)
Definition plain_keys (ks : list string) : Prop :=
  ∀ k, k ∈ ks → k +:+ ".npy" ∉ ks.

(** What [data[k]] can be: an array that fills its shape, or bytes. *)
Definition npz_ok (v : npz_value) : Prop :=
  match v with NpArray a => wf_array a | NpBytes => True end.

(** The archive of arrays [members], as [np.load] opens it. *)
Definition opened (members : list (string * ndarray)) : npz_file :=
  (λ m, (m.1 +:+ ".npy", NpArray m.2)) <$> members.

(** The arrays of a loaded archive, members that are no arrays left out. *)
Definition arrays_of (d : npz_dict) : weights :=
  omap (λ kv, match kv.2 with NpArray a => Some (kv.1, a) | NpBytes => None end) d.

(** The arrays under key [k], in file order, when every file has the key. *)
Definition arrays_at (loaded : list weights) (k : string) (arrs : list ndarray) : Prop :=
  Forall2 (λ d a, dict_get k d = Some a) loaded arrs.

(** The float64 array of shape [s] holding the column-wise means of [rows]. *)
Definition mean_rows `{numpy_sum} (s : list nat) (rows : list (list float)) : ndarray :=
  {| arr_dtype := float64;
     arr_shape := s;
     arr_data := (λ j, float64_mean s (length rows) (omap (.!! j) rows)) <$>
                 seq 0 (shape_size s) |}.

(** An exception of the steps that come before anything is saved: it is
    neither the converter's nor that of a write. *)
Definition raised_before_saving (e : exn) : Prop :=
  e ≠ ConverterError ∧ ∀ p, e ≠ OSError p.

(** ** A small deployment, for the examples *)

Definition tensor (t : dtype) (shape : list nat) (values : list Z) : ndarray :=
  {| arr_dtype := t; arr_shape := shape; arr_data := float_of_Z <$> values |}.

(** The three clients of the specification's scenario, a client whose
    tensor has another shape, and two clients that list the same two keys
    in different orders. *)
Definition weights_a : weights := [("w", tensor float32 [2] [1; 2]%Z)].
Definition weights_b : weights := [("w", tensor float32 [2] [3; 4]%Z)].
Definition weights_c : weights := [("w", tensor float32 [2] [5; 6]%Z)].
Definition weights_wide : weights := [("w", tensor float32 [3] [3; 4; 5]%Z)].
Definition weights_wb : weights :=
  [("w", tensor float32 [1] [1]%Z); ("b", tensor float32 [1] [2]%Z)].
Definition weights_bw : weights :=
  [("b", tensor float32 [1] [4]%Z); ("w", tensor float32 [1] [3]%Z)].

Definition previous_model : keras_model :=
  {| get_weights := [tensor float32 [2] [0; 0]%Z] |}.

Definition example_root : string := "/srv".

Definition example_fs : fsys :=
  {| fs_files :=
       {[ "a.npz" := {| f_data := NpzData weights_a; f_mtime := 0 |};
          "b.npz" := {| f_data := NpzData weights_b; f_mtime := 0 |};
          "c.npz" := {| f_data := NpzData weights_c; f_mtime := 0 |};
          "wide.npz" := {| f_data := NpzData weights_wide; f_mtime := 0 |};
          "wb.npz" := {| f_data := NpzData weights_wb; f_mtime := 0 |};
          "bw.npz" := {| f_data := NpzData weights_bw; f_mtime := 0 |};
          GLOBAL_MODEL_KERAS := {| f_data := KerasData previous_model; f_mtime := 0 |};
          GLOBAL_MODEL_TFLITE := {| f_data := RawData [x01; x02]; f_mtime := 0 |};
          TFLITE_MODEL example_root := {| f_data := RawData [x0a; x0b; x0c]; f_mtime := 0 |} ]};
     fs_clock := 1 |}.

Definition example_server : server :=
  {| stats := initial_stats (Qc_of_Z 1700000000); srv_fs := example_fs |}.

(** A converter that always succeeds, one that always fails, and stand-ins
    for the digest and the serialisers in the examples. *)
Definition convert_ok (model : keras_model) : option (list byte) := Some [x54; x46; x4c].
Definition convert_fails (model : keras_model) : option (list byte) := None.
Definition toy_digest (content : list byte) : string := pretty (length content).
Definition toy_npz_bytes (members : list (string * ndarray)) : list byte := [].
Definition toy_keras_bytes (model : keras_model) : list byte := [].
Definition toy_float_str (x : Qc) : string := "float".

Definition example_round : round :=
  {| round_inputs := ["a.npz"; "b.npz"];
     round_keras_path := GLOBAL_MODEL_KERAS;
     round_tflite_path := GLOBAL_MODEL_TFLITE |}.

(** ** A checkout and a prediction service, for the examples *)

Definition example_parent : string := "/repo".
Definition example_backend : string := "backend".

(** A checkout that holds the Keras model only, the same after the
    conversion, and the same again with a model in the app's assets. *)
Definition setup_fs : fsys :=
  {| fs_files :=
       {[ KERAS_MODEL_PATH example_parent example_backend :=
            {| f_data := KerasData previous_model; f_mtime := 0 |} ]};
     fs_clock := 1 |}.

Definition setup_fs_converted : fsys :=
  write_fs (TFLITE_MODEL_PATH example_parent example_backend) (RawData [x54; x46; x4c])
    setup_fs.

Definition setup_fs_with_client : fsys :=
  write_fs (CLIENT_MODEL_PATH example_parent) (RawData [x0a; x0b; x0c]) setup_fs_converted.

(** Images as their bytes, one pixel value per byte. *)
Definition toy_image : Type := list byte.

Definition toy_image_open_rgb (content : list byte) : string + toy_image :=
  match content with
  | [] => inl "cannot identify image file"
  | _ => inr content
  end.

Definition toy_image_resize (img : toy_image) : string + toy_image := inr img.

Definition toy_image_array (img : toy_image) : qarray :=
  {| arr_dtype := float32;
     arr_shape := [length img];
     arr_data := (λ b, Qc_of_Z (Z.of_N (Byte.to_N b))) <$> img |}.

Definition toy_exception_str (e : raised) : string :=
  match e with
  | RaisedHTTP e => detail e
  | RaisedExn _ => "error"
  | RaisedOther description => description
  end.

(** An interpreter with two inputs whose output tensor is always
    [[0.25, 0.75]]. *)
Definition toy_interpreter : tflite_interpreter :=
  {| input_details := [0; 1]%nat;
     output_details := [2]%nat;
     invoke := λ tensors,
       inr (λ index,
         if decide (index = 2)%nat
         then inr {| arr_dtype := float32; arr_shape := [1; 2]%nat;
                     arr_data := [Q2Qc (1 # 4); Q2Qc (3 # 4)] |}
         else inl "invalid tensor index") |}.

Definition example_scan (name : string) : upload_file :=
  {| content_type := Some "image/png"; filename := Some name; upload_content := [x80; xff] |}.

Definition example_document : upload_file :=
  {| content_type := Some "application/pdf";
     filename := Some "report.pdf";
     upload_content := [x25; x50; x44; x46] |}.

Definition example_app : app_state :=
  {| tf_available := true;
     prediction_interpreter := Some toy_interpreter;
     app_server := example_server |}.

(** ** Further files, for the examples on numbers and names *)

Definition tensor64 (shape : list nat) (values : list float) : ndarray :=
  {| arr_dtype := float64; arr_shape := shape; arr_data := values |}.

(** Three clients whose values cancel, a client that holds the float64
    nearest to 0.1, two clients whose values are the largest power of two
    and its opposite, a client with a member named [file], and one whose
    member names end in [.npy]. *)
Definition weights_big : weights := [("w", tensor float64 [1] [10000000000000000]%Z)].
Definition weights_one : weights := [("w", tensor float64 [1] [1]%Z)].
Definition weights_minus_big : weights := [("w", tensor float64 [1] [-10000000000000000]%Z)].
Definition weights_tenth : weights := [("w", tensor64 [1] [0x1.999999999999ap-4%float])].
Definition weights_huge : weights := [("w", tensor64 [1] [0x1p1023%float])].
Definition weights_minus_huge : weights := [("w", tensor64 [1] [(-0x1p1023)%float])].
Definition weights_named_file : weights := [("file", tensor float32 [1] [1]%Z)].
Definition weights_npy_names : weights :=
  [("w", tensor float32 [1] [1]%Z); ("w.npy", tensor float32 [1] [2]%Z);
   ("w.npy.npy", tensor float32 [1] [3]%Z)].

Definition numbers_fs : fsys :=
  {| fs_files :=
       {[ "big.npz" := {| f_data := NpzData weights_big; f_mtime := 0 |};
          "one.npz" := {| f_data := NpzData weights_one; f_mtime := 0 |};
          "minus_big.npz" := {| f_data := NpzData weights_minus_big; f_mtime := 0 |};
          "tenth.npz" := {| f_data := NpzData weights_tenth; f_mtime := 0 |};
          "huge.npz" := {| f_data := NpzData weights_huge; f_mtime := 0 |};
          "minus_huge.npz" := {| f_data := NpzData weights_minus_huge; f_mtime := 0 |};
          "named_file.npz" := {| f_data := NpzData weights_named_file; f_mtime := 0 |};
          "npy_names.npz" := {| f_data := NpzData weights_npy_names; f_mtime := 0 |} ]};
     fs_clock := 1 |}.

(** A disk on which the write of the inference model breaks off at once. *)
Definition full_disk : disk :=
  λ p d, if decide (p = GLOBAL_MODEL_TFLITE) then Breaks (RawData []) else Completes.

(** * Properties *)

(** ** The two monads *)

Lemma result_bind_inr {A B} (f : A → exn + B) (m : exn + A) (y : B) :
  m ≫= f = inr y ↔ ∃ x, m = inr x ∧ f x = inr y.
Proof.
  destruct m as [e|x]; simpl.
  - split; [done | by intros (? & ? & ?)].
  - split; [eauto | by intros (? & [= ->] & ?)].
Qed.

Lemma mapM_inr {A B} (f : A → exn + B) (l : list A) (k : list B) :
  mapM f l = inr k ↔ Forall2 (λ x y, f x = inr y) l k.
Proof.
  revert k. induction l as [|x l IH]; intros k; simpl.
  - split; [intros [= <-]; constructor | by inversion 1].
  - split.
    + intros (y & Hy & (k' & Hk' & [= <-])%result_bind_inr)%result_bind_inr.
      constructor; [done | by apply IH].
    + inversion 1 as [|? y ? k' Hy Hk']; subst.
      apply IH in Hk'. cbn. rewrite Hy. cbn. by rewrite Hk'.
Qed.

Lemma load_npz_pure (fs : fsys) (path : string) :
  load_npz path fs = (read_npz fs path, fs).
Proof.
  unfold read_npz, load_npz, mbind, io_bind, np_load, lift.
  by destruct (fs_files fs !! path) as [[[members| |] ?]|].
Qed.

Lemma mapM_cons `{MBind M, MRet M} {A B} (f : A → M B) (x : A) (l : list A) :
  mapM f (x :: l) = y ← f x; k ← mapM f l; mret (y :: k).
Proof. done. Qed.

Lemma io_bind_run {A B} (f : A → io B) (m : io A) (fs : fsys) :
  (m ≫= f) fs =
  match m fs with
  | (inl e, fs') => (inl e, fs')
  | (inr x, fs') => f x fs'
  end.
Proof. done. Qed.

Lemma mapM_load_npz (fs : fsys) (paths : list string) :
  mapM load_npz paths fs = (mapM (read_npz fs) paths, fs).
Proof.
  induction paths as [|p paths IH]; [done|].
  rewrite !mapM_cons, io_bind_run, load_npz_pure.
  destruct (read_npz fs p) as [e|d]; [done|].
  rewrite io_bind_run, IH. simpl.
  by destruct (mapM (read_npz fs) paths).
Qed.

(** ** Dictionaries *)

Section dict.
Context {V : Type}.
Implicit Types (d : pydict V) (k : string) (v : V).

Lemma dict_get_set_eq k v d : dict_get k (dict_set k v d) = Some v.
Proof.
  induction d as [|[k' v'] d IH]; simpl.
  - by rewrite decide_True.
  - case_decide; simpl; [by rewrite decide_True | by rewrite decide_False].
Qed.

Lemma dict_get_set_ne k k' v d :
  k ≠ k' → dict_get k' (dict_set k v d) = dict_get k' d.
Proof.
  intros Hne. induction d as [|[k0 v0] d IH]; simpl.
  - by rewrite decide_False.
  - case_decide; simpl.
    + subst k0. by rewrite !decide_False.
    + by rewrite IH.
Qed.

Lemma dict_keys_set k v d :
  dict_keys (dict_set k v d) =
  if decide (k ∈ dict_keys d) then dict_keys d else dict_keys d ++ [k].
Proof.
  unfold dict_keys. induction d as [|[k' v'] d IH]; csimpl; [done|].
  destruct (decide (k' = k)) as [->|Hk]; csimpl.
  - rewrite decide_True; [done | by left].
  - rewrite IH. destruct (decide (k ∈ d.*1)) as [Hin|Hin].
    + rewrite decide_True; [done | by right].
    + rewrite decide_False; [done|]. by intros [->|?]%elem_of_cons.
Qed.

Lemma dict_get_Some_elem k v d : dict_get k d = Some v → (k, v) ∈ d.
Proof.
  induction d as [|[k' v'] d IH]; simpl; [done|].
  case_decide; [intros [= ->]; subst; by left | right; auto].
Qed.

Lemma dict_get_is_Some k d : is_Some (dict_get k d) ↔ k ∈ dict_keys d.
Proof.
  unfold dict_keys. induction d as [|[k' v'] d IH]; csimpl.
  - split; [by intros [? ?] | by intros ?%elem_of_nil].
  - destruct (decide (k' = k)) as [->|Hk].
    + split; [by left | eauto].
    + rewrite IH. split; [by right | by intros [->|?]%elem_of_cons].
Qed.

Lemma dict_set_NoDup k v d : NoDup (dict_keys d) → NoDup (dict_keys (dict_set k v d)).
Proof.
  intros Hd. rewrite dict_keys_set. case_decide; [done|].
  apply NoDup_app. split_and!; [done| |apply NoDup_singleton].
  by intros k' ? ->%list_elem_of_singleton.
Qed.

Lemma dict_set_values (P : V → Prop) k v d :
  P v → Forall (λ kv, P kv.2) d → Forall (λ kv, P kv.2) (dict_set k v d).
Proof.
  intros Hv. induction 1 as [|[k' v'] d Hk Hd IH]; simpl.
  - by repeat constructor.
  - case_decide; constructor; auto.
Qed.

Lemma dict_get_NoDup d k v :
  NoDup (dict_keys d) → (k, v) ∈ d → dict_get k d = Some v.
Proof.
  unfold dict_keys. induction d as [|[k' v'] d IH]; csimpl; intros Hnd Hin.
  - by apply elem_of_nil in Hin.
  - apply NoDup_cons in Hnd as [Hk' Hnd].
    apply elem_of_cons in Hin as [[= -> ->]|Hin]; [by rewrite decide_True|].
    rewrite decide_False; [by apply IH|].
    intros ->. apply Hk'. apply list_elem_of_fmap. by exists (k, v).
Qed.

Lemma dict_set_fresh d k v :
  k ∉ dict_keys d → dict_set k v d = d ++ [(k, v)].
Proof.
  unfold dict_keys. induction d as [|[k' v'] d IH]; csimpl; intros Hk; [done|].
  apply not_elem_of_cons in Hk as [Hne Hk].
  rewrite decide_False by done. by rewrite IH.
Qed.

Lemma dict_get_filter (P : string → Prop) `{∀ k, Decision (P k)} d k :
  dict_get k (filter (λ kv, P kv.1) d) = if decide (P k) then dict_get k d else None.
Proof.
  induction d as [|[k' v'] d IH]; [by destruct (decide (P k))|].
  rewrite filter_cons. simpl. destruct (decide (P k')) as [Hk'|Hk']; simpl.
  - destruct (decide (k' = k)) as [->|Hne]; [by rewrite decide_True|done].
  - rewrite IH. destruct (decide (k' = k)) as [->|Hne]; [|done].
    by rewrite !decide_False by done.
Qed.

Lemma dict_keys_filter (P : string → Prop) `{∀ k, Decision (P k)} d :
  dict_keys (filter (λ kv, P kv.1) d) = filter P (dict_keys d).
Proof.
  unfold dict_keys. induction d as [|[k' v'] d IH]; [done|].
  rewrite filter_cons. csimpl. rewrite filter_cons.
  destruct (decide (P k')); csimpl; by rewrite IH.
Qed.
End dict.

Lemma dict_get_fmap {V W} (g : V → W) (d : pydict V) (k : string) :
  dict_get k (prod_map id g <$> d) = g <$> dict_get k d.
Proof.
  induction d as [|[k' v'] d IH]; csimpl; [done|]. by case_decide.
Qed.

Lemma dict_keys_fmap {V W} (g : V → W) (d : pydict V) :
  dict_keys (prod_map id g <$> d) = dict_keys d.
Proof.
  unfold dict_keys. rewrite <-list_fmap_compose. by apply list_fmap_ext; intros ? [? ?].
Qed.

Lemma dict_get_as_loaded (d : weights) (k : string) :
  dict_get k (as_loaded d) = NpArray <$> dict_get k d.
Proof. apply dict_get_fmap. Qed.

Lemma dict_keys_as_loaded (d : weights) : dict_keys (as_loaded d) = dict_keys d.
Proof. apply dict_keys_fmap. Qed.

Lemma as_loaded_inj (d1 d2 : weights) : as_loaded d1 = as_loaded d2 → d1 = d2.
Proof.
  unfold as_loaded. revert d2.
  induction d1 as [|[k1 a1] d1 IH]; intros [|[k2 a2] d2]; csimpl; try done.
  intros [= -> -> Hd]. f_equal. by apply IH.
Qed.

(** ** Floats *)

Lemma Prim2SF_inj (x y : float) : Prim2SF x = Prim2SF y → x = y.
Proof. intros H. rewrite <-(SF2Prim_Prim2SF x), <-(SF2Prim_Prim2SF y). by f_equal. Qed.

Lemma div_eucl_exact (a b : Z) : (0 < b)%Z → Z.div_eucl (a * b) b = (a, 0%Z).
Proof.
  intros Hb.
  pose proof (Z.div_mul a b ltac:(lia)) as Hq.
  pose proof (Z.mod_mul a b ltac:(lia)) as Hr.
  unfold Z.div, Z.modulo in Hq, Hr.
  destruct (Z.div_eucl (a * b) b) as [q r]. simpl in *. congruence.
Qed.

(** Dividing a finite float by one gives it back: the quotient of the
    mantissas is exact and nothing is rounded. *)
Lemma SF64div_one s m e :
  valid_binary (S754_finite s m e) = true →
  SF64div (S754_finite s m e) (Prim2SF 1%float) = S754_finite s m e.
Proof.
  intros Hv.
  change (Prim2SF 1%float) with (S754_finite false 4503599627370496 (-52)).
  unfold valid_binary, bounded, canonical_mantissa in Hv.
  apply andb_prop in Hv as [Hc He].
  apply Z.eqb_eq in Hc. apply Z.leb_le in He.
  unfold fexp, emin in Hc. change prec with 53%Z in *. change emax with 1024%Z in *.
  assert (Hd : (0 < Z.pos (digits2_pos m))%Z) by lia.
  assert (Hs : xorb s false = s) by (by destruct s).
  assert (Hcase : (Z.pos (digits2_pos m) = 53 ∧ -1074 < e)%Z ∨ e = (-1074)%Z) by lia.
  unfold SF64div, SFdiv, SFdiv_core_binary, fexp, emin.
  cbn [Zdigits2].
  change (Z.pos (digits2_pos 4503599627370496)) with 53%Z.
  change prec with 53%Z in *. change emax with 1024%Z in *.
  rewrite Hs.
  destruct Hcase as [[Hd53 Hlt]|He'].
  - rewrite Hd53.
    replace (Z.min (Z.max (53 + e - (53 + -52) - 53) (3 - 1024 - 53)) (e - -52))%Z
      with (e - 1)%Z by lia.
    replace (e - -52 - (e - 1))%Z with 53%Z by lia.
    rewrite Z.shiftl_mul_pow2 by lia.
    replace (Z.pos m * 2 ^ 53)%Z with (Z.pos m~0 * 4503599627370496)%Z by lia.
    rewrite div_eucl_exact by lia.
    unfold new_location. cbn [Z.even new_location_even Z.eqb].
    unfold binary_round_aux, shr_fexp, fexp, emin. cbn [Zdigits2 shr_record_of_loc].
    cbn [digits2_pos]. rewrite Pos2Z.inj_succ, Hd53.
    replace (Z.max (Z.succ 53 + (e - 1) - 53) (3 - 1024 - 53) - (e - 1))%Z with 1%Z by lia.
    cbn [shr SpecFloat.iter_pos shr_1 orb shr_m loc_of_shr_record round_nearest_even Zdigits2].
    rewrite Hd53.
    replace (Z.max (53 + (e - 1 + 1) - 53) (3 - 1024 - 53) - (e - 1 + 1))%Z with 0%Z by lia.
    cbn [shr shr_m].
    replace (e - 1 + 1)%Z with e by lia.
    destruct (Z.leb_spec e (1024 - 53)); [reflexivity|lia].
  - subst e.
    assert (Hle : (Z.pos (digits2_pos m) ≤ 53)%Z) by lia.
    replace (Z.min (Z.max (Z.pos (digits2_pos m) + -1074 - (53 + -52) - 53) (3 - 1024 - 53))
               (-1074 - -52))%Z with (-1074)%Z by lia.
    change (-1074 - -52 - -1074)%Z with 52%Z.
    rewrite Z.shiftl_mul_pow2 by lia.
    change (2 ^ 52)%Z with 4503599627370496%Z.
    rewrite div_eucl_exact by lia.
    unfold new_location. cbn [Z.even new_location_even Z.eqb].
    unfold binary_round_aux, shr_fexp, fexp, emin. cbn [Zdigits2 shr_record_of_loc].
    change prec with 53%Z. change emax with 1024%Z.
    replace (Z.max (Z.pos (digits2_pos m) + -1074 - 53) (3 - 1024 - 53) - -1074)%Z
      with 0%Z by lia.
    cbn [shr shr_m loc_of_shr_record round_nearest_even Zdigits2].
    replace (Z.max (Z.pos (digits2_pos m) + -1074 - 53) (3 - 1024 - 53) - -1074)%Z
      with 0%Z by lia.
    cbn [shr shr_m]. reflexivity.
Qed.

Lemma float_div_one (x : float) : (x / 1)%float = x.
Proof.
  apply Prim2SF_inj. rewrite FloatAxioms.div_spec.
  pose proof (Prim2SF_valid x) as Hv.
  destruct (Prim2SF x) as [s|s| |s m e] eqn:Hx.
  - change (Prim2SF 1%float) with (S754_finite false 4503599627370496 (-52)).
    cbn. by destruct s.
  - change (Prim2SF 1%float) with (S754_finite false 4503599627370496 (-52)).
    cbn. by destruct s.
  - reflexivity.
  - by apply SF64div_one.
Qed.

Lemma float_of_nat_1 : float_of_nat 1 = 1%float.
Proof. reflexivity. Qed.

Lemma float_add_zero_l (x : float) :
  Prim2SF (0 + x)%float =
  match Prim2SF x with S754_zero _ => S754_zero false | sx => sx end.
Proof.
  rewrite FloatAxioms.add_spec. change (Prim2SF 0%float) with (S754_zero false).
  destruct (Prim2SF x) as [s|s| |s m e]; try reflexivity. by destruct s.
Qed.

Lemma float_eqb_zero (x : float) :
  PrimFloat.eqb x 0 = true ↔ ∃ s, Prim2SF x = S754_zero s.
Proof.
  rewrite FloatAxioms.eqb_spec. change (Prim2SF 0%float) with (S754_zero false).
  destruct (Prim2SF x) as [s|s| |s m e]; simpl.
  - split; eauto.
  - destruct s; split; try done; by intros [? ?].
  - split; [done|by intros [? ?]].
  - destruct s; split; try done; by intros [? ?].
Qed.

Lemma numerically_equal_refl (x : float) : numerically_equal x x.
Proof. by left. Qed.

Lemma float_add_comm (x y : float) : (x + y)%float = (y + x)%float.
Proof.
  apply Prim2SF_inj. rewrite !FloatAxioms.add_spec.
  destruct (Prim2SF x) as [sx|sx| |sx mx ex], (Prim2SF y) as [sy|sy| |sy my ey];
    try reflexivity; simpl.
  - by destruct sx, sy.
  - by destruct sx, sy.
  - unfold SF64add, SFadd. by rewrite Z.min_comm, Z.add_comm.
Qed.

(** Adding a zero to a value gives that value, as a number. *)
Lemma float_zero_add (z x : float) :
  PrimFloat.eqb z 0 = true → numerically_equal (z + x) x.
Proof.
  intros [s Hz]%float_eqb_zero.
  destruct (Prim2SF x) as [sx|sx| |sx m e] eqn:Hx.
  - right. split; apply float_eqb_zero; [|by eauto].
    rewrite FloatAxioms.add_spec, Hz, Hx. destruct s, sx; eexists; reflexivity.
  - left. apply Prim2SF_inj. by rewrite FloatAxioms.add_spec, Hz, Hx.
  - left. apply Prim2SF_inj. by rewrite FloatAxioms.add_spec, Hz, Hx.
  - left. apply Prim2SF_inj. by rewrite FloatAxioms.add_spec, Hz, Hx.
Qed.

Lemma numerically_equal_zero_add (z y x : float) :
  PrimFloat.eqb z 0 = true → numerically_equal y x → numerically_equal (z + y) x.
Proof.
  intros Hz [->|[Hy Hx]]; [by apply float_zero_add|].
  right. split; [|done].
  by destruct (float_zero_add z y Hz) as [->|[? _]].
Qed.

(** A sum of no value is a zero, and a sum of one value is that value, as a
    number. *)
Lemma float_sum_small (l : list float) (y : float) :
  float_sum l y →
  (l = [] → PrimFloat.eqb y 0 = true) ∧ (∀ x, l = [x] → numerically_equal y x).
Proof.
  induction 1 as [z Hz|x|l1 l2 x y _ [IH1 IH1'] _ [IH2 IH2']|l l' x Hp _ [IH IH']].
  - done.
  - split; [done|]. intros x' [= ->]. by left.
  - split.
    + intros [-> ->]%app_eq_nil.
      by destruct (float_zero_add x y (IH1 eq_refl)) as [->|[? _]]; [apply IH2|].
    + intros x0 Hx0. destruct l1 as [|x1 l1]; simpl in Hx0.
      * subst l2. apply numerically_equal_zero_add; [by apply IH1|by apply IH2'].
      * injection Hx0 as -> Hl. apply app_eq_nil in Hl as [-> ->].
        rewrite float_add_comm.
        apply numerically_equal_zero_add; [by apply IH2|by apply IH1'].
  - split.
    + intros ->. apply IH. by apply Permutation_nil_r in Hp.
    + intros x0 ->. apply IH'. by apply Permutation_singleton_r in Hp.
Qed.

(** numpy's sum of a single value is that value, as a number. *)
Lemma add_reduce_single `{numpy_sum} (s : list nat) (x : float) :
  numerically_equal (add_reduce s [x]) x.
Proof. by apply (float_sum_small [x] _ (add_reduce_sums s [x])). Qed.

(** ** Strings *)

Lemma string_app_cons (c : Ascii.ascii) (s t : string) :
  String c s +:+ t = String c (s +:+ t).
Proof. reflexivity. Qed.

Lemma string_app_assoc (s1 s2 s3 : string) : s1 +:+ (s2 +:+ s3) = (s1 +:+ s2) +:+ s3.
Proof. induction s1 as [|c s1 IH]; [done|]. by rewrite !string_app_cons, IH. Qed.

Lemma string_length_app (s1 s2 : string) :
  String.length (s1 +:+ s2) = (String.length s1 + String.length s2)%nat.
Proof. induction s1 as [|c s1 IH]; simpl; [done|]. by rewrite IH. Qed.

Lemma substring_all (s : string) : String.substring 0 (String.length s) s = s.
Proof. induction s as [|c s IH]; simpl; [done|]. by rewrite IH. Qed.

Lemma substring_app_l (s t : string) :
  String.substring 0 (String.length s) (s +:+ t) = s.
Proof.
  induction s as [|c s IH].
  - simpl. by destruct t.
  - rewrite string_app_cons. simpl. by rewrite IH.
Qed.

Lemma substring_app_r (s t : string) :
  String.substring (String.length s) (String.length t) (s +:+ t) = t.
Proof.
  induction s as [|c s IH].
  - simpl. apply substring_all.
  - rewrite string_app_cons. simpl. apply IH.
Qed.

Lemma ends_with_app (suffix s : string) : ends_with suffix (s +:+ suffix) = true.
Proof.
  unfold ends_with. apply bool_decide_eq_true. rewrite string_length_app. split; [lia|].
  replace (String.length s + String.length suffix - String.length suffix)%nat
    with (String.length s) by lia.
  apply substring_app_r.
Qed.

Lemma strip_npy_app (k : string) : strip_npy (k +:+ ".npy") = k.
Proof.
  unfold strip_npy. rewrite ends_with_app, string_length_app. simpl.
  replace (String.length k + 4 - 4)%nat with (String.length k) by lia.
  apply substring_app_l.
Qed.

#[global] Instance npy_name_inj : Inj (=) (=) (λ k : string, k +:+ ".npy").
Proof. intros k1 k2 Heq. by rewrite <-(strip_npy_app k1), <-(strip_npy_app k2), Heq. Qed.

(** ** Reading an archive *)

Lemma npz_getitem_ok data k v : npz_getitem data k = inr v → npz_ok v.
Proof.
  unfold npz_getitem.
  intros (name & _ & (v' & _ & Hv)%result_bind_inr)%result_bind_inr.
  destruct v' as [a|]; [|by injection Hv as <-].
  case_decide; [by injection Hv as <-|done].
Qed.

Lemma dict_comprehension_inv data ks acc d :
  dict_comprehension data ks acc = inr d →
  NoDup (dict_keys acc) → Forall (λ kv, npz_ok kv.2) acc →
  NoDup (dict_keys d) ∧ Forall (λ kv, npz_ok kv.2) d.
Proof.
  revert acc. induction ks as [|k ks IH]; simpl; intros acc Hrun Hnd Hacc.
  - by injection Hrun as <-.
  - apply result_bind_inr in Hrun as (v & Hv & Hrun).
    apply (IH _ Hrun); [by apply dict_set_NoDup|].
    apply dict_set_values; [|done]. by eapply npz_getitem_ok.
Qed.

Lemma read_npz_inv fs path d :
  read_npz fs path = inr d →
  NoDup (dict_keys d) ∧ Forall (λ kv, npz_ok kv.2) d.
Proof.
  unfold read_npz, load_npz. rewrite io_bind_run. unfold np_load, lift.
  destruct (fs_files fs !! path) as [[[data| |] ?]|]; cbn [f_data fst]; try done.
  - intros Hd. eapply dict_comprehension_inv; [exact Hd| |]; constructor.
  - intros Hd. eapply dict_comprehension_inv; [exact Hd| |]; constructor.
Qed.

Lemma read_npz_arrays fs path (d : weights) :
  read_npz fs path = inr (as_loaded d) →
  NoDup (dict_keys d) ∧ Forall (λ kv, wf_array kv.2) d.
Proof.
  intros [Hnd Hok]%read_npz_inv. rewrite dict_keys_as_loaded in Hnd. split; [done|].
  unfold as_loaded in Hok. rewrite Forall_fmap in Hok.
  eapply Forall_impl; [exact Hok|]. by intros [k a].
Qed.

Lemma dict_get_wf fs path (d : weights) k a :
  read_npz fs path = inr (as_loaded d) → dict_get k d = Some a → wf_array a.
Proof.
  intros [_ Hwf]%read_npz_arrays Hk%dict_get_Some_elem.
  by apply (proj1 (Forall_forall _ _) Hwf) in Hk.
Qed.

(** *** An archive of arrays *)

Lemma opened_names members : (opened members).*1 = (λ k, k +:+ ".npy") <$> members.*1.
Proof. unfold opened. rewrite <-!list_fmap_compose. by apply list_fmap_ext. Qed.

Lemma opened_files members : npz_files (opened members) = members.*1.
Proof.
  unfold npz_files. rewrite opened_names, <-list_fmap_compose.
  rewrite <-(list_fmap_id (members.*1)) at 2.
  apply list_fmap_ext. intros i k _. simpl. apply strip_npy_app.
Qed.

Lemma dict_get_opened members k :
  dict_get (k +:+ ".npy") (opened members) = NpArray <$> dict_get k members.
Proof.
  unfold opened. induction members as [|[k' a] members IH]; csimpl; [done|].
  destruct (decide (k' = k)) as [->|Hne]; [by rewrite decide_True|].
  rewrite decide_False; [done|]. intros Heq. by apply npy_name_inj in Heq.
Qed.

Lemma reverse_opened members : reverse (opened members) = opened (reverse members).
Proof. unfold opened. by rewrite fmap_reverse. Qed.

(** Reading a member by a key that is no member name. *)
Lemma npz_getitem_opened members k a :
  k ∈ members.*1 → (∀ k0, k0 ∈ members.*1 → k0 +:+ ".npy" ≠ k) →
  dict_get k (reverse members) = Some a → wf_array a →
  npz_getitem (opened members) k = inr (NpArray a).
Proof.
  intros Hk Hplain Hget Hwf. unfold npz_getitem.
  rewrite decide_False; last first.
  { rewrite opened_names. intros (k0 & Heq & Hk0)%list_elem_of_fmap.
    by apply (Hplain k0). }
  rewrite decide_True by (by rewrite opened_files). cbn [mbind result_bind].
  unfold dict_getitem. rewrite reverse_opened, dict_get_opened, Hget. cbn.
  by rewrite decide_True.
Qed.

Lemma dict_comprehension_suffix (data pre suf : list (string * ndarray)) :
  data = pre ++ suf → NoDup data.*1 → plain_keys data.*1 →
  Forall (λ kv, wf_array kv.2) data →
  dict_comprehension (opened data) suf.*1 (as_loaded pre) = inr (as_loaded data).
Proof.
  intros Hdata Hnd Hplain Hwf. revert pre Hdata.
  induction suf as [|[k v] suf IH]; intros pre Hdata; csimpl.
  - by rewrite Hdata, app_nil_r.
  - assert ((k, v) ∈ data) as Hin.
    { rewrite Hdata. apply elem_of_app. right. by left. }
    rewrite (npz_getitem_opened data k v).
    + cbn [mbind result_bind]. rewrite dict_set_fresh.
      * replace (as_loaded pre ++ [(k, NpArray v)]) with (as_loaded (pre ++ [(k, v)]))
          by (unfold as_loaded; by rewrite fmap_app).
        apply IH. by rewrite Hdata, <-app_assoc.
      * rewrite dict_keys_as_loaded. rewrite Hdata, fmap_app in Hnd.
        apply NoDup_app in Hnd as (_ & Hdisj & _).
        intros Hk. apply (Hdisj k Hk). csimpl. by left.
    + apply list_elem_of_fmap. by exists (k, v).
    + intros k0 Hk0 Heq. apply (Hplain k0 Hk0). rewrite Heq.
      apply list_elem_of_fmap. by exists (k, v).
    + apply dict_get_NoDup; [|by rewrite elem_of_reverse].
      unfold dict_keys. rewrite fmap_reverse. by rewrite reverse_Permutation.
    + by apply (proj1 (Forall_forall _ _) Hwf) in Hin.
Qed.

(** An archive of well-formed arrays under plain keys is read as it is. *)
Lemma read_npz_written (fs : fsys) (path : string) (w : weights) :
  NoDup (dict_keys w) → plain_keys (dict_keys w) → Forall (λ kv, wf_array kv.2) w →
  read_npz (write_fs path (NpzData w) fs) path = inr (as_loaded w).
Proof.
  intros Hnd Hplain Hwf. unfold read_npz, load_npz. rewrite io_bind_run. unfold np_load.
  unfold write_fs. cbn [fs_files]. rewrite lookup_insert_eq. cbn [f_data].
  unfold lift. cbn [fst]. fold (opened w). rewrite opened_files.
  by apply (dict_comprehension_suffix w [] w).
Qed.

(** ** Stacking and averaging *)

Lemma chunks_concat {E} (size : nat) (rows : list (list E)) :
  Forall (λ r, length r = size) rows →
  chunks (length rows) size (concat rows) = rows.
Proof.
  induction 1 as [|r rows Hr _ IH]; simpl; [done|].
  by rewrite take_app_length', drop_app_length', IH.
Qed.

Lemma stack_dtype_float64 {E} (rest : list (ndarray_of E)) :
  Forall (λ a, arr_dtype a = float64) rest →
  foldr promote_types float64 (arr_dtype <$> rest) = float64.
Proof. induction 1 as [|a rest Ha _ IH]; csimpl; [done|]. by rewrite IH, Ha. Qed.

Lemma np_stack_ok {E} (arrs : list (ndarray_of E)) (s : list nat) :
  arrs ≠ [] → Forall (λ a, arr_shape a = s) arrs →
  Forall (λ a, arr_dtype a = float64) arrs →
  np_stack arrs =
  inr {| arr_dtype := float64;
         arr_shape := length arrs :: s;
         arr_data := concat (arr_data <$> arrs) |}.
Proof.
  intros Hne Hs Ht. destruct arrs as [|a rest]; [done|].
  apply Forall_cons in Hs as [Ha Hs]. apply Forall_cons in Ht as [Hta Ht].
  unfold np_stack. rewrite decide_True; last first.
  { eapply Forall_impl; [exact Hs|]. intros b Hb; simpl in *; congruence. }
  by rewrite Hta, (stack_dtype_float64 _ Ht), Ha.
Qed.

Lemma omap_lookup_length {E} (rows : list (list E)) (i : nat) :
  Forall (λ r, is_Some (r !! i)) rows → length (omap (.!! i) rows) = length rows.
Proof. induction 1 as [|r rows [x Hx] _ IH]; csimpl; [done|]. rewrite Hx. simpl. by rewrite IH. Qed.

Lemma mapM_astype (loaded : list weights) k arrs :
  arrays_at loaded k arrs →
  mapM (λ d, v ← dict_getitem d k; npz_astype v float64) (as_loaded <$> loaded) =
  inr ((λ a, astype a float64) <$> arrs).
Proof.
  intros H. apply mapM_inr, Forall2_fmap_l, Forall2_fmap_r.
  eapply Forall2_impl; [done|]. intros d a Hd; simpl.
  unfold dict_getitem. by rewrite dict_get_as_loaded, Hd.
Qed.

Section aggregation.
Context {NS : numpy_sum}.

Lemma np_mean_axis0_rows (t : dtype) (s : list nat) (rows : list (list float)) :
  Forall (λ r, length r = shape_size s) rows →
  np_mean_axis0 {| arr_dtype := t; arr_shape := length rows :: s;
                   arr_data := concat rows |} =
  inr {| arr_dtype := t; arr_shape := s; arr_data := arr_data (mean_rows s rows) |}.
Proof.
  intros Hlen. unfold np_mean_axis0; cbn [arr_shape arr_data arr_dtype].
  by rewrite chunks_concat.
Qed.

Lemma mean_rows_lookup (s : list nat) (rows : list (list float)) (i : nat) :
  (i < shape_size s)%nat →
  arr_data (mean_rows s rows) !! i =
  Some (float64_mean s (length rows) (omap (.!! i) rows)).
Proof.
  intros Hi. unfold mean_rows. cbn [arr_data].
  by rewrite list_lookup_fmap, lookup_seq_lt.
Qed.

Lemma mean_rows_length (s : list nat) (rows : list (list float)) :
  length (arr_data (mean_rows s rows)) = shape_size s.
Proof. unfold mean_rows. cbn [arr_data]. by rewrite length_fmap, length_seq. Qed.

Lemma average_key_ok (loaded : list weights) k arrs s :
  arrs ≠ [] → arrays_at loaded k arrs →
  Forall wf_array arrs → Forall (λ a, arr_shape a = s) arrs →
  average_key (as_loaded <$> loaded) k = inr (mean_rows s (arr_data <$> arrs)).
Proof.
  intros Hne Hat Hwf Hs. unfold average_key.
  rewrite (mapM_astype _ _ _ Hat).
  assert (Forall (λ r, length r = shape_size s) (arr_data <$> arrs)) as Hlen.
  { apply Forall_fmap, Forall_forall. intros b Hb. simpl.
    pose proof (proj1 (Forall_forall _ _) Hwf b Hb) as Hw.
    pose proof (proj1 (Forall_forall _ _) Hs b Hb) as Hsb.
    unfold wf_array in Hw. simpl in Hsb. congruence. }
  cbn [mbind result_bind].
  rewrite (np_stack_ok _ s).
  - rewrite <-list_fmap_compose, length_fmap.
    change (arr_data ∘ (λ a : ndarray, astype a float64)) with (@arr_data float).
    rewrite <-(length_fmap arr_data arrs).
    cbn [mbind result_bind]. by rewrite (np_mean_axis0_rows _ _ _ Hlen).
  - by destruct arrs.
  - by apply Forall_fmap.
  - by apply Forall_fmap, Forall_true.
Qed.

Lemma average_key_shape_error (loaded : list weights) k arrs :
  arrays_at loaded k arrs →
  (∃ a b, a ∈ arrs ∧ b ∈ arrs ∧ arr_shape a ≠ arr_shape b) →
  average_key (as_loaded <$> loaded) k = inl StackShapeError.
Proof.
  intros Hat (a & b & Ha & Hb & Hab). unfold average_key.
  rewrite (mapM_astype _ _ _ Hat). simpl.
  destruct arrs as [|a0 rest]; [by apply elem_of_nil in Ha|]. csimpl.
  rewrite decide_False; [done|]. rewrite Forall_fmap. intros Hall.
  assert (∀ c, c ∈ a0 :: rest → arr_shape c = arr_shape a0) as Heq.
  { intros c [->|Hc]%elem_of_cons; [done|].
    by apply (proj1 (Forall_forall _ _) Hall) in Hc. }
  apply Hab. by rewrite (Heq a), (Heq b).
Qed.

(** ** The key check and the averaging loop *)

Lemma check_keys_ok keys rest :
  Forall (λ d, dict_keys d = keys) rest → check_keys keys rest = inr ().
Proof. induction 1 as [|d rest Hd _ IH]; simpl; [done|]. by rewrite decide_False by auto. Qed.

Lemma check_keys_mismatch keys rest :
  Exists (λ d, dict_keys d ≠ keys) rest → check_keys keys rest = inl KeyMismatch.
Proof. induction 1 as [d rest Hd|d rest _ IH]; simpl; case_decide; auto; done. Qed.

Lemma check_keys_inr keys rest u :
  check_keys keys rest = inr u → Forall (λ d, dict_keys d = keys) rest.
Proof.
  induction rest as [|d rest IH]; simpl; [constructor|].
  case_decide as Hd; [done|]. intros Hrest. constructor; [|by apply IH].
  by destruct (decide (dict_keys d = keys)).
Qed.

Lemma average_loop_spec loaded ks acc out :
  average_loop loaded ks acc = inr out →
  (∀ k, k ∈ ks → ∃ a, average_key loaded k = inr a ∧ dict_get k out = Some a) ∧
  (∀ k, k ∉ ks → dict_get k out = dict_get k acc) ∧
  (NoDup ks → (∀ k, k ∈ ks → k ∉ dict_keys acc) → dict_keys out = dict_keys acc ++ ks).
Proof.
  revert acc. induction ks as [|k0 ks IH]; simpl; intros acc Hrun.
  - injection Hrun as <-. split_and!.
    + by intros k ?%elem_of_nil.
    + done.
    + intros _ _. by rewrite app_nil_r.
  - apply result_bind_inr in Hrun as (m0 & Hm0 & Hrun).
    destruct (IH _ Hrun) as (IH1 & IH2 & IH3). split_and!.
    + intros k [->|Hk]%elem_of_cons; [|by auto].
      destruct (decide (k0 ∈ ks)) as [Hin|Hin]; [by auto|].
      exists m0. split; [done|]. by rewrite IH2, dict_get_set_eq.
    + intros k [Hne Hk]%not_elem_of_cons.
      by rewrite IH2, dict_get_set_ne.
    + intros [Hk0 Hnd]%NoDup_cons Hfresh. rewrite IH3; [|done|].
      * rewrite dict_keys_set, decide_False, <-app_assoc; [done|].
        apply Hfresh. by left.
      * intros k Hk. rewrite dict_keys_set, decide_False by (apply Hfresh; by left).
        intros [?| ->%list_elem_of_singleton]%elem_of_app; [|done].
        by apply (Hfresh k); [right|].
Qed.

Lemma average_loop_total loaded ks acc :
  (∀ k, k ∈ ks → ∃ a, average_key loaded k = inr a) →
  ∃ out, average_loop loaded ks acc = inr out.
Proof.
  revert acc. induction ks as [|k0 ks IH]; simpl; intros acc Hok; [eauto|].
  destruct (Hok k0) as [a ->]; [by left|]. simpl.
  apply IH. intros k Hk. apply Hok. by right.
Qed.

Lemma average_loop_error loaded ks acc e :
  (∀ k, k ∈ ks → average_key loaded k = inl e ∨ ∃ a, average_key loaded k = inr a) →
  (∃ k, k ∈ ks ∧ average_key loaded k = inl e) →
  average_loop loaded ks acc = inl e.
Proof.
  revert acc. induction ks as [|k0 ks IH]; simpl; intros acc Hall (k & Hk & He).
  - by apply elem_of_nil in Hk.
  - destruct (Hall k0) as [->|[a Ha]]; [by left|done|]. rewrite Ha. simpl.
    apply IH; [intros k' Hk'; apply Hall; by right|].
    apply elem_of_cons in Hk as [->|Hk]; [congruence|eauto].
Qed.

Lemma average_loop_ext loaded loaded' ks acc :
  (∀ k, k ∈ ks → average_key loaded k = average_key loaded' k) →
  average_loop loaded ks acc = average_loop loaded' ks acc.
Proof.
  revert acc. induction ks as [|k0 ks IH]; simpl; intros acc Hext; [done|].
  rewrite <-Hext by (by left). destruct (average_key loaded k0); simpl; [done|].
  apply IH. intros k Hk. apply Hext. by right.
Qed.

(** ** [aggregate_npz_files], step by step *)

Lemma aggregate_npz_files_unfold input_paths output_path fs :
  input_paths ≠ [] →
  aggregate_npz_files input_paths output_path fs =
  match mapM (read_npz fs) input_paths with
  | inl e => (inl e, fs)
  | inr [] => (inl IndexError, fs)
  | inr (d0 :: rest) =>
      match check_keys (dict_keys d0) rest with
      | inl e => (inl e, fs)
      | inr _ =>
          match average_loop (d0 :: rest) (dict_keys d0) [] with
          | inl e => (inl e, fs)
          | inr averaged =>
              if decide ("file" ∈ dict_keys averaged)
              then (inl savez_clash, fs)
              else (inr output_path,
                    write_fs (savez_path output_path) (NpzData (savez_stored averaged)) fs)
          end
      end
  end.
Proof.
  intros Hne. unfold aggregate_npz_files. rewrite decide_False by done.
  rewrite io_bind_run, mapM_load_npz.
  destruct (mapM (read_npz fs) input_paths) as [e|[|d0 rest]]; [done..|].
  rewrite io_bind_run. unfold lift at 1.
  destruct (check_keys (dict_keys d0) rest); [done|].
  rewrite io_bind_run. unfold lift at 1.
  destruct (average_loop (d0 :: rest) (dict_keys d0) []) as [|averaged]; [done|].
  rewrite io_bind_run. unfold np_savez_compressed.
  by destruct (decide ("file" ∈ dict_keys averaged)).
Qed.

Lemma aggregate_npz_files_empty output_path fs :
  aggregate_npz_files [] output_path fs = (inl EmptyInput, fs).
Proof. done. Qed.

Lemma aggregate_npz_files_failure input_paths output_path fs e fs' :
  aggregate_npz_files input_paths output_path fs = (inl e, fs') → fs' = fs.
Proof.
  destruct (decide (input_paths = [])) as [->|Hne]; [by intros [= _ <-]|].
  rewrite aggregate_npz_files_unfold by done.
  destruct (mapM (read_npz fs) input_paths) as [?|[|d0 rest]]; [by intros [= _ <-]..|].
  destruct (check_keys (dict_keys d0) rest); [by intros [= _ <-]|].
  destruct (average_loop (d0 :: rest) (dict_keys d0) []); [by intros [= _ <-]|].
  case_decide; [by intros [= _ <-]|done].
Qed.

(** ** Files that were read *)

Lemma readable_elem fs paths loaded d :
  readable fs paths loaded → d ∈ loaded →
  ∃ p, p ∈ paths ∧ read_npz fs p = inr (as_loaded d).
Proof.
  intros Hr Hd. apply list_elem_of_lookup in Hd as [i Hi].
  destruct (Forall2_lookup_r _ _ _ _ _ Hr Hi) as (p & Hp & Hpd).
  exists p. split; [|done]. apply list_elem_of_lookup. eauto.
Qed.

Lemma readable_wf fs paths loaded d k a :
  readable fs paths loaded → d ∈ loaded → dict_get k d = Some a → wf_array a.
Proof. intros Hr (p & _ & Hp)%(readable_elem _ _ _ _ Hr). eauto using dict_get_wf. Qed.

Lemma readable_NoDup fs paths loaded d :
  readable fs paths loaded → d ∈ loaded → NoDup (dict_keys d).
Proof.
  intros Hr (p & _ & Hp)%(readable_elem _ _ _ _ Hr). by apply read_npz_arrays in Hp as [? _].
Qed.

Lemma readable_mapM fs paths loaded :
  readable fs paths loaded ↔ mapM (read_npz fs) paths = inr (as_loaded <$> loaded).
Proof. rewrite mapM_inr. unfold readable. by rewrite Forall2_fmap_r. Qed.

Lemma arrays_at_exists (loaded : list weights) k :
  (∀ d, d ∈ loaded → k ∈ dict_keys d) → ∃ arrs, arrays_at loaded k arrs.
Proof.
  induction loaded as [|d loaded IH]; intros Hk.
  - exists []. constructor.
  - destruct IH as [arrs Harrs]; [intros d' Hd'; apply Hk; by right|].
    destruct (proj2 (dict_get_is_Some k d)) as [a Ha]; [apply Hk; by left|].
    exists (a :: arrs). by constructor.
Qed.

Lemma arrays_at_elem (loaded : list weights) k arrs a :
  arrays_at loaded k arrs → a ∈ arrs → ∃ d, d ∈ loaded ∧ dict_get k d = Some a.
Proof.
  intros Hat Ha. apply list_elem_of_lookup in Ha as [i Hi].
  destruct (Forall2_lookup_r _ _ _ _ _ Hat Hi) as (d & Hd & Hda).
  exists d. split; [|done]. apply list_elem_of_lookup. eauto.
Qed.

Lemma arrays_at_elem_l (loaded : list weights) k arrs d :
  arrays_at loaded k arrs → d ∈ loaded → ∃ a, a ∈ arrs ∧ dict_get k d = Some a.
Proof.
  intros Hat Hd. apply list_elem_of_lookup in Hd as [i Hi].
  destruct (Forall2_lookup_l _ _ _ _ _ Hat Hi) as (a & Ha & Hda).
  exists a. split; [|done]. apply list_elem_of_lookup. eauto.
Qed.

Lemma arrays_at_length (loaded : list weights) k arrs :
  arrays_at loaded k arrs → length arrs = length loaded.
Proof. intros H. symmetry. by eapply Forall2_length. Qed.

Lemma column_arrays_at (loaded : list weights) k arrs i :
  arrays_at loaded k arrs → column loaded k i = omap (.!! i) (arr_data <$> arrs).
Proof.
  unfold column. induction 1 as [|d a loaded arrs Hd _ IH]; csimpl; [done|].
  rewrite Hd. simpl. by rewrite IH.
Qed.

Lemma average_key_same_shapes fs paths loaded k arrs a :
  readable fs paths loaded → same_shapes loaded →
  arrays_at loaded k arrs → a ∈ arrs →
  average_key (as_loaded <$> loaded) k = inr (mean_rows (arr_shape a) (arr_data <$> arrs)).
Proof.
  intros Hr Hs Hat Ha.
  destruct (arrays_at_elem _ _ _ _ Hat Ha) as (d & Hd & Hda).
  apply average_key_ok; [by intros ->; apply elem_of_nil in Ha|done| |].
  - apply Forall_forall. intros b Hb.
    destruct (arrays_at_elem _ _ _ _ Hat Hb) as (d' & Hd' & Hdb).
    eauto using readable_wf.
  - apply Forall_forall. intros b Hb.
    destruct (arrays_at_elem _ _ _ _ Hat Hb) as (d' & Hd' & Hdb). eauto.
Qed.

(** ** Files with the same keys *)

Lemma same_keys_cons (d0 : weights) rest :
  same_keys (d0 :: rest) → Forall (λ d, dict_keys d = dict_keys d0) rest.
Proof.
  intros Hk. apply Forall_forall. intros d Hd. apply Hk; [by right|by left].
Qed.

Lemma same_keys_of_Forall (d0 : weights) (rest : list weights) :
  Forall (λ d, dict_keys d = dict_keys d0) rest → same_keys (d0 :: rest).
Proof.
  intros Hall.
  assert (∀ d, d ∈ d0 :: rest → dict_keys d = dict_keys d0) as Hk.
  { intros d [->|Hd]%elem_of_cons; [done|].
    by apply (proj1 (Forall_forall _ _) Hall). }
  intros d1 d2 H1 H2. by rewrite (Hk d1), (Hk d2).
Qed.

Lemma same_keys_has_key (loaded : list weights) d0 k :
  same_keys loaded → d0 ∈ loaded → k ∈ dict_keys d0 →
  ∀ d, d ∈ loaded → k ∈ dict_keys d.
Proof. intros Hk Hd0 Hin d Hd. by rewrite (Hk d d0). Qed.

(** Under one key, the files either stack and average, or have two shapes. *)
Lemma average_key_cases fs paths loaded k arrs :
  readable fs paths loaded → arrays_at loaded k arrs → arrs ≠ [] →
  (∃ s, Forall (λ a, arr_shape a = s) arrs ∧
        average_key (as_loaded <$> loaded) k = inr (mean_rows s (arr_data <$> arrs))) ∨
  (∃ a b, a ∈ arrs ∧ b ∈ arrs ∧ arr_shape a ≠ arr_shape b) ∧
   average_key (as_loaded <$> loaded) k = inl StackShapeError.
Proof.
  intros Hr Hat Hne. destruct arrs as [|a0 rest]; [done|].
  destruct (decide (Forall (λ a, arr_shape a = arr_shape a0) (a0 :: rest))) as [Hs|Hs].
  - left. exists (arr_shape a0). split; [done|].
    apply average_key_ok; [done..| |done].
    apply Forall_forall. intros b Hb.
    destruct (arrays_at_elem _ _ _ _ Hat Hb) as (d' & Hd' & Hdb).
    eauto using readable_wf.
  - apply not_Forall_Exists in Hs; [|apply _].
    apply Exists_exists in Hs as (b & Hb & Hab).
    assert (∃ a b, a ∈ a0 :: rest ∧ b ∈ a0 :: rest ∧ arr_shape a ≠ arr_shape b) as Hmis.
    { exists b, a0. split_and!; [done|by left|done]. }
    right. split; [done|]. by apply (average_key_shape_error _ _ _ Hat).
Qed.

Lemma average_loop_matching fs paths loaded d0 :
  readable fs paths loaded → same_keys loaded → same_shapes loaded → d0 ∈ loaded →
  ∃ averaged,
    average_loop (as_loaded <$> loaded) (dict_keys d0) [] = inr averaged ∧
    dict_keys averaged = dict_keys d0 ∧
    ∀ k arrs a, arrays_at loaded k arrs → a ∈ arrs →
      dict_get k averaged = Some (mean_rows (arr_shape a) (arr_data <$> arrs)).
Proof.
  intros Hr Hk Hs Hd0.
  assert (∀ k, k ∈ dict_keys d0 →
            ∃ a, average_key (as_loaded <$> loaded) k = inr a) as Hok.
  { intros k Hin.
    destruct (arrays_at_exists loaded k) as [arrs Hat];
      [by eapply same_keys_has_key|].
    destruct (arrays_at_elem_l _ _ _ _ Hat Hd0) as (a & Ha & _).
    eexists. by eapply average_key_same_shapes. }
  destruct (average_loop_total _ (dict_keys d0) [] Hok) as [averaged Hrun].
  exists averaged. split; [done|].
  destruct (average_loop_spec _ _ _ _ Hrun) as (H1 & _ & H3). split.
  - rewrite H3; [done|by eapply readable_NoDup|]. by intros k _ ?%elem_of_nil.
  - intros k arrs a Hat Ha.
    destruct (arrays_at_elem _ _ _ _ Hat Ha) as (d & Hd & Hda).
    assert (k ∈ dict_keys d0) as Hin.
    { rewrite (Hk d0 d) by done. apply dict_get_is_Some. eauto. }
    destruct (H1 k Hin) as (m & Hm & ->).
    rewrite (average_key_same_shapes _ _ _ _ _ _ Hr Hs Hat Ha) in Hm. congruence.
Qed.

(** What [np.savez_compressed] stores of keys that are no parameter names. *)
Lemma savez_stored_id (w : weights) :
  (∀ k, k ∈ dict_keys w → k ∉ savez_parameters) → savez_stored w = w.
Proof.
  intros Hk. unfold savez_stored. induction w as [|[k a] w IH]; [done|].
  rewrite filter_cons_True.
  - f_equal. apply IH. intros k' Hk'. apply Hk. unfold dict_keys. csimpl. by right.
  - simpl. intros Hin. apply (Hk k); [unfold dict_keys; csimpl; by left|].
    unfold savez_parameters. by right.
Qed.

Lemma storable_no_file (w : weights) :
  (∀ k, k ∈ dict_keys w → k ∉ savez_parameters) → "file" ∉ dict_keys w.
Proof. intros Hk Hin. apply (Hk _ Hin). by left. Qed.

Lemma aggregate_matching fs input_paths output_path loaded :
  input_paths ≠ [] → readable fs input_paths loaded →
  same_keys loaded → same_shapes loaded →
  ∃ averaged,
    aggregate_npz_files input_paths output_path fs =
      (if decide ("file" ∈ dict_keys averaged)
       then (inl savez_clash, fs)
       else (inr output_path,
             write_fs (savez_path output_path) (NpzData (savez_stored averaged)) fs)) ∧
    (∀ d, d ∈ loaded → dict_keys averaged = dict_keys d) ∧
    ∀ k arrs a, arrays_at loaded k arrs → a ∈ arrs →
      dict_get k averaged = Some (mean_rows (arr_shape a) (arr_data <$> arrs)).
Proof.
  intros Hne Hr Hk Hs. rewrite aggregate_npz_files_unfold by done.
  rewrite (proj1 (readable_mapM _ _ _) Hr).
  destruct loaded as [|d0 rest].
  { apply Forall2_nil_inv_r in Hr. done. }
  rewrite fmap_cons, dict_keys_as_loaded.
  rewrite check_keys_ok; last first.
  { apply Forall_fmap. eapply Forall_impl; [by apply same_keys_cons|].
    intros d Hd. simpl. by rewrite dict_keys_as_loaded. }
  destruct (average_loop_matching fs input_paths (d0 :: rest) d0)
    as (averaged & Hrun & Hkeys & Hget); [done..|by left|].
  rewrite fmap_cons in Hrun. rewrite Hrun.
  exists averaged. split_and!; [done| |done].
  intros d Hd. rewrite Hkeys. apply Hk; [by left|done].
Qed.

Lemma aggregate_storable fs input_paths output_path loaded :
  input_paths ≠ [] → readable fs input_paths loaded →
  same_keys loaded → same_shapes loaded → storable_keys loaded →
  ∃ averaged,
    aggregate_npz_files input_paths output_path fs =
      (inr output_path, write_fs (savez_path output_path) (NpzData averaged) fs) ∧
    (∀ d, d ∈ loaded → dict_keys averaged = dict_keys d) ∧
    ∀ k arrs a, arrays_at loaded k arrs → a ∈ arrs →
      dict_get k averaged = Some (mean_rows (arr_shape a) (arr_data <$> arrs)).
Proof.
  intros Hne Hr Hk Hs Hst.
  destruct (aggregate_matching fs input_paths output_path loaded)
    as (averaged & Hrun & Hkeys & Hget); [done..|].
  exists averaged. split_and!; [|done..].
  destruct loaded as [|d0 rest]; [by apply Forall2_nil_inv_r in Hr|].
  assert (∀ k, k ∈ dict_keys averaged → k ∉ savez_parameters) as Hav.
  { intros k. rewrite (Hkeys d0) by by left. apply Hst. by left. }
  rewrite Hrun, decide_False by by apply storable_no_file.
  by rewrite savez_stored_id.
Qed.

(** C1 (as amended).  For every non-empty list of client weight files that
    are readable archives of arrays, list the same keys in the same order,
    hold under each key tensors of one shape, and have no key named like a
    parameter of [np.savez_compressed], the aggregation succeeds, writes the
    averaged archive and returns the output path.  The archive has the keys
    of the inputs, and under every key a tensor of the inputs' shape whose
    element at each index is the float64 mean of the inputs' elements at
    that index: numpy's sum of them, which is a sum of these values in
    binary64, divided in binary64 by the number of files. *)
Theorem aggregate_is_elementwise_mean fs input_paths output_path loaded :
  input_paths ≠ [] → readable fs input_paths loaded →
  same_keys loaded → same_shapes loaded → storable_keys loaded →
  ∃ averaged,
    aggregate_npz_files input_paths output_path fs =
      (inr output_path, write_fs (savez_path output_path) (NpzData averaged) fs) ∧
    ∀ d, d ∈ loaded →
      dict_keys averaged = dict_keys d ∧
      ∀ k a, dict_get k d = Some a →
        ∃ out, dict_get k averaged = Some out ∧
               arr_shape out = arr_shape a ∧
               length (arr_data out) = length (arr_data a) ∧
               ∀ i, (i < length (arr_data a))%nat →
                 let total := add_reduce (arr_shape a) (column loaded k i) in
                 float_sum (column loaded k i) total ∧
                 arr_data out !! i = Some (total / float_of_nat (length loaded))%float.
Proof.
  intros Hne Hr Hk Hs Hst.
  destruct (aggregate_storable fs input_paths output_path loaded)
    as (averaged & Hrun & Hkeys & Hget); [done..|].
  exists averaged. split; [done|]. intros d Hd. split; [by apply Hkeys|].
  intros k a Hda.
  destruct (arrays_at_exists loaded k) as [arrs Hat].
  { eapply same_keys_has_key; [done..|]. apply dict_get_is_Some. eauto. }
  destruct (arrays_at_elem_l _ _ _ _ Hat Hd) as (a' & Ha & Hda').
  assert (a' = a) as -> by congruence.
  pose proof (readable_wf _ _ _ _ _ _ Hr Hd Hda) as Hwf. unfold wf_array in Hwf.
  exists (mean_rows (arr_shape a) (arr_data <$> arrs)). split_and!.
  - by eapply Hget.
  - done.
  - by rewrite mean_rows_length, Hwf.
  - intros i Hi total. split; [apply add_reduce_sums|]. unfold total.
    rewrite (column_arrays_at _ _ _ _ Hat).
    rewrite mean_rows_lookup by lia.
    by rewrite length_fmap, (arrays_at_length _ _ _ Hat).
Qed.

(** ** The element type of the output *)

Lemma np_stack_dtype (arrays : list ndarray) stacked :
  Forall (λ a, arr_dtype a = float64) arrays →
  np_stack arrays = inr stacked → arr_dtype stacked = float64.
Proof.
  intros Ht. unfold np_stack. destruct arrays as [|a rest]; [done|].
  case_decide; [|done]. intros [= <-]. simpl.
  apply Forall_cons in Ht as [-> Ht]. by apply stack_dtype_float64.
Qed.

Lemma np_mean_axis0_dtype a m : np_mean_axis0 a = inr m → arr_dtype m = arr_dtype a.
Proof. unfold np_mean_axis0. destruct (arr_shape a); [done|]. by intros [= <-]. Qed.

Lemma average_key_dtype loaded k m :
  average_key loaded k = inr m → arr_dtype m = float64.
Proof.
  unfold average_key.
  intros (arrays & Harrays & (stacked & Hst & Hm)%result_bind_inr)%result_bind_inr.
  rewrite (np_mean_axis0_dtype _ _ Hm). apply (np_stack_dtype arrays); [|done].
  apply mapM_inr in Harrays. apply Forall_forall. intros b Hb.
  apply list_elem_of_lookup in Hb as [i Hi].
  destruct (Forall2_lookup_r _ _ _ _ _ Harrays Hi) as (d & _ & Hd).
  apply result_bind_inr in Hd as (v & _ & Hv).
  destruct v as [a|]; [|done]. by injection Hv as <-.
Qed.

Lemma average_loop_dtype loaded ks acc out :
  average_loop loaded ks acc = inr out →
  Forall (λ kv, arr_dtype kv.2 = float64) acc →
  Forall (λ kv, arr_dtype kv.2 = float64) out.
Proof.
  revert acc. induction ks as [|k ks IH]; simpl; intros acc Hrun Hacc.
  - by injection Hrun as <-.
  - apply result_bind_inr in Hrun as (m & Hm & Hrun). apply (IH _ Hrun).
    apply (dict_set_values (λ a, arr_dtype a = float64)); [|done].
    by eapply average_key_dtype.
Qed.

Lemma aggregate_npz_files_success input_paths output_path fs r fs' :
  aggregate_npz_files input_paths output_path fs = (inr r, fs') →
  ∃ d0 rest averaged,
    mapM (read_npz fs) input_paths = inr (d0 :: rest) ∧
    Forall (λ d, dict_keys d = dict_keys d0) rest ∧
    average_loop (d0 :: rest) (dict_keys d0) [] = inr averaged ∧
    ("file" ∉ dict_keys averaged) ∧
    r = output_path ∧
    fs' = write_fs (savez_path output_path) (NpzData (savez_stored averaged)) fs.
Proof.
  destruct (decide (input_paths = [])) as [->|Hne]; [done|].
  rewrite aggregate_npz_files_unfold by done.
  destruct (mapM (read_npz fs) input_paths) as [?|[|d0 rest]] eqn:Hl; [done..|].
  destruct (check_keys (dict_keys d0) rest) eqn:Hck; [done|].
  destruct (average_loop (d0 :: rest) (dict_keys d0) []) as [|averaged] eqn:Hav; [done|].
  case_decide; [done|].
  intros [= <- <-]. exists d0, rest, averaged.
  split_and!; [done|by eapply check_keys_inr|done..].
Qed.

Lemma savez_stored_elem (w : weights) k a : (k, a) ∈ savez_stored w → (k, a) ∈ w.
Proof. unfold savez_stored. by intros [_ ?]%list_elem_of_filter. Qed.

(** C9 (as amended).  The mean is computed on float64 copies and is stored
    as it is: whenever the aggregation succeeds, every array of the archive
    it wrote has element type float64, whatever the element types of the
    inputs. *)
Theorem aggregate_output_is_float64 input_paths output_path fs r fs' :
  aggregate_npz_files input_paths output_path fs = (inr r, fs') →
  ∃ averaged,
    fs_files fs' !! savez_path output_path =
      Some {| f_data := NpzData averaged; f_mtime := fs_clock fs |} ∧
    ∀ k out, dict_get k averaged = Some out → arr_dtype out = float64.
Proof.
  intros (d0 & rest & averaged & _ & _ & Hav & _ & _ & ->)%aggregate_npz_files_success.
  exists (savez_stored averaged). split; [apply lookup_insert_eq|].
  intros k out Hout%dict_get_Some_elem%savez_stored_elem.
  apply average_loop_dtype in Hav; [|constructor].
  by apply (proj1 (Forall_forall _ _) Hav) in Hout.
Qed.

(** ** One file *)

Lemma same_keys_singleton (d : weights) : same_keys [d].
Proof. by intros d1 d2 ->%list_elem_of_singleton ->%list_elem_of_singleton. Qed.

Lemma same_shapes_singleton (d : weights) : same_shapes [d].
Proof.
  intros k d1 d2 a1 a2 ->%list_elem_of_singleton ->%list_elem_of_singleton. congruence.
Qed.

(** The mean of a single row keeps its values: the sum of one value is
    that value, and the division by one is exact. *)
Lemma mean_rows_single (s : list nat) (row : list float) :
  length row = shape_size s →
  Forall2 numerically_equal (arr_data (mean_rows s [row])) row.
Proof.
  intros Hlen. apply Forall2_same_length_lookup.
  split; [by rewrite mean_rows_length|].
  intros i y x Hy Hx.
  rewrite mean_rows_lookup in Hy by (rewrite <-Hlen; by eapply lookup_lt_Some).
  injection Hy as <-. csimpl. rewrite Hx. csimpl.
  unfold float64_mean. cbn [length]. rewrite float_of_nat_1, float_div_one.
  apply add_reduce_single.
Qed.

Lemma savez_stored_keys (w : weights) :
  dict_keys (savez_stored w) = filter (.∉ savez_keywords) (dict_keys w).
Proof. exact (dict_keys_filter (λ k, k ∉ savez_keywords) w). Qed.

Lemma savez_stored_get (w : weights) k :
  dict_get k (savez_stored w) =
  if decide (k ∉ savez_keywords) then dict_get k w else None.
Proof. exact (dict_get_filter (λ k, k ∉ savez_keywords) w k). Qed.


(** ** Reordering the files *)

Lemma Forall2_perm_l {A B} (P : A → B → Prop) (l l' : list A) (k : list B) :
  Forall2 P l k → l ≡ₚ l' → ∃ k', Forall2 P l' k' ∧ k ≡ₚ k'.
Proof.
  intros HP Hp. revert k HP.
  induction Hp as [|x l l' _ IH|x y l|l1 l2 l3 _ IH1 _ IH2]; intros k HP.
  - apply Forall2_nil_inv_l in HP as ->. exists []. by split.
  - apply Forall2_cons_inv_l in HP as (b & k0 & Hb & Hk0 & ->).
    destruct (IH _ Hk0) as (k' & Hk' & Hpk). exists (b :: k').
    split; [by constructor|by constructor].
  - apply Forall2_cons_inv_l in HP as (b & k0 & Hb & Hk0 & ->).
    apply Forall2_cons_inv_l in Hk0 as (c & k1 & Hc & Hk1 & ->).
    exists (c :: b :: k1). split; [by repeat constructor|apply perm_swap].
  - destruct (IH1 _ HP) as (k2 & Hk2 & Hp2). destruct (IH2 _ Hk2) as (k3 & Hk3 & Hp3).
    exists k3. split; [done|by etrans].
Qed.

Lemma readable_perm fs paths paths' loaded :
  readable fs paths loaded → paths ≡ₚ paths' →
  ∃ loaded', readable fs paths' loaded' ∧ loaded ≡ₚ loaded'.
Proof. apply Forall2_perm_l. Qed.

Lemma same_keys_perm (loaded loaded' : list weights) :
  loaded ≡ₚ loaded' → same_keys loaded → same_keys loaded'.
Proof. intros Hp Hk d1 d2 Hd1 Hd2. apply Hk; by rewrite Hp. Qed.

Lemma same_shapes_perm (loaded loaded' : list weights) :
  loaded ≡ₚ loaded' → same_shapes loaded → same_shapes loaded'.
Proof. intros Hp Hs k d1 d2 a1 a2 Hd1 Hd2. apply Hs; by rewrite Hp. Qed.

Lemma column_perm (loaded loaded' : list weights) k i :
  loaded ≡ₚ loaded' → column loaded' k i ≡ₚ column loaded k i.
Proof. intros Hp. unfold column. by rewrite Hp. Qed.

Lemma shapes_differ_perm (loaded loaded' : list weights) :
  loaded ≡ₚ loaded' → shapes_differ loaded → shapes_differ loaded'.
Proof.
  intros Hp (k & d1 & d2 & a1 & a2 & Hd1 & Hd2 & H).
  exists k, d1, d2, a1, a2. by rewrite <-Hp.
Qed.

Lemma average_key_result fs paths loaded d0 k :
  readable fs paths loaded → same_keys loaded → d0 ∈ loaded → k ∈ dict_keys d0 →
  average_key (as_loaded <$> loaded) k = inl StackShapeError ∨
  ∃ a, average_key (as_loaded <$> loaded) k = inr a.
Proof.
  intros Hr Hk Hd0 Hin.
  destruct (arrays_at_exists loaded k) as [arrs Hat]; [by eapply same_keys_has_key|].
  destruct (arrays_at_elem_l _ _ _ _ Hat Hd0) as (a & Ha & _).
  destruct (average_key_cases fs paths loaded k arrs Hr Hat) as [(s & _ & ->)|[_ ->]];
    [by intros ->; apply elem_of_nil in Ha|eauto..].
Qed.

Lemma aggregate_shapes_differ fs input_paths output_path loaded :
  readable fs input_paths loaded → same_keys loaded → shapes_differ loaded →
  aggregate_npz_files input_paths output_path fs = (inl StackShapeError, fs).
Proof.
  intros Hr Hk (k & d1 & d2 & a1 & a2 & Hd1 & Hd2 & Ha1 & Ha2 & Hne12).
  assert (input_paths ≠ []) as Hne.
  { intros ->. apply Forall2_nil_inv_l in Hr as ->. by apply elem_of_nil in Hd1. }
  rewrite aggregate_npz_files_unfold by done.
  rewrite (proj1 (readable_mapM _ _ _) Hr).
  destruct loaded as [|d0 rest]; [by apply elem_of_nil in Hd1|].
  rewrite fmap_cons, dict_keys_as_loaded.
  rewrite check_keys_ok; last first.
  { apply Forall_fmap. eapply Forall_impl; [by apply same_keys_cons|].
    intros d Hd. simpl. by rewrite dict_keys_as_loaded. }
  rewrite <-fmap_cons.
  rewrite (average_loop_error _ _ _ StackShapeError); [done| |].
  { intros k' Hin. eapply average_key_result; [done..|by left|done]. }
  exists k. split.
  { rewrite <-(Hk d1 d0) by (done || by left). apply dict_get_is_Some. eauto. }
  destruct (arrays_at_exists (d0 :: rest) k) as [arrs Hat].
  { intros d Hd. rewrite (Hk d d1) by done. apply dict_get_is_Some. eauto. }
  apply (average_key_shape_error _ _ _ Hat).
  destruct (arrays_at_elem_l _ _ _ _ Hat Hd1) as (b1 & Hb1 & Hdb1).
  destruct (arrays_at_elem_l _ _ _ _ Hat Hd2) as (b2 & Hb2 & Hdb2).
  exists b1, b2. split_and!; [done..|congruence].
Qed.

(** Files with the same keys either agree on every shape or differ on one. *)
Lemma shapes_cases fs paths loaded :
  readable fs paths loaded → same_keys loaded →
  same_shapes loaded ∨ shapes_differ loaded.
Proof.
  intros Hr Hk. destruct loaded as [|d0 rest].
  { left. by intros k d1 d2 a1 a2 ?%elem_of_nil. }
  set (loaded := d0 :: rest) in *.
  assert (∀ ks : list string, (∀ k, k ∈ ks → k ∈ dict_keys d0) →
    (∀ k d1 d2 a1 a2, k ∈ ks → d1 ∈ loaded → d2 ∈ loaded →
       dict_get k d1 = Some a1 → dict_get k d2 = Some a2 → arr_shape a1 = arr_shape a2) ∨
    shapes_differ loaded) as Hind.
  { induction ks as [|k ks IH]; intros Hks.
    { left. by intros k d1 d2 a1 a2 ?%elem_of_nil. }
    destruct IH as [IH|IH]; [intros k' Hk'; apply Hks; by right| |by right].
    destruct (arrays_at_exists loaded k) as [arrs Hat].
    { eapply same_keys_has_key; [done|by left|]. apply Hks. by left. }
    destruct (average_key_cases fs paths loaded k arrs Hr Hat)
      as [(s & Hs & _)|[(a & b & Ha & Hb & Hab) _]].
    - apply arrays_at_length in Hat. by destruct arrs.
    - left. intros k' d1 d2 a1 a2 [->|Hk']%elem_of_cons Hd1 Hd2 H1 H2; [|by eauto].
      destruct (arrays_at_elem_l _ _ _ _ Hat Hd1) as (b1 & Hb1 & Hdb1).
      destruct (arrays_at_elem_l _ _ _ _ Hat Hd2) as (b2 & Hb2 & Hdb2).
      assert (b1 = a1) as -> by congruence. assert (b2 = a2) as -> by congruence.
      apply (proj1 (Forall_forall _ _) Hs) in Hb1, Hb2. congruence.
    - right. destruct (arrays_at_elem _ _ _ _ Hat Ha) as (d1 & Hd1 & Hda).
      destruct (arrays_at_elem _ _ _ _ Hat Hb) as (d2 & Hd2 & Hdb).
      by exists k, d1, d2, a, b. }
  destruct (Hind (dict_keys d0)) as [Hs|Hd]; [done| |by right].
  left. intros k d1 d2 a1 a2 Hd1 Hd2 H1 H2. apply (Hs k d1 d2); [|done..].
  rewrite (Hk d0 d1) by (done || by left). apply dict_get_is_Some. eauto.
Qed.

Lemma mean_rows_sums (s : list nat) (rows rows' : list (list float)) :
  length rows' = length rows →
  (∀ i, add_reduce s (omap (.!! i) rows') = add_reduce s (omap (.!! i) rows)) →
  mean_rows s rows' = mean_rows s rows.
Proof.
  intros Hlen Hsum. unfold mean_rows. f_equal. apply list_fmap_ext. intros _ j _.
  unfold float64_mean. by rewrite Hsum, Hlen.
Qed.

(** When numpy's sums of the columns do not change with the order of the
    files, neither does the mean under a key. *)
Lemma average_key_perm fs paths paths' loaded loaded' k :
  readable fs paths loaded → readable fs paths' loaded' → loaded ≡ₚ loaded' →
  (∀ d, d ∈ loaded → k ∈ dict_keys d) →
  (∀ s i, add_reduce s (column loaded' k i) = add_reduce s (column loaded k i)) →
  average_key (as_loaded <$> loaded') k = average_key (as_loaded <$> loaded) k.
Proof.
  intros Hr Hr' Hp Hk Hsum.
  destruct loaded as [|d0 rest].
  { by apply Permutation_nil_l in Hp as <-. }
  set (loaded := d0 :: rest) in *.
  destruct (arrays_at_exists loaded k Hk) as [arrs Hat].
  destruct (Forall2_perm_l _ _ _ _ Hat Hp) as (arrs' & Hat' & Hpa).
  assert (arrs ≠ []) as Hne by (apply arrays_at_length in Hat; by destruct arrs).
  assert (arrs' ≠ []) as Hne'.
  { intros ->. by apply Permutation_nil_r in Hpa. }
  destruct (average_key_cases fs paths loaded k _ Hr Hat Hne)
    as [(s & Hs & ->)|((a & b & Ha & Hb & Hab) & ->)].
  - rewrite (average_key_ok loaded' k arrs' s); [|done..| |by rewrite <-Hpa].
    + f_equal. apply mean_rows_sums; [by rewrite !length_fmap, Hpa|].
      intros i. rewrite <-(column_arrays_at _ _ _ _ Hat), <-(column_arrays_at _ _ _ _ Hat').
      apply Hsum.
    + apply Forall_forall. intros c Hc.
      destruct (arrays_at_elem _ _ _ _ Hat' Hc) as (d' & Hd' & Hdc).
      eauto using readable_wf.
  - apply (average_key_shape_error _ _ _ Hat').
    exists a, b. by rewrite <-!Hpa.
Qed.

(** C8 (as amended).  For readable client weight files with matching keys
    and every permutation of their list: the permuted files are readable and
    hold the same contents in the permuted order; when aggregating the
    original list fails, aggregating the permuted list fails in the same
    way; when it succeeds, so does the other, and the two archives have the
    same keys and under every key tensors of the same element type and
    shape, each element being the float64 mean of the same values, summed by
    numpy in the order of the respective list.  The two outcomes are equal
    whenever numpy's sums of these values agree for the two orders. *)
Theorem aggregate_order_independent fs input_paths input_paths' output_path loaded :
  input_paths ≡ₚ input_paths' → readable fs input_paths loaded → same_keys loaded →
  ∃ loaded',
    readable fs input_paths' loaded' ∧ loaded ≡ₚ loaded' ∧
    (∀ e fs1, aggregate_npz_files input_paths output_path fs = (inl e, fs1) →
       aggregate_npz_files input_paths' output_path fs = (inl e, fs1)) ∧
    (∀ r fs1, aggregate_npz_files input_paths output_path fs = (inr r, fs1) →
       ∃ averaged averaged',
         fs1 = write_fs (savez_path output_path) (NpzData averaged) fs ∧
         aggregate_npz_files input_paths' output_path fs =
           (inr r, write_fs (savez_path output_path) (NpzData averaged') fs) ∧
         dict_keys averaged' = dict_keys averaged ∧
         ∀ k out, dict_get k averaged = Some out →
           ∃ out', dict_get k averaged' = Some out' ∧
             arr_dtype out' = arr_dtype out ∧ arr_shape out' = arr_shape out ∧
             ∀ i, (i < shape_size (arr_shape out))%nat →
               column loaded' k i ≡ₚ column loaded k i ∧
               arr_data out !! i =
                 Some (float64_mean (arr_shape out) (length loaded) (column loaded k i)) ∧
               arr_data out' !! i =
                 Some (float64_mean (arr_shape out) (length loaded) (column loaded' k i))) ∧
    ((∀ s k i, add_reduce s (column loaded' k i) = add_reduce s (column loaded k i)) →
       aggregate_npz_files input_paths' output_path fs =
       aggregate_npz_files input_paths output_path fs).
Proof.
  intros Hp Hr Hk.
  destruct (readable_perm _ _ _ _ Hr Hp) as (loaded' & Hr' & Hpl).
  exists loaded'. split; [done|]. split; [done|].
  destruct (decide (input_paths = [])) as [->|Hne].
  { apply Permutation_nil_l in Hp as <-.
    split_and!; [done|by intros r fs1; rewrite aggregate_npz_files_empty|done]. }
  assert (input_paths' ≠ []) as Hne'.
  { intros ->. by apply Permutation_nil_r in Hp. }
  pose proof (same_keys_perm _ _ Hpl Hk) as Hk'.
  destruct loaded as [|d0 rest]; [by apply Forall2_nil_inv_r in Hr|].
  set (loaded := d0 :: rest) in *.
  assert (d0 ∈ loaded) as Hd0 by by left.
  assert (d0 ∈ loaded') as Hd0' by by rewrite <-Hpl.
  assert ((∀ s k i, add_reduce s (column loaded' k i) = add_reduce s (column loaded k i)) →
       aggregate_npz_files input_paths' output_path fs =
       aggregate_npz_files input_paths output_path fs) as Hequal.
  { intros Hsum. rewrite !aggregate_npz_files_unfold by done.
    rewrite (proj1 (readable_mapM _ _ _) Hr), (proj1 (readable_mapM _ _ _) Hr').
    destruct loaded' as [|d0' rest']; [by apply Forall2_nil_inv_r in Hr'|].
    unfold loaded. rewrite !fmap_cons, !dict_keys_as_loaded.
    assert (dict_keys d0' = dict_keys d0) as Hkeys.
    { apply Hk'; [by left|done]. }
    rewrite !check_keys_ok; first last.
    { apply Forall_fmap. eapply Forall_impl; [by apply (same_keys_cons d0')|].
      intros d Hd. simpl. by rewrite dict_keys_as_loaded. }
    { apply Forall_fmap. eapply Forall_impl; [by apply (same_keys_cons d0)|].
      intros d Hd. simpl. by rewrite dict_keys_as_loaded. }
    rewrite Hkeys, <-!fmap_cons.
    rewrite (average_loop_ext (as_loaded <$> d0' :: rest') (as_loaded <$> d0 :: rest));
      [done|].
    intros k Hin. eapply average_key_perm; [done..| |by auto].
    by eapply same_keys_has_key. }
  destruct (shapes_cases fs input_paths loaded Hr Hk) as [Hs|Hdiff].
  - pose proof (same_shapes_perm _ _ Hpl Hs) as Hs'.
    destruct (aggregate_matching fs input_paths output_path loaded)
      as (A & Hrun & Hkeys & Hget); [done..|].
    destruct (aggregate_matching fs input_paths' output_path loaded')
      as (A' & Hrun' & Hkeys' & Hget'); [done..|].
    assert (dict_keys A' = dict_keys A) as HAA.
    { by rewrite (Hkeys d0), (Hkeys' d0). }
    split_and!; [| |exact Hequal]; clear Hequal; rewrite Hrun, Hrun', HAA.
    { intros e fs1. by destruct (decide ("file" ∈ dict_keys A)). }
    intros r fs1. destruct (decide ("file" ∈ dict_keys A)); [done|]. intros [= <- <-].
    exists (savez_stored A), (savez_stored A'). split_and!; [done|done| |].
    { by rewrite !savez_stored_keys, HAA. }
    intros k out. rewrite savez_stored_get.
    destruct (decide (k ∉ savez_keywords)) as [Hkw|Hkw]; [|done]. intros Hout.
    assert (k ∈ dict_keys d0) as Hin.
    { rewrite <-(Hkeys d0) by done. apply dict_get_is_Some. eauto. }
    destruct (arrays_at_exists loaded k) as [arrs Hat]; [by eapply same_keys_has_key|].
    destruct (Forall2_perm_l _ _ _ _ Hat Hpl) as (arrs' & Hat' & Hpa).
    destruct (arrays_at_elem_l _ _ _ _ Hat Hd0) as (a & Ha & Hda).
    assert (a ∈ arrs') as Ha' by by rewrite <-Hpa.
    rewrite (Hget k arrs a Hat Ha) in Hout. injection Hout as <-.
    exists (mean_rows (arr_shape a) (arr_data <$> arrs')).
    split_and!; [by rewrite savez_stored_get, decide_True by done; apply Hget'|done|done|].
    cbn [mean_rows arr_shape]. intros i Hi. split_and!.
    + by apply column_perm.
    + rewrite mean_rows_lookup by done.
      by rewrite length_fmap, (arrays_at_length _ _ _ Hat), (column_arrays_at _ _ _ _ Hat).
    + rewrite mean_rows_lookup by done.
      rewrite length_fmap, (arrays_at_length _ _ _ Hat'), (column_arrays_at _ _ _ _ Hat').
      by rewrite Hpl.
  - rewrite (aggregate_shapes_differ _ _ _ _ Hr Hk Hdiff).
    rewrite (aggregate_shapes_differ _ _ _ _ Hr' Hk' (shapes_differ_perm _ _ Hpl Hdiff)).
    split_and!; done.
Qed.

(** ** Ways to fail *)

Lemma average_loop_result loaded ks acc e :
  (∀ k, k ∈ ks → average_key loaded k = inl e ∨ ∃ a, average_key loaded k = inr a) →
  average_loop loaded ks acc = inl e ∨ ∃ out, average_loop loaded ks acc = inr out.
Proof.
  revert acc. induction ks as [|k0 ks IH]; simpl; intros acc Hall; [eauto|].
  destruct (Hall k0) as [->|[a ->]]; [by left|by left|]. simpl.
  apply IH. intros k Hk. apply Hall. by right.
Qed.

Lemma key_sets_differ_mismatch (d0 : weights) (rest : list weights) (d1 d2 : weights) :
  d1 ∈ d0 :: rest → d2 ∈ d0 :: rest →
  list_to_set (dict_keys d1) ≠@{gset string} list_to_set (dict_keys d2) →
  Exists (λ d, dict_keys d ≠ dict_keys d0) rest.
Proof.
  intros Hd1 Hd2 Hne.
  destruct (decide (dict_keys d1 = dict_keys d0)) as [H1|H1].
  - destruct (decide (dict_keys d2 = dict_keys d0)) as [H2|H2]; [congruence|].
    apply Exists_exists. exists d2. split; [|done].
    apply elem_of_cons in Hd2 as [->|?]; done.
  - apply Exists_exists. exists d1. split; [|done].
    apply elem_of_cons in Hd1 as [->|?]; done.
Qed.

Lemma aggregate_key_sets_differ fs input_paths output_path loaded d1 d2 :
  readable fs input_paths loaded → d1 ∈ loaded → d2 ∈ loaded →
  list_to_set (dict_keys d1) ≠@{gset string} list_to_set (dict_keys d2) →
  aggregate_npz_files input_paths output_path fs = (inl KeyMismatch, fs).
Proof.
  intros Hr Hd1 Hd2 Hne.
  assert (input_paths ≠ []) as Hne'.
  { intros ->. apply Forall2_nil_inv_l in Hr as ->. by apply elem_of_nil in Hd1. }
  rewrite aggregate_npz_files_unfold by done.
  rewrite (proj1 (readable_mapM _ _ _) Hr).
  destruct loaded as [|d0 rest]; [by apply elem_of_nil in Hd1|].
  rewrite fmap_cons, dict_keys_as_loaded.
  rewrite check_keys_mismatch; [done|].
  apply Exists_fmap.
  eapply Exists_impl; [exact (key_sets_differ_mismatch _ _ _ _ Hd1 Hd2 Hne)|].
  intros d Hd. simpl. by rewrite dict_keys_as_loaded.
Qed.

(** On any disk, only a failing write of the output leaves something
    behind. *)
Lemma aggregate_npz_files_failure_on (D : disk) input_paths output_path fs e fs' :
  aggregate_npz_files (D := D) input_paths output_path fs = (inl e, fs') →
  (∀ p, e ≠ OSError p) → fs' = fs.
Proof.
  unfold aggregate_npz_files.
  destruct (decide (input_paths = [])) as [->|Hne]; [by intros [= _ <-]|].
  rewrite io_bind_run, mapM_load_npz.
  destruct (mapM (read_npz fs) input_paths) as [?|[|d0 rest]]; [by intros [= _ <-]..|].
  rewrite io_bind_run. unfold lift at 1.
  destruct (check_keys (dict_keys d0) rest); [by intros [= _ <-]|].
  rewrite io_bind_run. unfold lift at 1.
  destruct (average_loop (d0 :: rest) (dict_keys d0) []) as [|averaged];
    [by intros [= _ <-]|].
  rewrite io_bind_run. unfold np_savez_compressed.
  destruct (decide ("file" ∈ dict_keys averaged)); [by intros [= _ <-]|].
  unfold write_file.
  destruct (write_outcome (savez_path output_path) (NpzData (savez_stored averaged)));
    [done|by intros [= _ <-]|].
  intros [= <- _] He. by destruct (He (savez_path output_path)).
Qed.

(** Matching files without a key named [file] are aggregated. *)
Lemma aggregate_succeeds fs input_paths output_path loaded :
  input_paths ≠ [] → readable fs input_paths loaded →
  same_keys loaded → same_shapes loaded →
  (∀ d, d ∈ loaded → "file" ∉ dict_keys d) →
  ∃ averaged, aggregate_npz_files input_paths output_path fs =
    (inr output_path, write_fs (savez_path output_path) (NpzData averaged) fs).
Proof.
  intros Hne Hr Hk Hs Hfile.
  destruct (aggregate_matching fs input_paths output_path loaded)
    as (averaged & Hrun & Hkeys & _); [done..|].
  destruct loaded as [|d0 rest]; [by apply Forall2_nil_inv_r in Hr|].
  rewrite Hrun, decide_False; [by eauto|].
  rewrite (Hkeys d0) by by left. apply Hfile. by left.
Qed.

(** C7 (as amended).  The aggregation fails with EmptyInput on an empty
    list.  On readable client weight files it fails with KeyMismatch
    whenever two of them have different sets of keys, and never when all
    list the same keys in the same order; in that case it succeeds when the
    tensors under every key have one shape and no key is named [file], and
    fails with numpy's shape error when two tensors under a key differ in
    shape.  After every failure the file system is what it was, no output
    is written: on any disk, unless the failure is that of the write of the
    output itself. *)
Theorem aggregate_failure_modes fs output_path :
  aggregate_npz_files [] output_path fs = (inl EmptyInput, fs) ∧
  (∀ input_paths loaded d1 d2,
     readable fs input_paths loaded → d1 ∈ loaded → d2 ∈ loaded →
     list_to_set (dict_keys d1) ≠@{gset string} list_to_set (dict_keys d2) →
     aggregate_npz_files input_paths output_path fs = (inl KeyMismatch, fs)) ∧
  (∀ input_paths loaded,
     input_paths ≠ [] → readable fs input_paths loaded → same_keys loaded →
     (aggregate_npz_files input_paths output_path fs).1 ≠ inl KeyMismatch ∧
     (same_shapes loaded → (∀ d, d ∈ loaded → "file" ∉ dict_keys d) →
        ∃ averaged, aggregate_npz_files input_paths output_path fs =
          (inr output_path, write_fs (savez_path output_path) (NpzData averaged) fs)) ∧
     ((∃ k d1 d2 a1 a2, d1 ∈ loaded ∧ d2 ∈ loaded ∧
         dict_get k d1 = Some a1 ∧ dict_get k d2 = Some a2 ∧
         arr_shape a1 ≠ arr_shape a2) →
        aggregate_npz_files input_paths output_path fs = (inl StackShapeError, fs))) ∧
  (∀ (D : disk) input_paths e fs',
     aggregate_npz_files (D := D) input_paths output_path fs = (inl e, fs') →
     (∀ p, e ≠ OSError p) → fs' = fs).
Proof.
  split_and!.
  - done.
  - intros input_paths loaded d1 d2. apply aggregate_key_sets_differ.
  - intros input_paths loaded Hne Hr Hk. split_and!.
    + destruct (shapes_cases fs input_paths loaded Hr Hk) as [Hs|Hdiff].
      * destruct (aggregate_matching fs input_paths output_path loaded)
          as (averaged & -> & _); [done..|]. by case_decide.
      * by rewrite (aggregate_shapes_differ _ _ _ _ Hr Hk Hdiff).
    + by apply aggregate_succeeds.
    + by apply aggregate_shapes_differ.
  - intros D input_paths e fs'. apply aggregate_npz_files_failure_on.
Qed.

(** C6 (as amended).  The aggregation has no participant threshold: a
    single readable client weight file is aggregated and an artifact
    written, and so are two or more files whose keys and shapes match; in
    both cases provided that no key is named [file]. *)
Theorem aggregate_has_no_participant_threshold fs output_path :
  (∀ path d, read_npz fs path = inr (as_loaded d) → "file" ∉ dict_keys d →
     ∃ averaged, aggregate_npz_files [path] output_path fs =
       (inr output_path, write_fs (savez_path output_path) (NpzData averaged) fs)) ∧
  (∀ input_paths loaded,
     (2 ≤ length input_paths)%nat → readable fs input_paths loaded →
     same_keys loaded → same_shapes loaded →
     (∀ d, d ∈ loaded → "file" ∉ dict_keys d) →
     ∃ averaged, aggregate_npz_files input_paths output_path fs =
       (inr output_path, write_fs (savez_path output_path) (NpzData averaged) fs)).
Proof.
  split.
  - intros path d Hd Hfile.
    apply (aggregate_succeeds fs [path] output_path [d]);
      [done|by repeat constructor|apply same_keys_singleton|apply same_shapes_singleton|].
    by intros d' ->%list_elem_of_singleton.
  - intros input_paths loaded Hlen Hr Hk Hs Hfile.
    apply (aggregate_succeeds fs input_paths output_path loaded); [|done..].
    intros ->. simpl in Hlen. lia.
Qed.

(** ** When the aggregation returns *)

Lemma average_key_inr_arrays loaded k m :
  average_key loaded k = inr m →
  ∀ d, d ∈ loaded → ∃ a, dict_get k d = Some (NpArray a).
Proof.
  unfold average_key. intros (arrays & Harrays & _)%result_bind_inr d Hd.
  apply mapM_inr in Harrays. apply list_elem_of_lookup in Hd as [i Hi].
  destruct (Forall2_lookup_l _ _ _ _ _ Harrays Hi) as (b & _ & Hb).
  apply result_bind_inr in Hb as (v & Hv & Hb).
  unfold dict_getitem in Hv. destruct (dict_get k d) as [v'|]; [|done].
  injection Hv as ->. destruct v as [a|]; [eauto|done].
Qed.

Lemma as_loaded_arrays_of (d : npz_dict) :
  Forall (λ kv, ∃ a, kv.2 = NpArray a) d → as_loaded (arrays_of d) = d.
Proof.
  induction 1 as [|[k v] d [a Ha] _ IH]; [done|]. simpl in Ha. subst v.
  unfold as_loaded, arrays_of in *. csimpl. by rewrite IH.
Qed.

(** The dictionaries of an aggregation that returned hold arrays only. *)
Lemma aggregate_npz_files_inr input_paths output_path fs r fs' :
  aggregate_npz_files input_paths output_path fs = (inr r, fs') →
  input_paths ≠ [] ∧
  ∃ d0 rest averaged,
    readable fs input_paths (d0 :: rest) ∧
    Forall (λ d, dict_keys d = dict_keys d0) rest ∧
    average_loop (as_loaded <$> d0 :: rest) (dict_keys d0) [] = inr averaged ∧
    ("file" ∉ dict_keys averaged) ∧
    r = output_path ∧
    fs' = write_fs (savez_path output_path) (NpzData (savez_stored averaged)) fs.
Proof.
  intros Hrun. split; [by intros ->|].
  apply aggregate_npz_files_success
    in Hrun as (n0 & nrest & averaged & Hl & Hkeys & Hav & Hfile & -> & ->).
  assert (Forall (λ d, dict_keys d = dict_keys n0) (n0 :: nrest)) as Hkeys'
    by by constructor.
  assert (Forall (λ d : npz_dict, Forall (λ kv, ∃ a, kv.2 = NpArray a) d) (n0 :: nrest))
    as Harr.
  { apply Forall_forall. intros d Hd. apply Forall_forall. intros [k v] Hkv. simpl.
    assert (NoDup (dict_keys d)) as Hnd.
    { apply mapM_inr in Hl. apply list_elem_of_lookup in Hd as [i Hi].
      destruct (Forall2_lookup_r _ _ _ _ _ Hl Hi) as (p & _ & Hp).
      by apply read_npz_inv in Hp as [? _]. }
    assert (k ∈ dict_keys n0) as Hin.
    { rewrite <-(proj1 (Forall_forall _ _) Hkeys' d Hd).
      unfold dict_keys. apply list_elem_of_fmap. by exists (k, v). }
    destruct (average_loop_spec _ _ _ _ Hav) as (Hspec & _).
    destruct (Hspec k Hin) as (m & Hm & _).
    destruct (average_key_inr_arrays _ _ _ Hm d Hd) as (a & Ha).
    rewrite (dict_get_NoDup d k v Hnd Hkv) in Ha. injection Ha as ->. eauto. }
  assert (as_loaded <$> (arrays_of <$> n0 :: nrest) = n0 :: nrest) as Heq0.
  { rewrite <-list_fmap_compose. rewrite <-(list_fmap_id (n0 :: nrest)) at 2.
    apply list_fmap_ext. intros i d Hi. simpl. apply as_loaded_arrays_of.
    apply (proj1 (Forall_forall _ _) Harr). apply list_elem_of_lookup. eauto. }
  assert (as_loaded <$> (arrays_of n0 :: (arrays_of <$> nrest)) = n0 :: nrest) as Heq
    by done.
  exists (arrays_of n0), (arrays_of <$> nrest), averaged.
  assert (dict_keys (arrays_of n0) = dict_keys n0) as Hk0.
  { rewrite <-dict_keys_as_loaded, as_loaded_arrays_of; [done|].
    apply (proj1 (Forall_forall _ _) Harr). by left. }
  split_and!; [| |by rewrite Heq, Hk0|done..].
  - apply readable_mapM. by rewrite Heq.
  - rewrite Hk0. apply Forall_fmap, Forall_forall. intros d Hd. simpl.
    rewrite <-dict_keys_as_loaded, as_loaded_arrays_of.
    + apply (proj1 (Forall_forall _ _) Hkeys d Hd).
    + apply (proj1 (Forall_forall _ _) Harr). by right.
Qed.

(** X1.  [aggregate_npz_files] returns exactly when the list of paths is not
    empty, every path holds an archive of arrays that loads, all archives
    list the same keys in the same order, under every key all tensors have
    the same shape, and no key is [file], the name of the first parameter of
    [np.savez_compressed].  In every other case it raises. *)
Theorem aggregate_npz_files_succeeds_iff fs input_paths output_path :
  (∃ r fs', aggregate_npz_files input_paths output_path fs = (inr r, fs')) ↔
  input_paths ≠ [] ∧
  ∃ loaded, readable fs input_paths loaded ∧ same_keys loaded ∧ same_shapes loaded ∧
            ∀ d, d ∈ loaded → "file" ∉ dict_keys d.
Proof.
  split.
  - intros (r & fs' & Hrun).
    destruct (aggregate_npz_files_inr _ _ _ _ _ Hrun)
      as (Hne & d0 & rest & averaged & Hr & Hkeys & Hav & Hfile & _).
    split; [done|]. exists (d0 :: rest).
    pose proof (same_keys_of_Forall _ _ Hkeys) as Hk.
    destruct (shapes_cases fs input_paths (d0 :: rest) Hr Hk) as [Hs|Hdiff];
      [|by rewrite (aggregate_shapes_differ _ _ _ _ Hr Hk Hdiff) in Hrun].
    split_and!; [done..|]. intros d Hd.
    destruct (average_loop_matching fs input_paths (d0 :: rest) d0)
      as (averaged' & Hav' & Hkeys' & _); [done..|by left|].
    assert (averaged' = averaged) as -> by congruence.
    rewrite (Hk d d0) by (done || by left). by rewrite <-Hkeys'.
  - intros (Hne & loaded & Hr & Hk & Hs & Hfile).
    destruct (aggregate_succeeds fs input_paths output_path loaded)
      as (averaged & Hrun); [done..|]. eauto.
Qed.

(** ** The name of the written archive *)

Lemma lookup_write_fs_eq p d fs :
  fs_files (write_fs p d fs) !! p = Some {| f_data := d; f_mtime := fs_clock fs |}.
Proof. apply lookup_insert_eq. Qed.

Lemma lookup_write_fs_ne p q d fs :
  p ≠ q → fs_files (write_fs p d fs) !! q = fs_files fs !! q.
Proof. intros. by apply lookup_insert_ne. Qed.

Lemma savez_path_suffix (file : string) :
  ends_with ".npz" file = true → savez_path file = file.
Proof. unfold savez_path. by intros ->. Qed.

Lemma savez_path_no_suffix (file : string) :
  ends_with ".npz" file = false → savez_path file ≠ file.
Proof.
  unfold savez_path. intros ->. intros Heq.
  apply (f_equal String.length) in Heq. rewrite string_length_app in Heq.
  simpl in Heq. lia.
Qed.

(** ** The averaged archive is a well-formed one *)

Lemma average_key_wf fs paths loaded d0 k m :
  readable fs paths loaded → same_keys loaded → d0 ∈ loaded → k ∈ dict_keys d0 →
  average_key (as_loaded <$> loaded) k = inr m → wf_array m.
Proof.
  intros Hr Hk Hd0 Hin Hm.
  destruct (arrays_at_exists loaded k) as [arrs Hat];
    [exact (same_keys_has_key loaded d0 k Hk Hd0 Hin)|].
  destruct (arrays_at_elem_l _ _ _ _ Hat Hd0) as (a & Ha & Hda).
  assert (arrs ≠ []) as Hne by (by intros ->; apply elem_of_nil in Ha).
  destruct (average_key_cases fs paths loaded k arrs Hr Hat Hne)
    as [(s & Hs & Heq)|[_ Herr]]; [|congruence].
  rewrite Heq in Hm. injection Hm as <-. unfold wf_array.
  apply mean_rows_length.
Qed.

Lemma average_loop_wf fs paths loaded d0 ks acc out :
  readable fs paths loaded → same_keys loaded → d0 ∈ loaded →
  (∀ k, k ∈ ks → k ∈ dict_keys d0) →
  average_loop (as_loaded <$> loaded) ks acc = inr out →
  Forall (λ kv, wf_array kv.2) acc → Forall (λ kv, wf_array kv.2) out.
Proof.
  intros Hr Hk Hd0. revert acc.
  induction ks as [|k ks IH]; simpl; intros acc Hks Hrun Hacc.
  - by injection Hrun as <-.
  - apply result_bind_inr in Hrun as (m & Hm & Hrun).
    apply (IH (dict_set k m acc)); [intros k' Hk'; apply Hks; by right|done|].
    apply (dict_set_values wf_array); [|done].
    eapply average_key_wf; [done..|apply Hks; by left|done].
Qed.

(** X2.  When [aggregate_npz_files] returns, it returns the output path it
    was given, and has written an archive under that name, with [.npz]
    appended when the name lacks it; no other file is touched, so for a name
    without the suffix the path that is returned is not the file that was
    written.  The archive loads again with [load_npz] to the weights
    written, when none of its keys is another key followed by [.npy]
    (numpy reads such a key from the other key's member). *)
Theorem aggregate_output_can_be_loaded input_paths output_path fs r fs' :
  aggregate_npz_files input_paths output_path fs = (inr r, fs') →
  r = output_path ∧
  (∃ averaged,
     fs' = write_fs (savez_path output_path) (NpzData averaged) fs ∧
     (plain_keys (dict_keys averaged) →
      load_npz (savez_path output_path) fs' = (inr (as_loaded averaged), fs'))) ∧
  (∀ path, path ≠ savez_path output_path →
     fs_files fs' !! path = fs_files fs !! path) ∧
  (ends_with ".npz" output_path = true → savez_path output_path = r) ∧
  (ends_with ".npz" output_path = false →
     fs_files fs' !! r = fs_files fs !! r).
Proof.
  intros (Hne & d0 & rest & averaged & Hr & Hkeys & Hav & _ & -> & ->)%aggregate_npz_files_inr.
  pose proof (same_keys_of_Forall _ _ Hkeys) as Hk.
  assert (d0 ∈ d0 :: rest) as Hd0 by by left.
  split_and!.
  - done.
  - exists (savez_stored averaged). split; [done|]. intros Hplain.
    rewrite load_npz_pure. f_equal.
    apply read_npz_written; [|done|].
    + rewrite savez_stored_keys. apply NoDup_filter.
      destruct (average_loop_spec _ _ _ _ Hav) as (_ & _ & H3).
      rewrite H3; [by eapply readable_NoDup| by eapply readable_NoDup|].
      by intros k _ ?%elem_of_nil.
    + apply Forall_forall. intros kv Hkv.
      assert (Forall (λ kv, wf_array kv.2) averaged) as Hwf.
      { eapply average_loop_wf; [done..| |done|constructor]. done. }
      apply (proj1 (Forall_forall _ _) Hwf). destruct kv. by apply savez_stored_elem.
  - intros path Hpath. by apply lookup_write_fs_ne.
  - apply savez_path_suffix.
  - intros Hno%savez_path_no_suffix. by apply lookup_write_fs_ne.
Qed.
End aggregation.

(** ** The Keras step and the conversion *)

Lemma dict_comprehension_error data ks acc e :
  dict_comprehension data ks acc = inl e → raised_before_saving e.
Proof.
  revert acc. induction ks as [|k ks IH]; simpl; intros acc; [done|].
  destruct (npz_getitem data k) as [e'|v] eqn:Hv; simpl; [|apply IH].
  intros [= <-]. revert Hv. unfold npz_getitem, dict_getitem.
  destruct (decide (k ∈ data.*1)); simpl.
  - destruct (dict_get k (reverse data)) as [[a|]|]; simpl;
      [case_decide|..]; by intros [= <-].
  - destruct (decide (k ∈ npz_files data)); simpl; [|by intros [= <-]].
    destruct (dict_get (k +:+ ".npy") (reverse data)) as [[a|]|]; simpl;
      [case_decide|..]; by intros [= <-].
Qed.

Lemma read_npz_error fs path e : read_npz fs path = inl e → raised_before_saving e.
Proof.
  unfold read_npz, load_npz. rewrite io_bind_run. unfold np_load, lift.
  destruct (fs_files fs !! path) as [[[data| |] ?]|]; cbn [f_data fst];
    try (by intros [= <-]); apply dict_comprehension_error.
Qed.

Lemma mapM_read_npz_error fs paths e :
  mapM (read_npz fs) paths = inl e → raised_before_saving e.
Proof.
  induction paths as [|p paths IH]; [done|]. rewrite mapM_cons.
  destruct (read_npz fs p) eqn:Hp; simpl; [intros [= <-]; by eapply read_npz_error|].
  destruct (mapM (read_npz fs) paths); simpl; [intros [= <-]; by apply IH|done].
Qed.

Lemma mapM_read_npz_nonempty fs paths loaded :
  paths ≠ [] → mapM (read_npz fs) paths = inr loaded → loaded ≠ [].
Proof.
  intros Hne Hl%mapM_inr ->. apply Forall2_nil_inv_r in Hl. done.
Qed.

Section conversion_facts.
Context {D : disk} (tflite_convert : keras_model → option (list byte)).

Lemma keras_federated_averaging_unfold (cw : list npz_dict) path fs :
  cw ≠ [] →
  keras_federated_averaging cw path fs =
  match fs_files fs !! path with
  | None => (inl (FileNotFoundError ("Global model not found: " +:+ path)), fs)
  | Some f =>
      match f_data f with
      | KerasData model =>
          match write_outcome path (KerasData model) with
          | Completes => (inr model, write_fs path (KerasData model) fs)
          | CannotOpen => (inl (OSError path), fs)
          | Breaks remains => (inl (OSError path), write_fs path remains fs)
          end
      | _ => (inl (KerasLoadError path), fs)
      end
  end.
Proof.
  intros Hcw. unfold keras_federated_averaging. rewrite decide_False by done.
  rewrite io_bind_run. unfold path_exists, load_model.
  destruct (fs_files fs !! path) as [f|] eqn:Hf.
  - rewrite bool_decide_eq_true_2 by eauto. simpl. rewrite io_bind_run, Hf.
    destruct (f_data f) as [?|m|?] eqn:Hdata; try done.
    rewrite io_bind_run. unfold model_save, write_file.
    by destruct (write_outcome path (KerasData m)).
  - by rewrite bool_decide_eq_false_2 by by intros [? ?].
Qed.

Lemma convert_keras_to_tflite_run kp tp fs f model :
  fs_files fs !! kp = Some f → f_data f = KerasData model →
  convert_keras_to_tflite tflite_convert kp tp fs =
  match tflite_convert model with
  | None => (inl ConverterError, fs)
  | Some b =>
      match write_outcome tp (RawData b) with
      | Completes => (inr tp, write_fs tp (RawData b) fs)
      | CannotOpen => (inl (OSError tp), fs)
      | Breaks remains => (inl (OSError tp), write_fs tp remains fs)
      end
  end.
Proof.
  intros Hf Hdata. unfold convert_keras_to_tflite.
  rewrite io_bind_run. unfold path_exists, load_model.
  rewrite bool_decide_eq_true_2 by eauto. cbn [negb].
  rewrite io_bind_run, Hf, Hdata.
  destruct (tflite_convert model); [|done].
  rewrite io_bind_run. unfold write_file.
  by destruct (write_outcome tp (RawData l)).
Qed.

Lemma hybrid_fl_aggregation_unfold input_paths kp tp fs :
  input_paths ≠ [] →
  hybrid_fl_aggregation tflite_convert input_paths kp tp fs =
  match mapM (read_npz fs) input_paths with
  | inl e => (inl e, fs)
  | inr client_weights =>
      match keras_federated_averaging client_weights kp fs with
      | (inl e, fs1) => (inl e, fs1)
      | (inr model, fs1) =>
          match convert_keras_to_tflite tflite_convert kp tp fs1 with
          | (inl e, fs2) => (inl e, fs2)
          | (inr tflite_path, fs2) => (inr (kp, tflite_path), fs2)
          end
      end
  end.
Proof.
  intros Hne. unfold hybrid_fl_aggregation. rewrite decide_False by done.
  rewrite io_bind_run, mapM_load_npz.
  destruct (mapM (read_npz fs) input_paths) as [e|cw]; [done|].
  rewrite io_bind_run.
  destruct (keras_federated_averaging cw kp fs) as [[e|model] fs1]; [done|].
  rewrite io_bind_run.
  by destruct (convert_keras_to_tflite tflite_convert kp tp fs1) as [[e|p] fs2].
Qed.

(** A round, step by step: the files are read, the model is loaded and
    saved again, converted, and the conversion written. *)
Lemma hybrid_fl_aggregation_steps input_paths kp tp fs :
  (∃ e, raised_before_saving e ∧
     hybrid_fl_aggregation tflite_convert input_paths kp tp fs = (inl e, fs)) ∨
  (∃ f model, fs_files fs !! kp = Some f ∧ f_data f = KerasData model ∧
     hybrid_fl_aggregation tflite_convert input_paths kp tp fs =
     match write_outcome kp (KerasData model) with
     | Completes =>
         let fs1 := write_fs kp (KerasData model) fs in
         match tflite_convert model with
         | None => (inl ConverterError, fs1)
         | Some b =>
             match write_outcome tp (RawData b) with
             | Completes => (inr (kp, tp), write_fs tp (RawData b) fs1)
             | CannotOpen => (inl (OSError tp), fs1)
             | Breaks remains => (inl (OSError tp), write_fs tp remains fs1)
             end
         end
     | CannotOpen => (inl (OSError kp), fs)
     | Breaks remains => (inl (OSError kp), write_fs kp remains fs)
     end).
Proof.
  destruct (decide (input_paths = [])) as [->|Hne].
  { left. exists EmptyInput. by split. }
  rewrite !hybrid_fl_aggregation_unfold by done.
  destruct (mapM (read_npz fs) input_paths) as [e|cw] eqn:Hl.
  { left. exists e. split; [|done]. by eapply mapM_read_npz_error. }
  rewrite keras_federated_averaging_unfold by by eapply mapM_read_npz_nonempty.
  destruct (fs_files fs !! kp) as [f|] eqn:Hf;
    [|left; eexists; split; [|reflexivity]; by split].
  destruct (f_data f) as [?|model|?] eqn:Hdata;
    [left; eexists; split; [|reflexivity]; by split|
    |left; eexists; split; [|reflexivity]; by split].
  right. exists f, model. split_and!; [done..|].
  destruct (write_outcome kp (KerasData model)); [|done..].
  rewrite (convert_keras_to_tflite_run kp tp _ _ model (lookup_write_fs_eq _ _ _) eq_refl).
  destruct (tflite_convert model) as [b|]; [|done]. cbn zeta.
  by destruct (write_outcome tp (RawData b)).
Qed.
End conversion_facts.

(** The steps on the disk on which every write completes. *)
Lemma hybrid_fl_aggregation_cases (tflite_convert : keras_model → option (list byte))
    input_paths kp tp fs :
  (∃ e, e ≠ ConverterError ∧
     hybrid_fl_aggregation tflite_convert input_paths kp tp fs = (inl e, fs)) ∨
  (∃ f model, fs_files fs !! kp = Some f ∧ f_data f = KerasData model ∧
     match tflite_convert model with
     | None =>
         hybrid_fl_aggregation tflite_convert input_paths kp tp fs =
         (inl ConverterError, write_fs kp (KerasData model) fs)
     | Some b =>
         hybrid_fl_aggregation tflite_convert input_paths kp tp fs =
         (inr (kp, tp), write_fs tp (RawData b) (write_fs kp (KerasData model) fs))
     end).
Proof.
  destruct (hybrid_fl_aggregation_steps tflite_convert input_paths kp tp fs)
    as [(e & [He _] & Hrun)|(f & model & Hf & Hdata & Hrun)]; [left; eauto|].
  right. exists f, model. split_and!; [done..|].
  unfold write_outcome, reliable_disk in Hrun. cbn zeta in Hrun.
  by destruct (tflite_convert model).
Qed.

Lemma keras_federated_averaging_inr (cw : list npz_dict) path fs model fs' :
  keras_federated_averaging cw path fs = (inr model, fs') →
  cw ≠ [] ∧
  (∃ f, fs_files fs !! path = Some f ∧ f_data f = KerasData model) ∧
  fs' = write_fs path (KerasData model) fs.
Proof.
  destruct (decide (cw = [])) as [->|Hcw]; [done|].
  rewrite keras_federated_averaging_unfold by done.
  destruct (fs_files fs !! path) as [f|] eqn:Hf; [|done].
  destruct (f_data f) as [?|m|?] eqn:Hdata; try done.
  unfold write_outcome, reliable_disk. intros [= <- <-]. eauto.
Qed.

Lemma keras_federated_averaging_inl (cw : list npz_dict) path fs e fs' :
  keras_federated_averaging cw path fs = (inl e, fs') → fs' = fs ∧ e ≠ ConverterError.
Proof.
  destruct (decide (cw = [])) as [->|Hcw]; [by intros [= <- <-]|].
  rewrite keras_federated_averaging_unfold by done.
  destruct (fs_files fs !! path) as [f|] eqn:Hf; [|by intros [= <- <-]].
  destruct (f_data f) as [?|m|?] eqn:Hdata; by intros [= <- <-].
Qed.

Lemma keras_federated_averaging_run (cw : list npz_dict) path fs f model :
  cw ≠ [] → fs_files fs !! path = Some f → f_data f = KerasData model →
  keras_federated_averaging cw path fs = (inr model, write_fs path (KerasData model) fs).
Proof.
  intros Hcw Hf Hdata. by rewrite keras_federated_averaging_unfold, Hf, Hdata.
Qed.

(** Right after [model.save], the conversion finds and loads the model. *)
Lemma convert_after_save (tflite_convert : keras_model → option (list byte))
    kp tp model fs :
  convert_keras_to_tflite tflite_convert kp tp (write_fs kp (KerasData model) fs) =
  match tflite_convert model with
  | None => (inl ConverterError, write_fs kp (KerasData model) fs)
  | Some b => (inr tp, write_fs tp (RawData b) (write_fs kp (KerasData model) fs))
  end.
Proof.
  rewrite (convert_keras_to_tflite_run _ kp tp _ _ model (lookup_write_fs_eq _ _ _) eq_refl).
  by destruct (tflite_convert model).
Qed.

(** C4 (as amended).  A round of aggregation that fails leaves every file
    other than the two artifacts as it was.  When it fails before anything
    is saved (no input, an unreadable client file, a missing or unreadable
    training artifact), it leaves the whole file system as it was.  When the
    converter fails, the training-format file has been saved again, holding
    the model it held, and the inference-format file, kept under another
    path, is as it was.  When a write fails, the file being written is as it
    was only if it could not be opened; otherwise it holds what had reached
    the disk; and when the failing write is that of the inference-format
    file, the training-format file has been saved again. *)
Theorem failed_round_effects {D : disk} (tflite_convert : keras_model → option (list byte))
    input_paths keras_output_path tflite_output_path fs e fs' :
  hybrid_fl_aggregation tflite_convert input_paths keras_output_path
    tflite_output_path fs = (inl e, fs') →
  (∀ p, p ≠ keras_output_path → p ≠ tflite_output_path →
     fs_files fs' !! p = fs_files fs !! p) ∧
  (raised_before_saving e → fs' = fs) ∧
  (e = ConverterError →
     (∃ f model, fs_files fs !! keras_output_path = Some f ∧
        f_data f = KerasData model ∧ tflite_convert model = None ∧
        fs' = write_fs keras_output_path (KerasData model) fs) ∧
     (keras_output_path ≠ tflite_output_path →
        fs_files fs' !! tflite_output_path = fs_files fs !! tflite_output_path)) ∧
  (∀ p, e = OSError p →
     ∃ f model, fs_files fs !! keras_output_path = Some f ∧
       f_data f = KerasData model ∧
       ((p = keras_output_path ∧
         match write_outcome keras_output_path (KerasData model) with
         | Completes => False
         | CannotOpen => fs' = fs
         | Breaks remains => fs' = write_fs keras_output_path remains fs
         end) ∨
        (p = tflite_output_path ∧
         ∃ b, tflite_convert model = Some b ∧
           match write_outcome tflite_output_path (RawData b) with
           | Completes => False
           | CannotOpen => fs' = write_fs keras_output_path (KerasData model) fs
           | Breaks remains =>
               fs' = write_fs tflite_output_path remains
                       (write_fs keras_output_path (KerasData model) fs)
           end))).
Proof.
  intros Hrun.
  destruct (hybrid_fl_aggregation_steps tflite_convert input_paths
              keras_output_path tflite_output_path fs)
    as [(e' & [He1 He2] & Hcase)|(f & model & Hf & Hdata & Hcase)].
  { rewrite Hcase in Hrun. injection Hrun as <- <-.
    split_and!; [done|done|done|]. intros p ->. by destruct (He2 p). }
  rewrite Hcase in Hrun. clear Hcase.
  destruct (write_outcome keras_output_path (KerasData model)) as [| |rk] eqn:Hwk.
  - cbn zeta in Hrun. destruct (tflite_convert model) as [b|] eqn:Hconv.
    + destruct (write_outcome tflite_output_path (RawData b)) as [| |rt] eqn:Hwt;
        [done|..]; injection Hrun as <- <-.
      * split_and!.
        -- intros p Hp _. by apply lookup_write_fs_ne.
        -- intros [_ He]. by destruct (He tflite_output_path).
        -- done.
        -- intros p [= <-]. exists f, model. split_and!; [done..|].
           right. split; [done|]. exists b. split; [done|]. by rewrite Hwt.
      * split_and!.
        -- intros p Hp Hp'. by rewrite !lookup_write_fs_ne.
        -- intros [_ He]. by destruct (He tflite_output_path).
        -- done.
        -- intros p [= <-]. exists f, model. split_and!; [done..|].
           right. split; [done|]. exists b. split; [done|]. by rewrite Hwt.
    + injection Hrun as <- <-. split_and!.
      * intros p Hp _. by apply lookup_write_fs_ne.
      * by intros [He _].
      * intros _. split; [by eauto 10|]. intros Hne. by apply lookup_write_fs_ne.
      * done.
  - injection Hrun as <- <-. split_and!.
    + done.
    + done.
    + done.
    + intros p [= <-]. exists f, model. split_and!; [done..|]. left. by rewrite Hwk.
  - injection Hrun as <- <-. split_and!.
    + intros p Hp _. by apply lookup_write_fs_ne.
    + intros [_ He]. by destruct (He keras_output_path).
    + done.
    + intros p [= <-]. exists f, model. split_and!; [done..|]. left. by rewrite Hwk.
Qed.

(** C5 (as amended).  Given a non-empty list of client weight mappings and
    an existing previous training artifact, the averaging step returns the
    model of the previous artifact and saves it again under the same path;
    the outcome is the same for every other non-empty list of client weight
    mappings. *)
Theorem keras_federated_averaging_resaves client_weights_list global_model_path fs
    model fs' :
  keras_federated_averaging client_weights_list global_model_path fs = (inr model, fs') →
  (∃ f, fs_files fs !! global_model_path = Some f ∧ f_data f = KerasData model) ∧
  fs_files fs' !! global_model_path =
    Some {| f_data := KerasData model; f_mtime := fs_clock fs |} ∧
  (∀ other_weights, other_weights ≠ [] →
     keras_federated_averaging other_weights global_model_path fs = (inr model, fs')).
Proof.
  intros (Hne & (f & Hf & Hdata) & ->)%keras_federated_averaging_inr. split_and!.
  - eauto.
  - apply lookup_write_fs_eq.
  - intros other Hother. by eapply keras_federated_averaging_run.
Qed.

(** ** The server *)

Section server_facts.
Context (ROOT : string) (sha256_hexdigest : list byte → string).
Context (npz_bytes : list (string * ndarray) → list byte).
Context (keras_bytes : keras_model → list byte) (float_str : Qc → string).

(** C2.  In every state of the server the manifest and the artifact are
    available together, and then the digest of the bytes the get-artifact
    operation returns, its Model-Hash header and the manifest's hash field
    are the same (so are the length of the body and the manifest's size);
    otherwise both operations answer 404. *)
Theorem manifest_hash_matches_artifact (s : server) :
  match get_model_info ROOT sha256_hexdigest npz_bytes keras_bytes float_str s,
        get_global_model ROOT sha256_hexdigest npz_bytes keras_bytes s with
  | inr info, inr response =>
      sha256_hexdigest (fr_body response) = model_hash info ∧
      dict_get "Model-Hash" (fr_headers response) = Some (model_hash info) ∧
      length (fr_body response) = model_size_bytes info
  | inl e1, inl e2 => status_code e1 = 404%nat ∧ status_code e2 = 404%nat
  | _, _ => False
  end.
Proof.
  unfold get_model_info, get_global_model.
  by destruct (fs_files (srv_fs s) !! TFLITE_MODEL ROOT).
Qed.

Lemma run_round_stats tflite_convert r s :
  stats (run_round tflite_convert r s).2 = stats s.
Proof.
  unfold run_round.
  by destruct (hybrid_fl_aggregation tflite_convert (round_inputs r)
                 (round_keras_path r) (round_tflite_path r) (srv_fs s)).
Qed.

Lemma run_rounds_stats tflite_convert rs s :
  stats (run_rounds tflite_convert rs s).2 = stats s.
Proof.
  revert s. induction rs as [|r rs IH]; intros s; simpl; [done|].
  pose proof (run_round_stats tflite_convert r s) as Hr.
  destruct (run_round tflite_convert r s) as [res s1]. simpl in Hr.
  pose proof (IH s1) as Hrs.
  destruct (run_rounds tflite_convert rs s1) as [k s2]. simpl in *. congruence.
Qed.

(** C3 (as amended).  The version the server reports is 0 from the start
    and stays 0: after any sequence of aggregation rounds, however many of
    them succeed, the manifest's version and the artifact's Model-Version
    header are "0" whenever the model file exists (and both operations
    fail only when it does not). *)
Theorem reported_version_stays_zero tflite_convert (now : Qc) (fs : fsys)
    (rounds : list round) :
  let s := (run_rounds tflite_convert rounds
              {| stats := initial_stats now; srv_fs := fs |}).2 in
  match get_model_info ROOT sha256_hexdigest npz_bytes keras_bytes float_str s with
  | inr info => model_version info = "0"
  | inl _ => fs_files (srv_fs s) !! TFLITE_MODEL ROOT = None
  end ∧
  match get_global_model ROOT sha256_hexdigest npz_bytes keras_bytes s with
  | inr response => dict_get "Model-Version" (fr_headers response) = Some "0"
  | inl _ => fs_files (srv_fs s) !! TFLITE_MODEL ROOT = None
  end.
Proof.
  intros s.
  assert (stats s = initial_stats now) as Hstats by apply run_rounds_stats.
  unfold get_model_info, get_global_model.
  destruct (fs_files (srv_fs s) !! TFLITE_MODEL ROOT); [|done].
  split; [|done]. simpl. by rewrite Hstats.
Qed.
End server_facts.

(** ** What a round publishes *)

(** X5.  [hybrid_fl_aggregation] returns exactly when there is at least one
    path, [load_npz] returns on every path, the Keras output path already
    holds a model that loads, and the conversion of that model succeeds.  It
    then returns the two output paths, and leaves that same model saved
    again and its conversion written: of the client files it only asks that
    they load. *)
Theorem hybrid_fl_aggregation_succeeds_iff
    (tflite_convert : keras_model → option (list byte))
    input_paths keras_output_path tflite_output_path fs r fs' :
  hybrid_fl_aggregation tflite_convert input_paths keras_output_path
    tflite_output_path fs = (inr r, fs') ↔
  input_paths ≠ [] ∧
  (∃ client_weights,
     Forall2 (λ p d, read_npz fs p = inr d) input_paths client_weights) ∧
  ∃ f model tflite_model,
    fs_files fs !! keras_output_path = Some f ∧
    f_data f = KerasData model ∧
    tflite_convert model = Some tflite_model ∧
    r = (keras_output_path, tflite_output_path) ∧
    fs' = write_fs tflite_output_path (RawData tflite_model)
            (write_fs keras_output_path (KerasData model) fs).
Proof.
  split.
  - intros Hrun.
    destruct (decide (input_paths = [])) as [->|Hne]; [done|].
    rewrite hybrid_fl_aggregation_unfold in Hrun by done.
    destruct (mapM (read_npz fs) input_paths) as [e|cw] eqn:Hl; [done|].
    destruct (keras_federated_averaging cw keras_output_path fs)
      as [[e|model] fs1] eqn:Hk; [done|].
    apply keras_federated_averaging_inr in Hk as (_ & (f & Hf & Hdata) & ->).
    rewrite convert_after_save in Hrun.
    destruct (tflite_convert model) as [b|] eqn:Hb; [|done].
    injection Hrun as <- <-.
    split_and!; [done|exists cw; by apply mapM_inr|].
    exists f, model, b. by split_and!.
  - intros (Hne & (cw & Hr) & f & model & b & Hf & Hdata & Hb & -> & ->).
    rewrite hybrid_fl_aggregation_unfold by done.
    rewrite (proj2 (mapM_inr _ _ _) Hr).
    rewrite (keras_federated_averaging_run cw keras_output_path fs f model);
      [|by intros ->; apply Forall2_nil_inv_r in Hr|done..].
    by rewrite convert_after_save, Hb.
Qed.

(** ** Rounds and the model the server hands out *)

Lemma hybrid_fl_aggregation_frame (tflite_convert : keras_model → option (list byte))
    input_paths kp tp fs path :
  path ≠ kp → path ≠ tp →
  fs_files (hybrid_fl_aggregation tflite_convert input_paths kp tp fs).2 !! path =
  fs_files fs !! path.
Proof.
  intros Hkp Htp.
  destruct (hybrid_fl_aggregation_cases tflite_convert input_paths kp tp fs)
    as [(e & _ & ->)|(f & model & _ & _ & Hcase)]; [done|].
  destruct (tflite_convert model); rewrite Hcase; cbn [snd].
  - by rewrite !lookup_write_fs_ne.
  - by rewrite lookup_write_fs_ne.
Qed.

Lemma TFLITE_MODEL_not_global (ROOT : string) :
  TFLITE_MODEL ROOT ≠ GLOBAL_MODEL_KERAS ∧ TFLITE_MODEL ROOT ≠ GLOBAL_MODEL_TFLITE.
Proof.
  unfold TFLITE_MODEL. split; intros Heq.
  - apply (f_equal String.length) in Heq. rewrite string_length_app in Heq.
    simpl in Heq. lia.
  - assert (ROOT = "") as ->; [|done].
    apply (f_equal String.length) in Heq. rewrite string_length_app in Heq.
    simpl in Heq. destruct ROOT; [done|simpl in Heq; lia].
Qed.

Lemma run_round_default_frame (ROOT : string)
    (tflite_convert : keras_model → option (list byte)) input_paths s :
  stats (run_round tflite_convert (default_round input_paths) s).2 = stats s ∧
  fs_files (srv_fs (run_round tflite_convert (default_round input_paths) s).2)
    !! TFLITE_MODEL ROOT =
  fs_files (srv_fs s) !! TFLITE_MODEL ROOT.
Proof.
  destruct (TFLITE_MODEL_not_global ROOT) as [Hk Ht].
  pose proof (hybrid_fl_aggregation_frame tflite_convert input_paths
                GLOBAL_MODEL_KERAS GLOBAL_MODEL_TFLITE (srv_fs s) _ Hk Ht) as Hframe.
  unfold run_round, default_round. cbn [round_inputs round_keras_path round_tflite_path].
  destruct (hybrid_fl_aggregation tflite_convert input_paths GLOBAL_MODEL_KERAS
              GLOBAL_MODEL_TFLITE (srv_fs s)) as [res fs1].
  by split.
Qed.

Lemma run_rounds_default_frame (ROOT : string)
    (tflite_convert : keras_model → option (list byte)) inputs s :
  stats (run_rounds tflite_convert (default_round <$> inputs) s).2 = stats s ∧
  fs_files (srv_fs (run_rounds tflite_convert (default_round <$> inputs) s).2)
    !! TFLITE_MODEL ROOT =
  fs_files (srv_fs s) !! TFLITE_MODEL ROOT.
Proof.
  revert s. induction inputs as [|input_paths inputs IH]; intros s; [done|].
  csimpl.
  destruct (run_round_default_frame ROOT tflite_convert input_paths s) as [Hs1 Hf1].
  destruct (run_round tflite_convert (default_round input_paths) s) as [res s1].
  destruct (IH s1) as [Hs2 Hf2].
  destruct (run_rounds tflite_convert (default_round <$> inputs) s1) as [k s2].
  simpl in *. split; congruence.
Qed.

(** X6.  Whatever rounds are run with the default output paths, and whether
    they succeed or fail, [/model_info] and [/get_global_model] answer
    afterwards exactly as they did before: the rounds write
    [final_model.keras] and [global_model.tflite], the server hands out
    [ROOT/modic_model.tflite]. *)
Theorem rounds_do_not_change_served_model (ROOT : string)
    (sha256_hexdigest : list byte → string)
    (npz_bytes : list (string * ndarray) → list byte)
    (keras_bytes : keras_model → list byte) (float_str : Qc → string)
    (tflite_convert : keras_model → option (list byte))
    (inputs : list (list string)) (s : server) :
  let s' := (run_rounds tflite_convert (default_round <$> inputs) s).2 in
  get_model_info ROOT sha256_hexdigest npz_bytes keras_bytes float_str s' =
    get_model_info ROOT sha256_hexdigest npz_bytes keras_bytes float_str s ∧
  get_global_model ROOT sha256_hexdigest npz_bytes keras_bytes s' =
    get_global_model ROOT sha256_hexdigest npz_bytes keras_bytes s.
Proof.
  intros s'.
  destruct (run_rounds_default_frame ROOT tflite_convert inputs s) as [Hstats Hfile].
  fold s' in Hstats, Hfile.
  unfold get_model_info, get_global_model. by rewrite Hstats, Hfile.
Qed.


(** ** Paths of the setup script *)

Lemma string_app_suffix_inj (s1 s2 t1 t2 : string) :
  String.length t1 = String.length t2 → s1 +:+ t1 = s2 +:+ t2 → t1 = t2.
Proof.
  intros Hlen. revert s2. induction s1 as [|c s1 IH]; intros [|c' s2] Heq.
  - done.
  - apply (f_equal String.length) in Heq. rewrite !string_length_app in Heq.
    simpl in Heq. lia.
  - apply (f_equal String.length) in Heq. rewrite !string_length_app in Heq.
    simpl in Heq. lia.
  - rewrite !string_app_cons in Heq. injection Heq as _ Heq. by eapply IH.
Qed.

Section setup_paths.
Context (BACKEND_PARENT BACKEND_NAME : string).

Lemma CLIENT_MODEL_PATH_ne_backup :
  CLIENT_MODEL_PATH BACKEND_PARENT ≠ backup_path BACKEND_PARENT.
Proof.
  unfold CLIENT_MODEL_PATH, backup_path. intros Heq.
  apply (f_equal String.length) in Heq. rewrite !string_length_app in Heq.
  simpl in Heq. lia.
Qed.

Lemma TFLITE_MODEL_PATH_ne_client :
  TFLITE_MODEL_PATH BACKEND_PARENT BACKEND_NAME ≠ CLIENT_MODEL_PATH BACKEND_PARENT.
Proof.
  unfold TFLITE_MODEL_PATH, CLIENT_MODEL_PATH, APP_ASSETS_DIR. intros Heq.
  rewrite <-(string_app_assoc BACKEND_PARENT) in Heq.
  change ("/app/src/main/assets" +:+ "/modic_model.tflite")
    with ("/app/src/main/asset" +:+ "s/modic_model.tflite") in Heq.
  rewrite string_app_assoc in Heq.
  by apply string_app_suffix_inj in Heq.
Qed.

Lemma TFLITE_MODEL_PATH_ne_backup :
  TFLITE_MODEL_PATH BACKEND_PARENT BACKEND_NAME ≠ backup_path BACKEND_PARENT.
Proof.
  unfold TFLITE_MODEL_PATH, backup_path, APP_ASSETS_DIR. intros Heq.
  rewrite <-(string_app_assoc BACKEND_PARENT) in Heq.
  change ("/app/src/main/assets" +:+ "/modic_model.tflite.backup")
    with ("/app/src/main/assets/modic" +:+ "_model.tflite.backup") in Heq.
  rewrite string_app_assoc in Heq.
  by apply string_app_suffix_inj in Heq.
Qed.

Lemma KERAS_MODEL_PATH_ne_tflite :
  KERAS_MODEL_PATH BACKEND_PARENT BACKEND_NAME ≠ TFLITE_MODEL_PATH BACKEND_PARENT BACKEND_NAME.
Proof.
  unfold KERAS_MODEL_PATH, TFLITE_MODEL_PATH. intros Heq.
  by apply (inj (String.app _)) in Heq.
Qed.

Lemma KERAS_MODEL_PATH_ne_client :
  KERAS_MODEL_PATH BACKEND_PARENT BACKEND_NAME ≠ CLIENT_MODEL_PATH BACKEND_PARENT.
Proof.
  unfold KERAS_MODEL_PATH, CLIENT_MODEL_PATH, APP_ASSETS_DIR. intros Heq.
  rewrite <-(string_app_assoc BACKEND_PARENT) in Heq.
  change ("/app/src/main/assets" +:+ "/modic_model.tflite")
    with ("/app/src/main/assets/modi" +:+ "c_model.tflite") in Heq.
  change "/final_model.keras" with ("/fin" +:+ "al_model.keras") in Heq.
  rewrite !string_app_assoc in Heq.
  by apply string_app_suffix_inj in Heq.
Qed.

Lemma KERAS_MODEL_PATH_ne_backup :
  KERAS_MODEL_PATH BACKEND_PARENT BACKEND_NAME ≠ backup_path BACKEND_PARENT.
Proof.
  unfold KERAS_MODEL_PATH, backup_path, APP_ASSETS_DIR. intros Heq.
  rewrite <-(string_app_assoc BACKEND_PARENT) in Heq.
  change ("/app/src/main/assets" +:+ "/modic_model.tflite.backup")
    with ("/app/src/main/assets/modic_model.tf" +:+ "lite.backup") in Heq.
  change "/final_model.keras" with ("/final_" +:+ "model.keras") in Heq.
  rewrite !string_app_assoc in Heq.
  by apply string_app_suffix_inj in Heq.
Qed.
End setup_paths.

(** ** Copies *)

Lemma try_except_run {A} (body : io A) (handler : exn → io A) (fs : fsys) :
  try_except body handler fs =
  match body fs with
  | (inl e, fs') => handler e fs'
  | (inr x, fs') => (inr x, fs')
  end.
Proof. done. Qed.

Lemma path_exists_run (p : string) (fs : fsys) :
  path_exists p fs = (inr (bool_decide (is_Some (fs_files fs !! p))), fs).
Proof. done. Qed.

Lemma copy2_run (src dst : string) (f : file) (fs : fsys) :
  src ≠ dst → fs_files fs !! src = Some f →
  copy2 src dst fs = (inr (), copy_fs dst f fs).
Proof. intros Hne Hf. unfold copy2. by rewrite Hf, decide_False. Qed.

Section setup_facts.
Context (BACKEND_PARENT BACKEND_NAME : string).
Context (tflite_convert : keras_model → option (list byte)).


Lemma sync_client_model_run (fs : fsys) (g : file) :
  fs_files fs !! TFLITE_MODEL_PATH BACKEND_PARENT BACKEND_NAME = Some g →
  sync_client_model BACKEND_PARENT BACKEND_NAME fs =
  (inr true,
   copy_fs (CLIENT_MODEL_PATH BACKEND_PARENT) g
     match fs_files fs !! CLIENT_MODEL_PATH BACKEND_PARENT,
           fs_files fs !! backup_path BACKEND_PARENT with
     | Some c, None => copy_fs (backup_path BACKEND_PARENT) c fs
     | _, _ => fs
     end).
Proof.
  intros Hg. unfold sync_client_model.
  rewrite io_bind_run, path_exists_run, Hg.
  rewrite bool_decide_eq_true_2 by eauto. cbn [negb].
  rewrite try_except_run, io_bind_run, path_exists_run.
  rewrite io_bind_run, path_exists_run.
  pose proof (CLIENT_MODEL_PATH_ne_backup BACKEND_PARENT) as Hcb.
  pose proof (TFLITE_MODEL_PATH_ne_client BACKEND_PARENT BACKEND_NAME) as Hgc.
  pose proof (TFLITE_MODEL_PATH_ne_backup BACKEND_PARENT BACKEND_NAME) as Hgb.
  destruct (fs_files fs !! CLIENT_MODEL_PATH BACKEND_PARENT) as [c|] eqn:Hc.
  - rewrite (bool_decide_eq_true_2 (is_Some (Some c))) by eauto.
    destruct (fs_files fs !! backup_path BACKEND_PARENT) as [b|] eqn:Hb.
    + rewrite bool_decide_eq_true_2 by eauto. cbn [negb andb].
      rewrite io_bind_run. cbn [mret io_ret].
      rewrite io_bind_run. cbn [mkdir mret io_ret].
      rewrite io_bind_run, (copy2_run _ _ g fs Hgc Hg). done.
    + rewrite bool_decide_eq_false_2 by by intros [? ?]. cbn [negb andb].
      rewrite io_bind_run, (copy2_run _ _ c fs Hcb Hc).
      rewrite io_bind_run. cbn [mkdir mret io_ret].
      rewrite io_bind_run, (copy2_run _ _ g); [done..|].
      unfold copy_fs; cbn [fs_files]. by rewrite lookup_insert_ne.
  - rewrite (bool_decide_eq_false_2 (is_Some None)) by by intros [? ?].
    cbn [andb].
    rewrite io_bind_run. cbn [mret io_ret].
    rewrite io_bind_run. cbn [mkdir mret io_ret].
    rewrite io_bind_run, (copy2_run _ _ g fs Hgc Hg).
    by destruct (fs_files fs !! backup_path BACKEND_PARENT).
Qed.


End setup_facts.

Section setup_composition.
Context (BACKEND_PARENT BACKEND_NAME : string).
Context (tflite_convert : keras_model → option (list byte)).

Lemma initialize_global_tflite_run (fs : fsys) (f : file) model tflite_model :
  fs_files fs !! KERAS_MODEL_PATH BACKEND_PARENT BACKEND_NAME = Some f →
  f_data f = KerasData model → tflite_convert model = Some tflite_model →
  initialize_global_tflite BACKEND_PARENT BACKEND_NAME tflite_convert fs =
  (inr true,
   write_fs (TFLITE_MODEL_PATH BACKEND_PARENT BACKEND_NAME) (RawData tflite_model) fs).
Proof.
  intros Hf Hdata Hconv. unfold initialize_global_tflite.
  rewrite try_except_run, io_bind_run.
  by rewrite (convert_keras_to_tflite_run tflite_convert _ _ _ _ model Hf Hdata), Hconv.
Qed.

End setup_composition.

(** ** The prediction endpoint *)

Lemma raised_bind_inr {A B} (f : A → raised + B) (m : raised + A) (y : B) :
  m ≫= f = inr y ↔ ∃ x, m = inr x ∧ f x = inr y.
Proof.
  destruct m as [e|x]; simpl.
  - split; [done | by intros (? & ? & ?)].
  - split; [eauto | by intros (? & [= ->] & ?)].
Qed.

Section app_facts.
Context (ROOT : string) (float_str : Qc → string).
Context (load_interpreter : list byte → option tflite_interpreter).
Context (npz_bytes : list (string * ndarray) → list byte).
Context (keras_bytes : keras_model → list byte).
Context (image : Type) (image_open_rgb : list byte → string + image).
Context (image_resize : image → string + image) (image_array : image → qarray).
Context (exception_str : raised → string).

Lemma predict_body_inr file_t1 file_t2 interpreter s result :
  predict_body float_str image image_open_rgb image_resize image_array
    file_t1 file_t2 interpreter s = inr result →
  ∃ no_modic_score modic_score,
    result =
    {| prediction := if decide (no_modic_score < modic_score)%Qc
                     then modic_score else no_modic_score;
       label := if decide (no_modic_score < modic_score)%Qc
                then "Modic" else "No Modic";
       confidence := if decide (no_modic_score < modic_score)%Qc
                     then modic_score else no_modic_score;
       detailed_no_modic := no_modic_score;
       detailed_modic := modic_score;
       prediction_model_version :=
         py_str float_str (default (PyInt 0) (stats s !! "total_aggregations"));
       input_file_t1 := filename file_t1;
       input_file_t2 := filename file_t2 |}.
Proof.
  unfold predict_body. intros H.
  repeat (apply raised_bind_inr in H as (? & _ & H)).
  match type of H with
  | context [decide (?no < ?mo)%Qc] => exists no, mo
  end.
  revert H. by case_decide; intros [= <-].
Qed.

(** X11.  In a prediction that [/predict] returns, [prediction] equals
    [confidence], which is the larger of the two scores; the label is
    [Modic] exactly when the Modic score is strictly larger, and a tie is
    labelled [No Modic].  (Scores are numbers; NaN is outside the model.) *)
Theorem predict_label_and_confidence file_t1 file_t2 app result :
  predict float_str image image_open_rgb image_resize image_array exception_str
    file_t1 file_t2 app = inr result →
  prediction result = confidence result ∧
  (detailed_no_modic result ≤ confidence result)%Qc ∧
  (detailed_modic result ≤ confidence result)%Qc ∧
  (label result = "Modic" ∧ confidence result = detailed_modic result ∧
   (detailed_no_modic result < detailed_modic result)%Qc ∨
   label result = "No Modic" ∧ confidence result = detailed_no_modic result ∧
   (detailed_modic result ≤ detailed_no_modic result)%Qc).
Proof.
  unfold predict. destruct (tf_available app); [|done]. cbn [negb].
  destruct (prediction_interpreter app) as [interpreter|]; [|done].
  destruct (predict_body _ _ _ _ _ _ _ _ _) as [e|res] eqn:Hbody; [done|].
  intros [= <-]. apply predict_body_inr in Hbody as (no & mo & ->). cbn.
  case_decide as Hlt.
  - split_and!; [done|by apply Qclt_le_weak|done|]. left. done.
  - apply Qcnot_lt_le in Hlt. split_and!; [done..|]. right. done.
Qed.

(** X12.  [/predict] fails with status 503 or 500 only: 503 when TensorFlow
    or the interpreter is missing, 500 for everything raised while
    predicting.  In particular an upload whose content type is not an
    image is answered with 500, not with the 400 that is raised for it:
    the [except Exception] around the body catches that exception and
    wraps its text. *)
Theorem predict_failure_status file_t1 file_t2 app :
  (∀ e, predict float_str image image_open_rgb image_resize image_array exception_str
          file_t1 file_t2 app = inl e →
        status_code e = 503%nat ∧
          (tf_available app = false ∨ prediction_interpreter app = None) ∨
        status_code e = 500%nat ∧
          tf_available app = true ∧ is_Some (prediction_interpreter app)) ∧
  (tf_available app = true → is_Some (prediction_interpreter app) →
   ∀ t, (content_type file_t1 = Some t ∨
         (∃ t1, content_type file_t1 = Some t1 ∧ String.prefix "image/" t1 = true) ∧
         content_type file_t2 = Some t) →
        String.prefix "image/" t = false →
        ∃ rejection,
          status_code rejection = 400%nat ∧
          predict float_str image image_open_rgb image_resize image_array exception_str
            file_t1 file_t2 app =
          inl {| status_code := 500;
                 detail := "Prediction failed: " +:+ exception_str (RaisedHTTP rejection) |}).
Proof.
  split.
  - intros e. unfold predict. destruct (tf_available app); cbn [negb].
    + destruct (prediction_interpreter app) as [interpreter|].
      * destruct (predict_body _ _ _ _ _ _ _ _ _); [|done].
        intros [= <-]. right. eauto.
      * intros [= <-]. left. eauto.
    + intros [= <-]. left. eauto.
  - intros Htf [interpreter Hi] t Ht Hprefix. unfold predict.
    rewrite Htf, Hi. cbn [negb]. unfold predict_body, check_image.
    destruct Ht as [Ht1|[(t1 & Ht1 & Hp1) Ht2]].
    + rewrite Ht1, Hprefix. cbn. eexists. split; [|done]. done.
    + rewrite Ht1, Hp1, Ht2, Hprefix. cbn. eexists. split; [|done]. done.
Qed.

(** ** A server that has started *)

Lemma startup_inr tf_import_ok now fs app :
  startup ROOT load_interpreter npz_bytes keras_bytes tf_import_ok now fs = inr app →
  is_Some (fs_files fs !! TFLITE_MODEL ROOT) ∧
  app_server app = {| stats := initial_stats now; srv_fs := fs |} ∧
  tf_available app = tf_import_ok ∧
  (is_Some (prediction_interpreter app) → tf_available app = true).
Proof.
  unfold startup. destruct (fs_files fs !! TFLITE_MODEL ROOT) as [f|]; [|done].
  intros [= <-]. cbn. split_and!; [eauto|done..|].
  destruct tf_import_ok; [done|]. by intros [? ?].
Qed.

(** X13.  Start-up fails, with [FileNotFoundError], exactly when
    [ROOT/modic_model.tflite] is missing.  A server that has started keeps
    answering, after any number of rounds with the default output paths:
    [/model_info] with version [0], [/get_global_model] with the model,
    [/status] with the model present and no clients; [/health] is
    [healthy], and [/] announces online inference, exactly when the
    interpreter was loaded. *)
Theorem started_server_keeps_its_model
    (sha256_hexdigest : list byte → string)
    (tflite_convert : keras_model → option (list byte))
    tf_import_ok now fs (inputs : list (list string)) :
  match startup ROOT load_interpreter npz_bytes keras_bytes tf_import_ok now fs with
  | inl e =>
      fs_files fs !! TFLITE_MODEL ROOT = None ∧
      e = FileNotFoundError ("Required TFLite model not found: " +:+ TFLITE_MODEL ROOT)
  | inr app =>
      let s := (run_rounds tflite_convert (default_round <$> inputs) (app_server app)).2 in
      let app' := {| tf_available := tf_available app;
                     prediction_interpreter := prediction_interpreter app;
                     app_server := s |} in
      (∃ info, get_model_info ROOT sha256_hexdigest npz_bytes keras_bytes float_str s
                 = inr info ∧ model_version info = "0") ∧
      (∃ response, get_global_model ROOT sha256_hexdigest npz_bytes keras_bytes s
                 = inr response) ∧
      (∃ body, status ROOT app' = inr body ∧
               status_tflite_model_exists body = true ∧
               status_total_clients body = PyInt 0) ∧
      health_tflite_model_file (health_check ROOT app') = true ∧
      (health_status (health_check ROOT app') = "healthy" ↔
       is_Some (prediction_interpreter app)) ∧
      (root_online_inference app' = true ↔ is_Some (prediction_interpreter app))
  end.
Proof.
  destruct (startup _ _ _ _ _ _ _) as [e|app] eqn:Hstart.
  - revert Hstart. unfold startup.
    destruct (fs_files fs !! TFLITE_MODEL ROOT); [done|]. by intros [= <-].
  - apply startup_inr in Hstart as ([f Hf] & Hserver & Htf & Hinv).
    intros s app'.
    destruct (run_rounds_default_frame ROOT tflite_convert inputs (app_server app))
      as [Hstats Hfile].
    fold s in Hstats, Hfile. rewrite Hserver in Hstats, Hfile. cbn in Hstats, Hfile.
    rewrite Hf in Hfile.
    unfold get_model_info, get_global_model, status, health_check, root_online_inference.
    subst app'. cbn [app_server tf_available prediction_interpreter health_tflite_model_file
         health_status].
    rewrite Hfile, Hstats. rewrite bool_decide_eq_true_2 by eauto.
    split_and!.
    + eexists. split; reflexivity.
    + eauto.
    + eexists. split_and!; reflexivity.
    + done.
    + cbn [andb]. destruct (prediction_interpreter app) as [i|] eqn:Hi.
      * rewrite Hinv by eauto. rewrite bool_decide_eq_true_2 by eauto. cbn. split; eauto.
      * rewrite bool_decide_eq_false_2 by by intros [? ?].
        rewrite andb_false_r. split; [done|by intros [? ?]].
    + destruct (prediction_interpreter app) as [i|] eqn:Hi.
      * rewrite Hinv by eauto. rewrite bool_decide_eq_true_2 by eauto. cbn. split; eauto.
      * rewrite bool_decide_eq_false_2 by by intros [? ?].
        rewrite andb_false_r. split; [done|by intros [? ?]].
Qed.
End app_facts.

(** ** Writing an archive and reading it back *)


(** * The examples, evaluated *)

(** In the examples numpy adds the values of a column from left to right,
    as it does for the two or three files at hand. *)
#[local] Existing Instance add_reduce_in_order.

(** Case analysis on membership in a list that is written out. *)
Ltac elems :=
  repeat match goal with
    | H : _ ∈ [] |- _ => by apply elem_of_nil in H
    | H : _ ∈ _ :: _ |- _ => apply elem_of_cons in H as [->|H]
    end.

Lemma example_readable :
  readable example_fs ["a.npz"; "b.npz"; "c.npz"] [weights_a; weights_b; weights_c].
Proof. repeat constructor. Qed.

Lemma example_same_keys : same_keys [weights_a; weights_b; weights_c].
Proof. intros d1 d2 H1 H2. by elems. Qed.

Lemma example_same_shapes : same_shapes [weights_a; weights_b; weights_c].
Proof.
  intros k d1 d2 a1 a2 H1 H2; elems; simpl;
    repeat case_decide; intros; simplify_eq; done.
Qed.

Lemma example_storable_keys : storable_keys [weights_a; weights_b; weights_c].
Proof.
  intros d k Hd Hk; elems; apply list_elem_of_singleton in Hk as ->; compute_done.
Qed.

(** The specification's scenario: three clients upload [1,2], [3,4] and
    [5,6] under the key "w"; the whole list is averaged to [3,4]. *)
Example aggregate_three_clients :
  aggregate_npz_files ["a.npz"; "b.npz"; "c.npz"] "global" example_fs =
  (inr "global",
   write_fs "global.npz" (NpzData [("w", tensor float64 [2] [3; 4]%Z)]) example_fs).
Proof. compute_done. Qed.

(** Two files with the same set of keys, listed in different orders, are
    turned down by the comparison of the key lists. *)
Example reordered_keys_are_rejected :
  list_to_set (dict_keys weights_wb) =@{gset string} list_to_set (dict_keys weights_bw) ∧
  aggregate_npz_files ["wb.npz"; "bw.npz"] "global.npz" example_fs =
  (inl KeyMismatch, example_fs).
Proof. split; compute_done. Qed.

(** Three clients that hold the float64 nearest to 0.1: the sum rounds, and
    the aggregate is the next float64, above every input. *)
Example aggregate_three_tenths :
  aggregate_npz_files ["tenth.npz"; "tenth.npz"; "tenth.npz"] "global.npz" numbers_fs =
  (inr "global.npz",
   write_fs "global.npz" (NpzData [("w", tensor64 [1] [0x1.999999999999bp-4%float])])
     numbers_fs).
Proof. compute_done. Qed.

(** A member named [file] is read and averaged, and then clashes with the
    first parameter of [np.savez_compressed]: nothing is written. *)
Example member_named_file_is_not_saved :
  readable numbers_fs ["named_file.npz"] [weights_named_file] ∧
  aggregate_npz_files ["named_file.npz"] "global.npz" numbers_fs =
  (inl savez_clash, numbers_fs).
Proof. split; [repeat constructor|compute_done]. Qed.

(** A saved Keras model is a zip archive: as a client file it loads, to
    members that are no arrays.  The averaging turns it down; a round, which
    only loads the client files, goes through. *)
Example keras_file_as_client_file :
  aggregate_npz_files [GLOBAL_MODEL_KERAS] "global.npz" example_fs =
    (inl (AttributeError "'bytes' object has no attribute 'astype'"), example_fs) ∧
  (hybrid_fl_aggregation convert_ok [GLOBAL_MODEL_KERAS] GLOBAL_MODEL_KERAS
     GLOBAL_MODEL_TFLITE example_fs).1 = inr (GLOBAL_MODEL_KERAS, GLOBAL_MODEL_TFLITE).
Proof. split; compute_done. Qed.

(** C1, counterexample.  Two files that hold the largest power of two under
    the same key and shape: their mean is that power of two, the aggregate
    is infinite, since the sum overflows before it is halved.  And two
    readable files with the same key whose tensors have different shapes
    are not aggregated. *)
Lemma same_keys_without_the_mean :
  (readable numbers_fs ["huge.npz"; "huge.npz"] [weights_huge; weights_huge] ∧
   column [weights_huge; weights_huge] "w" 0 = [0x1p1023; 0x1p1023]%float ∧
   aggregate_npz_files ["huge.npz"; "huge.npz"] "global.npz" numbers_fs =
   (inr "global.npz",
    write_fs "global.npz" (NpzData [("w", tensor64 [1] [infinity])]) numbers_fs)) ∧
  (readable example_fs ["a.npz"; "wide.npz"] [weights_a; weights_wide] ∧
   dict_keys weights_a = dict_keys weights_wide ∧
   aggregate_npz_files ["a.npz"; "wide.npz"] "global.npz" example_fs =
   (inl StackShapeError, example_fs)).
Proof.
  split; split_and!; [repeat constructor|done|compute_done|repeat constructor|done|compute_done].
Qed.

Lemma aggregate_is_elementwise_mean_witness :
  ∃ averaged,
    aggregate_npz_files ["a.npz"; "b.npz"; "c.npz"] "global.npz" example_fs =
      (inr "global.npz",
       write_fs (savez_path "global.npz") (NpzData averaged) example_fs) ∧
    ∀ d, d ∈ [weights_a; weights_b; weights_c] →
      dict_keys averaged = dict_keys d ∧
      ∀ k a, dict_get k d = Some a →
        ∃ out, dict_get k averaged = Some out ∧
               arr_shape out = arr_shape a ∧
               length (arr_data out) = length (arr_data a) ∧
               ∀ i, (i < length (arr_data a))%nat →
                 let total :=
                   add_reduce (arr_shape a) (column [weights_a; weights_b; weights_c] k i) in
                 float_sum (column [weights_a; weights_b; weights_c] k i) total ∧
                 arr_data out !! i = Some (total / float_of_nat 3)%float.
Proof.
  apply (aggregate_is_elementwise_mean example_fs ["a.npz"; "b.npz"; "c.npz"]
           "global.npz" [weights_a; weights_b; weights_c]).
  - done.
  - exact example_readable.
  - exact example_same_keys.
  - exact example_same_shapes.
  - exact example_storable_keys.
Defined.

Lemma example_readable_ab :
  readable example_fs ["a.npz"; "b.npz"] [weights_a; weights_b].
Proof. repeat constructor. Qed.

Lemma example_same_keys_ab : same_keys [weights_a; weights_b].
Proof. intros d1 d2 H1 H2. by elems. Qed.

Lemma example_same_shapes_ab : same_shapes [weights_a; weights_b].
Proof.
  intros k d1 d2 a1 a2 H1 H2; elems; simpl;
    repeat case_decide; intros; simplify_eq; done.
Qed.

Lemma example_no_file_key_ab (d : weights) :
  d ∈ [weights_a; weights_b] → "file" ∉ dict_keys d.
Proof. intros Hd; elems; compute_done. Qed.

Example manifest_of_example_server :
  get_model_info example_root toy_digest toy_npz_bytes toy_keras_bytes toy_float_str
    example_server =
  inr {| model_hash := "3"; model_version := "0"; model_size_bytes := 3;
         last_modified := 0; download_url := "/get_global_model" |} ∧
  get_global_model example_root toy_digest toy_npz_bytes toy_keras_bytes example_server =
  inr {| fr_body := [x0a; x0b; x0c];
         fr_media_type := "application/octet-stream";
         fr_filename := "modic_model.tflite";
         fr_headers := [("Model-Version", "0"); ("Model-Hash", "3"); ("Model-Size", "3")] |}.
Proof. split; vm_compute; reflexivity. Qed.

(** C3, counterexample: after one successful round the manifest still
    reports version "0". *)
Lemma version_unchanged_by_successful_round :
  (run_rounds convert_ok [example_round] example_server).1 = 1%nat ∧
  get_model_info example_root toy_digest toy_npz_bytes toy_keras_bytes toy_float_str
    (run_rounds convert_ok [example_round] example_server).2 =
  inr {| model_hash := "3"; model_version := "0"; model_size_bytes := 3;
         last_modified := 0; download_url := "/get_global_model" |} ∧
  "0" ≠ pretty 1%Z.
Proof. split_and!; [vm_compute; reflexivity..|compute_done]. Qed.

(** When the converter fails, the training-format file has already been
    written again: it holds the model it held, and its stamp has moved. *)
Example failed_conversion_rewrites_training_artifact :
  hybrid_fl_aggregation convert_fails ["a.npz"; "b.npz"] GLOBAL_MODEL_KERAS
    GLOBAL_MODEL_TFLITE example_fs =
  (inl ConverterError, write_fs GLOBAL_MODEL_KERAS (KerasData previous_model) example_fs) ∧
  fs_files example_fs !! GLOBAL_MODEL_KERAS =
    Some {| f_data := KerasData previous_model; f_mtime := 0 |} ∧
  fs_files (write_fs GLOBAL_MODEL_KERAS (KerasData previous_model) example_fs)
    !! GLOBAL_MODEL_KERAS =
    Some {| f_data := KerasData previous_model; f_mtime := 1 |}.
Proof. split_and!; compute_done. Qed.

(** C4, counterexample: the conversion succeeds and the write of the
    inference-format file breaks off.  The round fails; the published
    inference artifact is gone, an empty file stands in its place, and the
    training-format file has been written again. *)
Lemma failed_write_leaves_partial_artifact :
  let fs' := write_fs GLOBAL_MODEL_TFLITE (RawData [])
               (write_fs GLOBAL_MODEL_KERAS (KerasData previous_model) example_fs) in
  hybrid_fl_aggregation (D := full_disk) convert_ok ["a.npz"; "b.npz"] GLOBAL_MODEL_KERAS
    GLOBAL_MODEL_TFLITE example_fs = (inl (OSError GLOBAL_MODEL_TFLITE), fs') ∧
  fs_files example_fs !! GLOBAL_MODEL_TFLITE =
    Some {| f_data := RawData [x01; x02]; f_mtime := 0 |} ∧
  fs_files fs' !! GLOBAL_MODEL_TFLITE = Some {| f_data := RawData []; f_mtime := 2 |} ∧
  fs_files fs' !! GLOBAL_MODEL_KERAS =
    Some {| f_data := KerasData previous_model; f_mtime := 1 |}.
Proof. split_and!; compute_done. Qed.

Lemma failed_round_effects_witness :
  let fs1 := write_fs GLOBAL_MODEL_KERAS (KerasData previous_model) example_fs in
  let fs' := write_fs GLOBAL_MODEL_TFLITE (RawData []) fs1 in
  (∀ p, p ≠ GLOBAL_MODEL_KERAS → p ≠ GLOBAL_MODEL_TFLITE →
     fs_files fs' !! p = fs_files example_fs !! p) ∧
  (raised_before_saving (OSError GLOBAL_MODEL_TFLITE) → fs' = example_fs) ∧
  (OSError GLOBAL_MODEL_TFLITE = ConverterError →
     (∃ f model, fs_files example_fs !! GLOBAL_MODEL_KERAS = Some f ∧
        f_data f = KerasData model ∧ convert_ok model = None ∧
        fs' = write_fs GLOBAL_MODEL_KERAS (KerasData model) example_fs) ∧
     (GLOBAL_MODEL_KERAS ≠ GLOBAL_MODEL_TFLITE →
        fs_files fs' !! GLOBAL_MODEL_TFLITE = fs_files example_fs !! GLOBAL_MODEL_TFLITE)) ∧
  (∀ p, OSError GLOBAL_MODEL_TFLITE = OSError p →
     ∃ f model, fs_files example_fs !! GLOBAL_MODEL_KERAS = Some f ∧
       f_data f = KerasData model ∧
       ((p = GLOBAL_MODEL_KERAS ∧
         match @write_outcome full_disk GLOBAL_MODEL_KERAS (KerasData model) with
         | Completes => False
         | CannotOpen => fs' = example_fs
         | Breaks remains => fs' = write_fs GLOBAL_MODEL_KERAS remains example_fs
         end) ∨
        (p = GLOBAL_MODEL_TFLITE ∧
         ∃ b, convert_ok model = Some b ∧
           match @write_outcome full_disk GLOBAL_MODEL_TFLITE (RawData b) with
           | Completes => False
           | CannotOpen => fs' = write_fs GLOBAL_MODEL_KERAS (KerasData model) example_fs
           | Breaks remains =>
               fs' = write_fs GLOBAL_MODEL_TFLITE remains
                       (write_fs GLOBAL_MODEL_KERAS (KerasData model) example_fs)
           end))).
Proof.
  apply (failed_round_effects (D := full_disk) convert_ok ["a.npz"; "b.npz"]
           GLOBAL_MODEL_KERAS GLOBAL_MODEL_TFLITE example_fs (OSError GLOBAL_MODEL_TFLITE)).
  vm_compute. reflexivity.
Defined.

(** C5, counterexample: two clients whose tensors average to [2,3] leave
    the model with the parameters [0,0] it had. *)
Lemma averaging_step_returns_previous_model :
  keras_federated_averaging (as_loaded <$> [weights_a; weights_b]) GLOBAL_MODEL_KERAS
    example_fs =
  (inr previous_model, write_fs GLOBAL_MODEL_KERAS (KerasData previous_model) example_fs) ∧
  average_loop (as_loaded <$> [weights_a; weights_b]) ["w"] [] =
    inr [("w", tensor float64 [2] [2; 3]%Z)] ∧
  arr_data <$> get_weights previous_model = [float_of_Z <$> [0; 0]%Z] ∧
  arr_data <$> get_weights previous_model ≠ [float_of_Z <$> [2; 3]%Z].
Proof. split_and!; compute_done. Qed.

Lemma keras_federated_averaging_resaves_witness :
  (∃ f, fs_files example_fs !! GLOBAL_MODEL_KERAS = Some f ∧
        f_data f = KerasData previous_model) ∧
  fs_files (write_fs GLOBAL_MODEL_KERAS (KerasData previous_model) example_fs)
    !! GLOBAL_MODEL_KERAS =
    Some {| f_data := KerasData previous_model; f_mtime := fs_clock example_fs |} ∧
  (∀ other_weights, other_weights ≠ [] →
     keras_federated_averaging other_weights GLOBAL_MODEL_KERAS example_fs =
     (inr previous_model,
      write_fs GLOBAL_MODEL_KERAS (KerasData previous_model) example_fs)).
Proof.
  apply (keras_federated_averaging_resaves (as_loaded <$> [weights_a; weights_b])
           GLOBAL_MODEL_KERAS example_fs previous_model).
  vm_compute. reflexivity.
Defined.

(** C6, counterexample: a single update is aggregated and the artifact is
    written. *)
Lemma single_update_is_aggregated :
  aggregate_npz_files ["a.npz"] "global.npz" example_fs =
  (inr "global.npz",
   write_fs "global.npz" (NpzData [("w", tensor float64 [2] [1; 2]%Z)]) example_fs) ∧
  fs_files example_fs !! "global.npz" = None ∧
  fs_files (write_fs "global.npz" (NpzData [("w", tensor float64 [2] [1; 2]%Z)]) example_fs)
    !! "global.npz" =
    Some {| f_data := NpzData [("w", tensor float64 [2] [1; 2]%Z)]; f_mtime := 1 |}.
Proof. split_and!; compute_done. Qed.

Lemma aggregate_has_no_participant_threshold_witness :
  (∃ averaged, aggregate_npz_files ["a.npz"] "global.npz" example_fs =
     (inr "global.npz", write_fs (savez_path "global.npz") (NpzData averaged) example_fs)) ∧
  (∃ averaged, aggregate_npz_files ["a.npz"; "b.npz"] "global.npz" example_fs =
     (inr "global.npz", write_fs (savez_path "global.npz") (NpzData averaged) example_fs)).
Proof.
  destruct (aggregate_has_no_participant_threshold example_fs "global.npz")
    as (Hone & Hmany).
  split.
  - apply (Hone "a.npz" weights_a); [reflexivity|compute_done].
  - apply (Hmany ["a.npz"; "b.npz"] [weights_a; weights_b]).
    + simpl. lia.
    + exact example_readable_ab.
    + exact example_same_keys_ab.
    + exact example_same_shapes_ab.
    + exact example_no_file_key_ab.
Defined.

(** C7, counterexample: two files with the same set of keys and tensors of
    different shapes: no success, and the failure is not KeyMismatch. *)
Lemma same_key_sets_without_success :
  readable example_fs ["wide.npz"; "b.npz"] [weights_wide; weights_b] ∧
  list_to_set (dict_keys weights_wide) =@{gset string} list_to_set (dict_keys weights_b) ∧
  aggregate_npz_files ["wide.npz"; "b.npz"] "global.npz" example_fs =
    (inl StackShapeError, example_fs) ∧
  StackShapeError ≠ KeyMismatch.
Proof. split_and!; [repeat constructor|compute_done..]. Qed.

Lemma aggregate_failure_modes_witness :
  aggregate_npz_files [] "global.npz" example_fs = (inl EmptyInput, example_fs) ∧
  aggregate_npz_files ["a.npz"; "wb.npz"] "global.npz" example_fs =
    (inl KeyMismatch, example_fs) ∧
  (aggregate_npz_files ["a.npz"; "b.npz"] "global.npz" example_fs).1 ≠ inl KeyMismatch ∧
  (∃ averaged, aggregate_npz_files ["a.npz"; "b.npz"] "global.npz" example_fs =
     (inr "global.npz", write_fs (savez_path "global.npz") (NpzData averaged) example_fs)) ∧
  aggregate_npz_files ["a.npz"; "wide.npz"] "global.npz" example_fs =
    (inl StackShapeError, example_fs).
Proof.
  destruct (aggregate_failure_modes example_fs "global.npz")
    as (Hempty & Hsets & Hlists & Hfail).
  split_and!.
  - exact Hempty.
  - apply (Hsets ["a.npz"; "wb.npz"] [weights_a; weights_wb] weights_a weights_wb).
    + repeat constructor.
    + by left.
    + by right; left.
    + compute_done.
  - apply (Hlists ["a.npz"; "b.npz"] [weights_a; weights_b]);
      [done|exact example_readable_ab|exact example_same_keys_ab].
  - apply (Hlists ["a.npz"; "b.npz"] [weights_a; weights_b]);
      [done|exact example_readable_ab|exact example_same_keys_ab
      |exact example_same_shapes_ab|exact example_no_file_key_ab].
  - apply (Hlists ["a.npz"; "wide.npz"] [weights_a; weights_wide]).
    + done.
    + repeat constructor.
    + intros d1 d2 H1 H2. by elems.
    + exists "w", weights_a, weights_wide,
        (tensor float32 [2] [1; 2]%Z), (tensor float32 [3] [3; 4; 5]%Z).
      split_and!; [by left|by right; left|done|done|compute_done].
Defined.

(** C8, counterexample.  The same three files in two orders: the values
    10^16, 1 and -10^16 average to 0 in one order and to the float64 nearest
    to 1/3 in the other; the values 2^1023, 2^1023 and -2^1023 average to
    infinity in one order and to a finite number in the other. *)
Lemma reordered_files_other_mean :
  (["big.npz"; "one.npz"; "minus_big.npz"] ≡ₚ ["big.npz"; "minus_big.npz"; "one.npz"] ∧
   readable numbers_fs ["big.npz"; "one.npz"; "minus_big.npz"]
     [weights_big; weights_one; weights_minus_big] ∧
   dict_keys weights_big = dict_keys weights_one ∧
   dict_keys weights_one = dict_keys weights_minus_big ∧
   aggregate_npz_files ["big.npz"; "one.npz"; "minus_big.npz"] "global.npz" numbers_fs =
     (inr "global.npz",
      write_fs "global.npz" (NpzData [("w", tensor64 [1] [0%float])]) numbers_fs) ∧
   aggregate_npz_files ["big.npz"; "minus_big.npz"; "one.npz"] "global.npz" numbers_fs =
     (inr "global.npz",
      write_fs "global.npz" (NpzData [("w", tensor64 [1] [0x1.5555555555555p-2%float])])
        numbers_fs)) ∧
  (["huge.npz"; "huge.npz"; "minus_huge.npz"] ≡ₚ ["huge.npz"; "minus_huge.npz"; "huge.npz"] ∧
   readable numbers_fs ["huge.npz"; "huge.npz"; "minus_huge.npz"]
     [weights_huge; weights_huge; weights_minus_huge] ∧
   dict_keys weights_huge = dict_keys weights_minus_huge ∧
   aggregate_npz_files ["huge.npz"; "huge.npz"; "minus_huge.npz"] "global.npz" numbers_fs =
     (inr "global.npz",
      write_fs "global.npz" (NpzData [("w", tensor64 [1] [infinity])]) numbers_fs) ∧
   aggregate_npz_files ["huge.npz"; "minus_huge.npz"; "huge.npz"] "global.npz" numbers_fs =
     (inr "global.npz",
      write_fs "global.npz" (NpzData [("w", tensor64 [1] [0x1.5555555555555p1021%float])])
        numbers_fs)).
Proof.
  split; split_and!;
    [apply perm_skip, perm_swap|repeat constructor|done|done|compute_done|compute_done
    |apply perm_skip, perm_swap|repeat constructor|done|compute_done|compute_done].
Qed.

Lemma aggregate_order_independent_witness :
  ∃ loaded',
    readable example_fs ["c.npz"; "a.npz"; "b.npz"] loaded' ∧
    [weights_a; weights_b; weights_c] ≡ₚ loaded' ∧
    (∀ e fs1,
       aggregate_npz_files ["a.npz"; "b.npz"; "c.npz"] "global.npz" example_fs =
         (inl e, fs1) →
       aggregate_npz_files ["c.npz"; "a.npz"; "b.npz"] "global.npz" example_fs =
         (inl e, fs1)) ∧
    (∀ r fs1,
       aggregate_npz_files ["a.npz"; "b.npz"; "c.npz"] "global.npz" example_fs =
         (inr r, fs1) →
       ∃ averaged averaged',
         fs1 = write_fs (savez_path "global.npz") (NpzData averaged) example_fs ∧
         aggregate_npz_files ["c.npz"; "a.npz"; "b.npz"] "global.npz" example_fs =
           (inr r, write_fs (savez_path "global.npz") (NpzData averaged') example_fs) ∧
         dict_keys averaged' = dict_keys averaged ∧
         ∀ k out, dict_get k averaged = Some out →
           ∃ out', dict_get k averaged' = Some out' ∧
             arr_dtype out' = arr_dtype out ∧ arr_shape out' = arr_shape out ∧
             ∀ i, (i < shape_size (arr_shape out))%nat →
               column loaded' k i ≡ₚ column [weights_a; weights_b; weights_c] k i ∧
               arr_data out !! i =
                 Some (float64_mean (arr_shape out) 3
                         (column [weights_a; weights_b; weights_c] k i)) ∧
               arr_data out' !! i =
                 Some (float64_mean (arr_shape out) 3 (column loaded' k i))) ∧
    ((∀ s k i, add_reduce s (column loaded' k i) =
               add_reduce s (column [weights_a; weights_b; weights_c] k i)) →
       aggregate_npz_files ["c.npz"; "a.npz"; "b.npz"] "global.npz" example_fs =
       aggregate_npz_files ["a.npz"; "b.npz"; "c.npz"] "global.npz" example_fs).
Proof.
  apply (aggregate_order_independent example_fs ["a.npz"; "b.npz"; "c.npz"]
           ["c.npz"; "a.npz"; "b.npz"] "global.npz" [weights_a; weights_b; weights_c]).
  - symmetry. apply (Permutation_cons_append ["a.npz"; "b.npz"] "c.npz").
  - exact example_readable.
  - exact example_same_keys.
Defined.

(** C9, counterexample: float32 inputs, float64 output. *)
Lemma float32_inputs_give_float64_output :
  aggregate_npz_files ["a.npz"; "b.npz"] "global.npz" example_fs =
  (inr "global.npz",
   write_fs "global.npz" (NpzData [("w", tensor float64 [2] [2; 3]%Z)]) example_fs) ∧
  Forall (λ d, Forall (λ kv, arr_dtype kv.2 = float32) d) [weights_a; weights_b] ∧
  arr_dtype (tensor float64 [2] [2; 3]%Z) ≠ float32.
Proof. split_and!; compute_done. Qed.

Lemma aggregate_output_is_float64_witness :
  ∃ averaged,
    fs_files (write_fs "global.npz" (NpzData [("w", tensor float64 [2] [2; 3]%Z)]) example_fs)
      !! savez_path "global.npz" =
      Some {| f_data := NpzData averaged; f_mtime := fs_clock example_fs |} ∧
    ∀ k out, dict_get k averaged = Some out → arr_dtype out = float64.
Proof.
  apply (aggregate_output_is_float64 ["a.npz"; "b.npz"] "global.npz" example_fs "global.npz").
  compute_done.
Defined.


(** ** Archives written and read back, the setup and the predictions *)

(** Two clients, and an output name without the [.npz] suffix. *)
Lemma example_aggregate_ab :
  aggregate_npz_files ["a.npz"; "b.npz"] "global" example_fs =
  (inr "global",
   write_fs "global.npz" (NpzData [("w", tensor float64 [2] [2; 3]%Z)]) example_fs).
Proof. compute_done. Qed.

Lemma aggregate_output_can_be_loaded_witness :
  let fs' := write_fs "global.npz" (NpzData [("w", tensor float64 [2] [2; 3]%Z)])
               example_fs in
  "global" = "global" ∧
  (∃ averaged,
     fs' = write_fs (savez_path "global") (NpzData averaged) example_fs ∧
     (plain_keys (dict_keys averaged) →
      load_npz (savez_path "global") fs' = (inr (as_loaded averaged), fs'))) ∧
  (∀ path, path ≠ savez_path "global" →
     fs_files fs' !! path = fs_files example_fs !! path) ∧
  (ends_with ".npz" "global" = true → savez_path "global" = "global") ∧
  (ends_with ".npz" "global" = false →
     fs_files fs' !! "global" = fs_files example_fs !! "global").
Proof.
  apply (aggregate_output_can_be_loaded ["a.npz"; "b.npz"] "global" example_fs).
  exact example_aggregate_ab.
Defined.

(** An archive whose member names end in [.npy]: [data["w.npy"]] is read
    from the member of that name, which holds the array of key [w].  The
    file loads with the first array under two keys; the aggregate of this
    one file is written with these three keys, and loads again with the
    first array under all three. *)
Example names_ending_in_npy_are_not_read_back :
  let one := tensor float32 [1] [1]%Z in
  let two := tensor float32 [1] [2]%Z in
  let averaged :=
    [("w", tensor float64 [1] [1]%Z); ("w.npy", tensor float64 [1] [1]%Z);
     ("w.npy.npy", tensor float64 [1] [2]%Z)] in
  let fs' := write_fs "global.npz" (NpzData averaged) numbers_fs in
  read_npz numbers_fs "npy_names.npz" =
    inr (as_loaded [("w", one); ("w.npy", one); ("w.npy.npy", two)]) ∧
  aggregate_npz_files ["npy_names.npz"] "global.npz" numbers_fs = (inr "global.npz", fs') ∧
  load_npz "global.npz" fs' =
    (inr (as_loaded [("w", tensor float64 [1] [1]%Z); ("w.npy", tensor float64 [1] [1]%Z);
                     ("w.npy.npy", tensor float64 [1] [1]%Z)]), fs').
Proof. split_and!; compute_done. Qed.

Lemma example_wb_keys :
  NoDup (dict_keys weights_wb) ∧
  (∀ k, k ∈ dict_keys weights_wb → k ∉ savez_parameters) ∧
  plain_keys (dict_keys weights_wb).
Proof.
  split_and!; [compute_done|intros k Hk; change (k ∈ ["w"; "b"]) in Hk; elems; compute_done..].
Qed.

Lemma example_wb_wf : Forall (λ kv : string * ndarray, wf_array kv.2) weights_wb.
Proof. repeat constructor. Qed.




Lemma predict_label_and_confidence_witness :
  ∃ result,
    predict toy_float_str toy_image toy_image_open_rgb toy_image_resize toy_image_array
      toy_exception_str (example_scan "t1.png") (example_scan "t2.png") example_app =
      inr result ∧
    label result = "Modic" ∧
    prediction result = confidence result ∧
    (detailed_no_modic result ≤ confidence result)%Qc ∧
    (detailed_modic result ≤ confidence result)%Qc ∧
    (label result = "Modic" ∧ confidence result = detailed_modic result ∧
     (detailed_no_modic result < detailed_modic result)%Qc ∨
     label result = "No Modic" ∧ confidence result = detailed_no_modic result ∧
     (detailed_modic result ≤ detailed_no_modic result)%Qc).
Proof.
  eexists. split; [reflexivity|]. split; [reflexivity|].
  apply (predict_label_and_confidence toy_float_str toy_image toy_image_open_rgb
           toy_image_resize toy_image_array toy_exception_str
           (example_scan "t1.png") (example_scan "t2.png") example_app).
  reflexivity.
Defined.

(** A PDF sent as the T1 image. *)
Lemma predict_failure_status_witness :
  ∃ rejection,
    status_code rejection = 400%nat ∧
    predict toy_float_str toy_image toy_image_open_rgb toy_image_resize toy_image_array
      toy_exception_str example_document (example_scan "t2.png") example_app =
    inl {| status_code := 500;
           detail := "Prediction failed: " +:+ toy_exception_str (RaisedHTTP rejection) |}.
Proof.
  apply (proj2 (predict_failure_status toy_float_str toy_image toy_image_open_rgb
                  toy_image_resize toy_image_array toy_exception_str
                  example_document (example_scan "t2.png") example_app)
           eq_refl (ex_intro _ toy_interpreter eq_refl) "application/pdf").
  - left. reflexivity.
  - reflexivity.
Defined.
